(** * kruda: binary tables and the filter processor

    A shallow embedding of [src/data/table/Table.js],
    [src/data/filter/FilterProcessor.js] and the worker message handler
    ([filterWorkerOnMessage]), with the properties their specification
    states about them.

    Conventions of the embedding.
    - JavaScript numbers are IEEE-754 binary64 values: Rocq's primitive
      [float].  Row indices, row counts, batch sizes and the shared cursor
      are integers and are kept in [Z]; the Uint32 storage of the cursor
      and of the row count is written out as reduction modulo [2^32].
    - A JavaScript call either returns or throws: [result].  Loops whose
      number of iterations is not bounded by their input take fuel and
      return [None] when it runs out.
    - Closures are Rocq functions over the state they close over
      ([World]); mutable objects (row cursors, tables in shared memory)
      are fields of that state. *)

From Stdlib Require Import ZArith List String Ascii Bool Lia.
From Stdlib Require Import PrimFloat SpecFloat FloatOps FloatAxioms.
From stdpp Require Import base option list gmap strings.

Open Scope Z_scope.

(** ** JavaScript completions *)

Inductive JsError : Type :=
| TypeError (msg : string)
| Thrown (msg : string).

Inductive result (A : Type) : Type :=
| Ok (a : A)
| Throw (e : JsError).

Arguments Ok {A} a.
Arguments Throw {A} e.

#[global] Instance result_ret : MRet result := fun A a => Ok a.
#[global] Instance result_bind : MBind result := fun A B f m =>
  match m with
  | Ok a => f a
  | Throw e => Throw e
  end.

#[global] Instance result_fmap : FMap result := fun A B f m =>
  match m with
  | Ok a => Ok (f a)
  | Throw e => Throw e
  end.

(** [mapM] for arrays filled by a [for] loop of calls that may throw. *)
Fixpoint forPush {A B : Type} (f : A -> result B) (l : list A) : result (list B) :=
  match l with
  | [] => Ok []
  | a :: l' =>
      match f a with
      | Ok b =>
          match forPush f l' with
          | Ok bs => Ok (b :: bs)
          | Throw e => Throw e
          end
      | Throw e => Throw e
      end
  end.

(** ** Numbers *)

Definition u32 : Z := 2 ^ 32.

(** Storing into a [Uint32Array] element keeps the value modulo [2^32]. *)
Definition toUint32 (z : Z) : Z := z mod u32.

(** The number with the value of an integer (exact below [2^53]). *)
Definition Z2float (z : Z) : float :=
  SF2Prim (binary_normalize prec emax z 0 false).

(** [m / d * 2^0] for [m >= 0], [d > 0], rounded to the nearest binary64:
    the quotient is taken with 80 extra bits and a sticky bit. *)
Definition ratio2float (neg : bool) (m d : Z) : float :=
  let s := 80 + Z.log2 d in
  let q := Z.shiftl m s / d in
  let r := Z.shiftl m s mod d in
  let q' := 2 * q + (if r =? 0 then 0 else 1) in
  SF2Prim (binary_normalize prec emax (if neg then - q' else q') (- (s + 1)) neg).

(** [m * 10^e] as a number; exponents outside the binary64 range are cut
    off where the result is already infinite or zero. *)
Definition decimal2float (neg : bool) (m e : Z) : float :=
  if m =? 0 then (if neg then neg_zero else zero)
  else if 400 <? e then (if neg then neg_infinity else infinity)
  else if e <? -800 - Z.log2 m then (if neg then neg_zero else zero)
  else if 0 <=? e then
    SF2Prim (binary_normalize prec emax ((if neg then -1 else 1) * m * 10 ^ e) 0 neg)
  else ratio2float neg m (10 ^ (- e)).

(** A string is held as the bytes of its UTF-8 encoding.  The code points
    that the builtins trim are those of WhiteSpace and LineTerminator of
    ECMAScript: U+0009 to U+000D and U+0020, of one byte; U+00A0, of two
    bytes (194 160); and, of three bytes, U+1680 (225 154 128), U+2000 to
    U+200A, U+2028, U+2029 and U+202F (226 128 then 128 to 138, 168, 169,
    175), U+205F (226 129 159), U+3000 (227 128 128) and U+FEFF
    (239 187 191). *)
Definition byteOf (c : ascii) : Z := Z.of_N (N_of_ascii c).

Definition isWhiteSpace (c : ascii) : bool :=
  let n := byteOf c in
  (n =? 32) || ((9 <=? n) && (n <=? 13)).

Definition isWhiteSpace2 (c1 c2 : ascii) : bool :=
  (byteOf c1 =? 194) && (byteOf c2 =? 160).

Definition isWhiteSpace3 (c1 c2 c3 : ascii) : bool :=
  let a := byteOf c1 in
  let b := byteOf c2 in
  let c := byteOf c3 in
  ((a =? 225) && (b =? 154) && (c =? 128)) ||
  ((a =? 226) && (b =? 128) &&
   (((128 <=? c) && (c <=? 138)) || (c =? 168) || (c =? 169) || (c =? 175))) ||
  ((a =? 226) && (b =? 129) && (c =? 159)) ||
  ((a =? 227) && (b =? 128) && (c =? 128)) ||
  ((a =? 239) && (b =? 187) && (c =? 191)).

(** The string without the white space and line terminators it starts
    with. *)
Fixpoint trimStart (s : string) : string :=
  match s with
  | String c1 s1 =>
      if isWhiteSpace c1 then trimStart s1
      else
        match s1 with
        | String c2 s2 =>
            if isWhiteSpace2 c1 c2 then trimStart s2
            else
              match s2 with
              | String c3 s3 => if isWhiteSpace3 c1 c2 c3 then trimStart s3 else s
              | EmptyString => s
              end
        | EmptyString => s
        end
  | EmptyString => s
  end.

Definition digitOf (c : ascii) : option Z :=
  let n := Z.of_N (N_of_ascii c) in
  if (48 <=? n) && (n <=? 57) then Some (n - 48) else None.

(** Reads a run of decimal digits: value so far, number of digits, rest. *)
Fixpoint readDigits (s : string) (acc count : Z) : Z * Z * string :=
  match s with
  | String c s' =>
      match digitOf c with
      | Some d => readDigits s' (10 * acc + d) (count + 1)
      | None => (acc, count, s)
      end
  | EmptyString => (acc, count, s)
  end.

Definition readSign (s : string) : bool * string :=
  match s with
  | String "-" s' => (true, s')
  | String "+" s' => (false, s')
  | _ => (false, s)
  end.

(** The optional exponent part: taken only when it has a digit. *)
Definition readExponent (s : string) : Z :=
  match s with
  | String c s' =>
      if (Ascii.eqb c "e" || Ascii.eqb c "E")%bool then
        let '(neg, s'') := readSign s' in
        let '(v, n, _) := readDigits s'' 0 0 in
        if n =? 0 then 0 else if neg then - v else v
      else 0
  | EmptyString => 0
  end.

(** The builtin [parseFloat]: the longest prefix of the string, after the
    white space and line terminators it starts with, that is a decimal
    literal or a signed [Infinity], rounded to the nearest binary64; NaN
    when there is none. *)
Definition parseFloat (s : string) : float :=
  let '(neg, s1) := readSign (trimStart s) in
  if String.prefix "Infinity" s1 then (if neg then neg_infinity else infinity)
  else
    let '(m1, n1, s2) := readDigits s1 0 0 in
    let '(m2, n2, s3) :=
      match s2 with
      | String "." s2' => readDigits s2' m1 0
      | _ => (m1, 0, s2)
      end in
    if n1 + n2 =? 0 then nan
    else decimal2float neg m2 (readExponent s3 - n2).

(** ** ByteString *)

(** Modelled from the spec: [src/data/types/ByteString.js] is not part of
    the sources.  A ByteString is the byte content of a column slot;
    [equalsCase] is case-insensitive ASCII-folded equality and
    [containsCase] case-insensitive substring containment. *)
Definition ByteString : Type := string.

Definition foldCase (c : ascii) : ascii :=
  let n := N_of_ascii c in
  if ((65 <=? n) && (n <=? 90))%N then ascii_of_N (n + 32) else c.

Fixpoint foldCaseString (s : string) : string :=
  match s with
  | String c s' => String (foldCase c) (foldCaseString s')
  | EmptyString => EmptyString
  end.

Definition ByteString_fromString (s : string) : ByteString := s.

Definition equalsCase (a b : ByteString) : bool :=
  String.eqb (foldCaseString a) (foldCaseString b).

Fixpoint containsFrom (a b : string) : bool :=
  String.prefix b a ||
  match a with
  | String _ a' => containsFrom a' b
  | EmptyString => false
  end.

Definition containsCase (a b : ByteString) : bool :=
  containsFrom (foldCaseString a) (foldCaseString b).

(** What an accessor's getter returns and its setter takes: a number for
    the numeric column types, a ByteString for text columns of a binary
    row. *)
Inductive JsValue : Type :=
| VNum (x : float)
| VByteString (s : ByteString).


(** ** Table ([src/data/table/Table.js]) *)

Inductive ColumnType : Type :=
| Int8 | Uint8 | Int16 | Uint16 | Int32 | Uint32 | Float32
| ByteStringType.

Definition ColumnType_eqb (a b : ColumnType) : bool :=
  match a, b with
  | Int8, Int8 | Uint8, Uint8 | Int16, Int16 | Uint16, Uint16
  | Int32, Int32 | Uint32, Uint32 | Float32, Float32
  | ByteStringType, ByteStringType => true
  | _, _ => false
  end.

Record Column : Type := { name : string; type : ColumnType }.

(** Modelled from the spec: [src/data/table/Header.js] is not part of the
    sources.  The header lists the columns in memory order and holds the
    row count, a Uint32 field that [addRows] advances by an atomic
    fetch-and-add returning the prior value. *)
Record Header : Type := { columns : list Column; rowCount : Z }.

Definition Header_addRows (count : Z) (h : Header) : Z * Header :=
  (rowCount h, {| columns := columns h; rowCount := toUint32 (rowCount h + count) |}).

(** The table's memory: the header and the row data behind it, read and
    written through accessors at (row index, column index in memory
    order).  The data of rows beyond [rowCount] is there, and not
    cleared, as in [addRows]'s note.

    Modelled from the spec: the column types and the accessors of
    [src/data/table/Row.js] are not part of the sources.  Columns are
    typed and of fixed size (sections 3 and 6): a write converts the
    value to the column's type, and only a value in the column's range
    is read back as it was written (section 8, property 4).
    [stored c v] is what column [c] holds after [v] is written to it.
    It belongs to the table's columns, and no operation changes it.  The
    conversions themselves are in code that is not part of the sources,
    so the general statements leave [stored] open and hold whatever it
    is: what is read back from a cell is always [stored] of what was
    written, and is the value written only where that is assumed or
    computed.  The tables of the fixtures have the conversions of
    [typedStore]. *)
Record Table : Type :=
  { header : Header;
    cells : Z -> nat -> JsValue;
    stored : nat -> JsValue -> JsValue }.

Definition Table_rowCount (t : Table) : Z := rowCount (header t).

Definition addRows (count : Z) (t : Table) : Z * Table :=
  let '(old, h) := Header_addRows count (header t) in
  (old, {| header := h; cells := cells t; stored := stored t |}).

Definition getCell (t : Table) (r : Z) (c : nat) : JsValue := cells t r c.

Definition setCell (t : Table) (r : Z) (c : nat) (v : JsValue) : Table :=
  {| header := header t;
     cells := fun r' c' =>
       if (r' =? r) && Nat.eqb c' c then stored t c v else cells t r' c';
     stored := stored t |}.

(** Modelled from the spec: [src/data/table/Row.js] is not part of the
    sources.  A row is a cursor: its [index] is the only thing that moves;
    [names] maps a column name to its index in memory order and
    [accessors] is parallel to the table's columns. *)
Record Row : Type := { index : Z; binary : bool }.

Definition newRow (i : Z) (b : bool) : Row := {| index := i; binary := b |}.

Definition setIndex (i : Z) (row : Row) : Row :=
  {| index := i; binary := binary row |}.

Definition names (t : Table) : gmap string nat :=
  list_to_map (zip (map name (columns (header t)))
                   (seq 0 (length (columns (header t))))).

(** [!index] for an integer index, and the number a boolean compares as. *)
Definition logicalNot (i : Z) : bool := i =? 0.
Definition boolToNumber (b : bool) : Z := if b then 1 else 0.

Section Build.

(** The build flag of the [/// #if !_DEBUG] blocks: in a build without it
    the bounds checks are commented out. *)
Variable _DEBUG : bool.

(** [if (!index >= this.rowCount) throw ...], as JavaScript parses it:
    [(!index) >= this.rowCount]. *)
Definition boundsGuard (i : Z) (t : Table) : bool :=
  _DEBUG && (Table_rowCount t <=? boolToNumber (logicalNot i)).

Definition getRow (i : Z) (row : option Row) (t : Table) : result Row :=
  let row := default (newRow i false) row in
  if boundsGuard i t then Throw (Thrown "ERROR: Index out of bounds!")
  else Ok (setIndex i row).

Definition getBinaryRow (i : Z) (row : option Row) (t : Table) : result Row :=
  let row := default (newRow i true) row in
  if boundsGuard i t then Throw (Thrown "ERROR: Index out of bounds!")
  else Ok (setIndex i row).

End Build.

(** *** Iteration

    [forEach] and the iterator create one [Row] object and hand the same
    object to every callback invocation.  Row objects live in a store
    ([twRows]) and are passed by reference (their position in it); the
    callback runs on the whole state, so it may move the row or grow the
    table. *)
Record TableWorld (A : Type) : Type :=
  { twTable : Table; twRows : list Row; twUser : A }.

Arguments twTable {A} _.
Arguments twRows {A} _.
Arguments twUser {A} _.

Definition RowRef : Type := nat.

Definition allocRow {A} (row : Row) (w : TableWorld A) : RowRef * TableWorld A :=
  (length (twRows w),
   {| twTable := twTable w; twRows := twRows w ++ [row]; twUser := twUser w |}).

(** [row.index = i] on the referenced object. *)
Definition storeIndex {A} (ref : RowRef) (i : Z) (w : TableWorld A) : TableWorld A :=
  {| twTable := twTable w;
     twRows := alter (setIndex i) ref (twRows w);
     twUser := twUser w |}.

Definition loadIndex {A} (ref : RowRef) (w : TableWorld A) : option Z :=
  index <$> twRows w !! ref.

Definition Callback (A : Type) : Type := RowRef -> Z -> TableWorld A -> TableWorld A.

Definition forEach {A} (itr : Callback A) (w : TableWorld A) : TableWorld A :=
  let '(row, w) := allocRow (newRow 0 false) w in
  let w := itr row 0 w in
  let n := Table_rowCount (twTable w) in
  foldl (fun w i => itr row i (storeIndex row i w)) w (seqZ 1 (n - 1)).

Record Iterator : Type := { it_i : Z; it_n : Z; it_row : RowRef }.

(** [table[Symbol.iterator]()] *)
Definition iterator {A} (w : TableWorld A) : Iterator * TableWorld A :=
  let n := Table_rowCount (twTable w) in
  let '(row, w) := allocRow (newRow 0 false) w in
  ({| it_i := 0; it_n := n; it_row := row |}, w).

(** [next()]: [Some row] for [{value: row, done: false}], [None] for
    [{value: undefined, done: true}]. *)
Definition next {A} (it : Iterator) (w : TableWorld A)
  : option RowRef * Iterator * TableWorld A :=
  if it_i it <? it_n it then
    (Some (it_row it),
     {| it_i := it_i it + 1; it_n := it_n it; it_row := it_row it |},
     storeIndex (it_row it) (it_i it) w)
  else (None, it, w).

(** [for (const row of table) body(row)]: calls [next] until it is done. *)
Fixpoint forOf {A} (fuel : nat) (body : RowRef -> TableWorld A -> TableWorld A)
  (it : Iterator) (w : TableWorld A) : option (TableWorld A) :=
  match fuel with
  | O => None
  | S fuel' =>
      match next it w with
      | (Some row, it', w') => forOf fuel' body it' (body row w')
      | (None, _, w') => Some w'
      end
  end.

(** ** Filter expressions *)

(** Modelled from the spec: [src/data/filter/FilterOperation.js] is not
    part of the sources.  The ten operations, and [other] for any value
    of [rule.operation] that is none of them. *)
Module FilterOperation.
Inductive t : Type :=
| contains | notContains | in_ | notIn | equal | notEqual
| greaterThan | greaterThanOrEqual | lessThan | lessThanOrEqual
| other (operation : string).
End FilterOperation.

(** Modelled from the spec: [src/data/filter/FilterExpressionMode.js] is
    not part of the sources.  The two spellings of each mode that the
    processor compares against, and [other] for any other value. *)
Module FilterExpressionMode.
Inductive t : Type :=
| DNF | disjunctiveNormalForm | CNF | conjunctiveNormalForm
| other (mode : string).
End FilterExpressionMode.

(** [mode === FilterExpressionMode.DNF ||
     mode === FilterExpressionMode.disjunctiveNormalForm] *)
Definition modeIsDNF (mode : FilterExpressionMode.t) : bool :=
  match mode with
  | FilterExpressionMode.DNF | FilterExpressionMode.disjunctiveNormalForm => true
  | _ => false
  end.

(** [rule.value]: a string, or an array of strings. *)
Inductive RuleValue : Type :=
| Scalar (s : string)
| Array (l : list string).

(** The string a rule value is read as where a string is expected
    ([Array.prototype.toString] joins with commas). *)
Definition valueToString (v : RuleValue) : string :=
  match v with
  | Scalar s => s
  | Array l => String.concat "," l
  end.

Record FilterRule : Type :=
  { field : string; operation : FilterOperation.t; value : RuleValue }.

Definition FilterClause : Type := list FilterRule.

(** [None] is an absent ([undefined] or [null]) expression. *)
Definition FilterExpression : Type := option (list FilterClause).

(** [description[i].as].  The writer looks at its truthiness and, when it
    is truthy, uses it as a property name.  A value is here a string, or
    one of the falsy values that are not strings: [undefined], which an
    absent property reads as, [null], [false], a zero ([0], [-0] or
    [0n]) and NaN.  A truthy value that is not a string names the
    column its conversion to a property name names, and stands here as
    that string. *)
Inductive AsValue : Type :=
| asAbsent
| asNull
| asFalse
| asZero
| asNaN
| asString (s : string).

Record ResultDescriptionEntry : Type :=
  { column : string; as_ : AsValue }.

(** Truthiness of [description[i].as]. *)
Definition truthy (a : AsValue) : bool :=
  match a with
  | asString s => negb (String.eqb s "")
  | _ => false
  end.

(** The property name a truthy [as] is. *)
Definition asKey (a : AsValue) : string :=
  match a with
  | asString s => s
  | _ => EmptyString
  end.

(** ** The state a scan runs on *)

(** The processor's table and row cursor ([this.mTable], [this.mRow]), the
    result table and the cursor [_generateResultWriter] creates on it, and
    element 0 of the shared [indices] array.

    [visited] and [written] are history variables, not program state:
    the row indices the scan has positioned the source cursor on, and the
    row indices the result writer has been called with, oldest first.
    Nothing reads them. *)
Record World : Type :=
  { mTable : Table; mRow : Row;
    resultTable : Table; resultRow : Row;
    indices0 : Z;
    visited : list Z; written : list Z }.

(** [row.index = r] on the source cursor. *)
Definition withRow (row : Row) (w : World) : World :=
  {| mTable := mTable w; mRow := row;
     resultTable := resultTable w; resultRow := resultRow w;
     indices0 := indices0 w;
     visited := visited w; written := written w |}.

Definition withResult (t : Table) (row : Row) (w : World) : World :=
  {| mTable := mTable w; mRow := mRow w;
     resultTable := t; resultRow := row;
     indices0 := indices0 w;
     visited := visited w; written := written w |}.

Definition withIndices0 (z : Z) (w : World) : World :=
  {| mTable := mTable w; mRow := mRow w;
     resultTable := resultTable w; resultRow := resultRow w;
     indices0 := z;
     visited := visited w; written := written w |}.

Definition noteVisited (r : Z) (w : World) : World :=
  {| mTable := mTable w; mRow := mRow w;
     resultTable := resultTable w; resultRow := resultRow w;
     indices0 := indices0 w;
     visited := visited w ++ [r]; written := written w |}.

Definition noteWritten (r : Z) (w : World) : World :=
  {| mTable := mTable w; mRow := mRow w;
     resultTable := resultTable w; resultRow := resultRow w;
     indices0 := indices0 w;
     visited := visited w; written := written w ++ [r] |}.

(** Modelled from the spec: [src/core/Atomize.js] is not part of the
    sources.  [Atomize.add(indices, 0, value)] is an atomic fetch-and-add
    on a [Uint32Array] element: it returns the prior value. *)
Definition Atomize_add (v : Z) (w : World) : Z * World :=
  (indices0 w, withIndices0 (toUint32 (indices0 w + v)) w).

(** [row.accessors[row.names[name]]]: the position of the accessor, or
    the TypeError of reading [.getter] / [.setter] of [undefined]. *)
Definition accessor (t : Table) (name : string) : result nat :=
  match names t !! name with
  | Some k => Ok k
  | None => Throw (TypeError "Cannot read properties of undefined")
  end.

(** The getter of column [k] of the source row cursor and the setter of
    column [k] of the result row cursor: both follow the cursor's current
    [index]. *)
Definition getter (k : nat) (w : World) : JsValue :=
  getCell (mTable w) (index (mRow w)) k.

Definition setter (k : nat) (v : JsValue) (w : World) : World :=
  withResult (setCell (resultTable w) (index (resultRow w)) k v) (resultRow w) w.

(** ** Rule testers *)

Definition Tester : Type := World -> result bool.

Definition call_containsCase (v : JsValue) (value : ByteString) : result bool :=
  match v with
  | VByteString s => Ok (containsCase s value)
  | VNum _ => Throw (TypeError "getter(...).containsCase is not a function")
  end.

Definition call_equalsCase (v : JsValue) (value : ByteString) : result bool :=
  match v with
  | VByteString s => Ok (equalsCase s value)
  | VNum _ => Throw (TypeError "equalsCase is not a function")
  end.

(** [v === x] for a number [x]. *)
Definition strictEquals (v : JsValue) (x : float) : bool :=
  match v with
  | VNum a => PrimFloat.eqb a x
  | VByteString _ => false
  end.

(** [rule.value.map(f)]: only arrays have [map]. *)
Definition value_map {B} (f : string -> B) (v : RuleValue) : result (list B) :=
  match v with
  | Array l => Ok (map f l)
  | Scalar _ => Throw (TypeError "rule.value.map is not a function")
  end.

Fixpoint filterIn_ByteString (toTest : JsValue) (values : list ByteString) : result bool :=
  match values with
  | [] => Ok false
  | v :: values' =>
      match call_equalsCase toTest v with
      | Ok true => Ok true
      | Ok false => filterIn_ByteString toTest values'
      | Throw e => Throw e
      end
  end.

Fixpoint filterIn_number (toTest : JsValue) (values : list float) : bool :=
  match values with
  | [] => false
  | v :: values' => if strictEquals toTest v then true else filterIn_number toTest values'
  end.

Fixpoint filterNotIn_ByteString (toTest : JsValue) (values : list ByteString) : result bool :=
  match values with
  | [] => Ok true
  | v :: values' =>
      match call_equalsCase toTest v with
      | Ok true => Ok false
      | Ok false => filterNotIn_ByteString toTest values'
      | Throw e => Throw e
      end
  end.

Fixpoint filterNotIn_number (toTest : JsValue) (values : list float) : bool :=
  match values with
  | [] => true
  | v :: values' => if strictEquals toTest v then false else filterNotIn_number toTest values'
  end.

Definition columnIsByteString (t : Table) (k : nat) : result bool :=
  match columns (header t) !! k with
  | Some c => Ok (ColumnType_eqb (type c) ByteStringType)
  | None => Throw (TypeError "Cannot read properties of undefined (reading 'type')")
  end.

(** ** FilterProcessor ([src/data/filter/FilterProcessor.js]) *)

Section Processor.

Variable _DEBUG : bool.

(** The number a ByteString object converts to when it is an operand of
    [<], [<=], [>], [>=] ([ByteString.js] is not part of the sources, so
    its conversion is left open). *)
Variable ByteString_toNumber : ByteString -> float.

Definition toNumber (v : JsValue) : float :=
  match v with
  | VNum a => a
  | VByteString s => ByteString_toNumber s
  end.

Definition _generateRuleTester (tbl : Table) (rule : FilterRule) : result (option Tester) :=
  k ← accessor tbl (field rule);
  match operation rule with
  | FilterOperation.contains =>
      let v := ByteString_fromString (valueToString (value rule)) in
      Ok (Some (fun w => call_containsCase (getter k w) v))
  | FilterOperation.notContains =>
      let v := ByteString_fromString (valueToString (value rule)) in
      Ok (Some (fun w => negb <$> call_containsCase (getter k w) v))
  | FilterOperation.in_ =>
      isText ← columnIsByteString tbl k;
      if isText : bool then
        values ← value_map ByteString_fromString (value rule);
        Ok (Some (fun w => filterIn_ByteString (getter k w) values))
      else
        values ← value_map parseFloat (value rule);
        Ok (Some (fun w => Ok (filterIn_number (getter k w) values)))
  | FilterOperation.notIn =>
      isText ← columnIsByteString tbl k;
      if isText : bool then
        values ← value_map ByteString_fromString (value rule);
        Ok (Some (fun w => filterNotIn_ByteString (getter k w) values))
      else
        values ← value_map parseFloat (value rule);
        Ok (Some (fun w => Ok (filterNotIn_number (getter k w) values)))
  | FilterOperation.equal =>
      isText ← columnIsByteString tbl k;
      if isText : bool then
        let v := ByteString_fromString (valueToString (value rule)) in
        Ok (Some (fun w => call_equalsCase (getter k w) v))
      else
        let v := parseFloat (valueToString (value rule)) in
        Ok (Some (fun w => Ok (strictEquals (getter k w) v)))
  | FilterOperation.notEqual =>
      isText ← columnIsByteString tbl k;
      if isText : bool then
        let v := ByteString_fromString (valueToString (value rule)) in
        Ok (Some (fun w => negb <$> call_equalsCase (getter k w) v))
      else
        let v := parseFloat (valueToString (value rule)) in
        Ok (Some (fun w => Ok (negb (strictEquals (getter k w) v))))
  | FilterOperation.greaterThan =>
      let v := parseFloat (valueToString (value rule)) in
      Ok (Some (fun w => Ok (PrimFloat.ltb v (toNumber (getter k w)))))
  | FilterOperation.greaterThanOrEqual =>
      let v := parseFloat (valueToString (value rule)) in
      Ok (Some (fun w => Ok (PrimFloat.leb v (toNumber (getter k w)))))
  | FilterOperation.lessThan =>
      let v := parseFloat (valueToString (value rule)) in
      Ok (Some (fun w => Ok (PrimFloat.ltb (toNumber (getter k w)) v)))
  | FilterOperation.lessThanOrEqual =>
      let v := parseFloat (valueToString (value rule)) in
      Ok (Some (fun w => Ok (PrimFloat.leb (toNumber (getter k w)) v)))
  | FilterOperation.other _ => Ok None
  end.

(** [testers[i]()]: calling [null] is a TypeError. *)
Definition callTester (t : option Tester) : Tester :=
  match t with
  | Some f => f
  | None => fun _ => Throw (TypeError "testers[i] is not a function")
  end.

Fixpoint ruleTesterDNF (testers : list (option Tester)) (w : World) : result bool :=
  match testers with
  | [] => Ok true
  | t :: testers' =>
      match callTester t w with
      | Ok true => ruleTesterDNF testers' w
      | Ok false => Ok false
      | Throw e => Throw e
      end
  end.

Fixpoint ruleTesterCNF (testers : list (option Tester)) (w : World) : result bool :=
  match testers with
  | [] => Ok false
  | t :: testers' =>
      match callTester t w with
      | Ok true => Ok true
      | Ok false => ruleTesterCNF testers' w
      | Throw e => Throw e
      end
  end.

Definition _generateClauseTester (tbl : Table) (mode : FilterExpressionMode.t)
  (clause : FilterClause) : result Tester :=
  testers ← forPush (_generateRuleTester tbl) clause;
  if modeIsDNF mode then Ok (ruleTesterDNF testers)
  else Ok (ruleTesterCNF testers).

Fixpoint filterTesterDNF (testers : list Tester) (w : World) : result bool :=
  match testers with
  | [] => Ok false
  | t :: testers' =>
      match t w with
      | Ok true => Ok true
      | Ok false => filterTesterDNF testers' w
      | Throw e => Throw e
      end
  end.

Fixpoint filterTesterCNF (testers : list Tester) (w : World) : result bool :=
  match testers with
  | [] => Ok true
  | t :: testers' =>
      match t w with
      | Ok true => filterTesterCNF testers' w
      | Ok false => Ok false
      | Throw e => Throw e
      end
  end.

Definition filterTesterEmpty : Tester := fun _ => Ok true.

Definition _generateExpressionTester (tbl : Table) (expression : FilterExpression)
  (mode : FilterExpressionMode.t) : result Tester :=
  match expression with
  | None | Some [] => Ok filterTesterEmpty
  | Some clauses =>
      testers ← forPush (_generateClauseTester tbl mode) clauses;
      if modeIsDNF mode then Ok (filterTesterDNF testers)
      else Ok (filterTesterCNF testers)
  end.

(** *** The result writer *)

Definition FieldWriter : Type := Z -> World -> World.

Definition resultWriterField (k k' : nat) : FieldWriter :=
  fun _ w => setter k' (getter k w) w.

Definition resultWriterRowIndex (k' : nat) : FieldWriter :=
  fun i w => setter k' (VNum (Z2float i)) w.

(** One turn of the loop over [description]: the writer it pushes. *)
Definition generateFieldWriter (src res : Table) (d : ResultDescriptionEntry)
  : result FieldWriter :=
  if truthy (as_ d) then
    k ← accessor src (column d);
    k' ← accessor res (asKey (as_ d));
    Ok (resultWriterField k k')
  else
    k' ← accessor res "";
    Ok (resultWriterRowIndex k').

Definition resultWriter (writers : list FieldWriter) (i : Z) (w : World) : World :=
  let '(old, t) := addRows 1 (resultTable w) in
  let w := withResult t (setIndex old (resultRow w)) (noteWritten i w) in
  foldl (fun w writer => writer i w) w writers.

(** Returns the writer and the state with the result row cursor it
    created. *)
Definition _generateResultWriter (description : list ResultDescriptionEntry)
  (w : World) : result ((Z -> World -> World) * World) :=
  row ← getRow _DEBUG 0 None (resultTable w);
  let w := withResult (resultTable w) row w in
  writers ← forPush (generateFieldWriter (mTable w) (resultTable w)) description;
  Ok (resultWriter writers, w).

(** *** The scan loop *)

Record Config : Type :=
  { rules : FilterExpression;
    mode : FilterExpressionMode.t;
    resultDescription : list ResultDescriptionEntry;
    rowBatchSize : Z }.

(** The body of the inner loop for one [r]. *)
Definition visitRow (filterTester : Tester) (writer : Z -> World -> World)
  (r : Z) (w : World) : result World :=
  let w := withRow (setIndex r (mRow w)) (noteVisited r w) in
  match filterTester w with
  | Ok true => Ok (writer r w)
  | Ok false => Ok w
  | Throw e => Throw e
  end.

(** [for (r = i; r < n; ++r)], over the indices it goes through. *)
Fixpoint visitRows (filterTester : Tester) (writer : Z -> World -> World)
  (rs : list Z) (w : World) : result World :=
  match rs with
  | [] => Ok w
  | r :: rs' =>
      match visitRow filterTester writer r w with
      | Ok w' => visitRows filterTester writer rs' w'
      | Throw e => Throw e
      end
  end.

(** The outer loop: one unit of fuel per claim. *)
Fixpoint scanLoop (fuel : nat) (filterTester : Tester) (writer : Z -> World -> World)
  (rowCount batchSize : Z) (w : World) : option (result World) :=
  match fuel with
  | O => None
  | S fuel' =>
      let '(i, w) := Atomize_add batchSize w in
      if i <? rowCount then
        let n := Z.min (i + batchSize) rowCount in
        match visitRows filterTester writer (seqZ i (n - i)) w with
        | Ok w' => scanLoop fuel' filterTester writer rowCount batchSize w'
        | Throw e => Some (Throw e)
        end
      else Some (Ok w)
  end.

Definition process (fuel : nat) (config : Config) (w : World) : option (result World) :=
  let batchSize := rowBatchSize config in
  let rowCount := Table_rowCount (mTable w) in
  match _generateExpressionTester (mTable w) (rules config) (mode config) with
  | Throw e => Some (Throw e)
  | Ok filterTester =>
      match _generateResultWriter (resultDescription config) w with
      | Throw e => Some (Throw e)
      | Ok (writer, w) => scanLoop fuel filterTester writer rowCount batchSize w
      end
  end.

End Processor.

(** ** The filter worker ([filterWorkerOnMessage]) *)

(** What the worker posts to its owner. [sendSuccess()] is only called
    without data. *)
Inductive Reply : Type :=
| success
| error (reason : string).

(** The processor object: [this.mTable] and [this.mRow]. *)
Record FilterProcessor : Type := { p_mTable : Table; p_mRow : Row }.

(** The shared memory the descriptors of a [processFilters] message point
    into: the result table and element 0 of the indices block. *)
Record Shared : Type := { sResultTable : Table; sIndices0 : Z }.

(** The worker: its module variable [gProcessor], the messages posted so
    far (latest last) and the shared memory. *)
Record Worker : Type :=
  { gProcessor : option FilterProcessor; posted : list Reply; shared : Shared }.

Inductive Message : Type :=
| initialize (table : Table)
| processFilters (options : Config)
| unrecognized (type : string).

Definition sendError (reason : string) (st : Worker) : Worker :=
  {| gProcessor := gProcessor st;
     posted := posted st ++ [error reason];
     shared := shared st |}.

Definition sendSuccess (st : Worker) : Worker :=
  {| gProcessor := gProcessor st;
     posted := posted st ++ [success];
     shared := shared st |}.

Definition quote : string := String (ascii_of_nat 34) EmptyString.

Definition worldOf (p : FilterProcessor) (m : Shared) : World :=
  {| mTable := p_mTable p; mRow := p_mRow p;
     resultTable := sResultTable m; resultRow := newRow 0 false;
     indices0 := sIndices0 m;
     visited := []; written := [] |}.

Definition workerOf (w : World) (st : Worker) : Worker :=
  {| gProcessor := Some {| p_mTable := mTable w; p_mRow := mRow w |};
     posted := posted st;
     shared := {| sResultTable := resultTable w; sIndices0 := indices0 w |} |}.

Inductive Handled : Type :=
| Returned (st : Worker)
| Uncaught (e : JsError) (replies : list Reply).

Section Worker.

Variable _DEBUG : bool.
Variable ByteString_toNumber : ByteString -> float.

(** [new FilterProcessor(config)]: [deserializeTable] (not part of the
    sources) rebuilds the table view from its descriptor; here the message
    carries the table. *)
Definition new_FilterProcessor (table : Table) : result FilterProcessor :=
  row ← getBinaryRow _DEBUG 0 None table;
  Ok {| p_mTable := table; p_mRow := row |}.

(** The handler run on one message.  [None]: the scan did not finish
    within the fuel.  [Some (Uncaught e replies)]: an exception left the
    handler (nothing in the worker catches it); [replies] is what the
    worker had posted when it did.  [Some (Returned st)]: the handler
    returned. *)
Definition filterWorkerOnMessage (fuel : nat) (message : Message) (st : Worker)
  : option Handled :=
  match message with
  | initialize table =>
      match gProcessor st with
      | Some _ => Some (Returned (sendError "ERROR: Worker is already initialized!" st))
      | None =>
          match new_FilterProcessor table with
          | Ok p =>
              Some (Returned (sendSuccess {| gProcessor := Some p;
                                             posted := posted st;
                                             shared := shared st |}))
          | Throw e => Some (Uncaught e (posted st))
          end
      end
  | processFilters options =>
      match gProcessor st with
      | Some p =>
          match process _DEBUG ByteString_toNumber fuel options (worldOf p (shared st)) with
          | Some (Ok w) => Some (Returned (sendSuccess (workerOf w st)))
          | Some (Throw e) => Some (Uncaught e (posted st))
          | None => None
          end
      | None =>
          Some (Returned (sendError "ERROR: Filter.worker has not been initialized" st))
      end
  | unrecognized type =>
      Some (Returned (sendError
        ("ERROR: Unrecognized message type " +:+ quote +:+ type +:+ quote) st))
  end.

(** The handler run on a sequence of messages, as long as it returns. *)
Fixpoint handleAll (fuel : nat) (messages : list Message) (st : Worker)
  : option Handled :=
  match messages with
  | [] => Some (Returned st)
  | m :: messages' =>
      match filterWorkerOnMessage fuel m st with
      | Some (Returned st') => handleAll fuel messages' st'
      | other => other
      end
  end.

End Worker.

(** ** Fixtures *)

(** A stand-in for the conversion of ByteString objects to numbers. *)
Definition toNumberNaN : ByteString -> float := fun _ => nan.

(** Modelled from the spec: the writes of the column types (sections 4.2
    and 6), for the columns of the fixture tables.  The numeric types
    convert as the [DataView] setters of ECMAScript do: an integer
    column holds the number truncated toward zero (0 for NaN and the
    infinities) and reduced modulo its width, a Float32 column holds the
    nearest binary32.  A ByteString written to a numeric column is
    converted to a number first, here by [toNumberNaN].  A text column
    keeps a ByteString (the fixture columns are wide enough for theirs)
    and holds the empty one after a number was written to it. *)
Definition truncate (x : float) : Z :=
  match Prim2SF x with
  | S754_finite s m e =>
      let a := if 0 <=? e then Zpos m * 2 ^ e else Zpos m / 2 ^ (- e) in
      if s then - a else a
  | _ => 0
  end.

Definition wrapTo (T : ColumnType) (z : Z) : Z :=
  match T with
  | Uint8 => z mod 2 ^ 8
  | Uint16 => z mod 2 ^ 16
  | Uint32 => z mod 2 ^ 32
  | Int8 => (z + 2 ^ 7) mod 2 ^ 8 - 2 ^ 7
  | Int16 => (z + 2 ^ 15) mod 2 ^ 16 - 2 ^ 15
  | Int32 => (z + 2 ^ 31) mod 2 ^ 32 - 2 ^ 31
  | Float32 | ByteStringType => z
  end.

Definition fround (x : float) : float :=
  match Prim2SF x with
  | S754_finite s m e =>
      SF2Prim (binary_normalize 24 128 (if s then Zneg m else Zpos m) e s)
  | _ => x
  end.

Definition typedStore (cols : list Column) (c : nat) (v : JsValue) : JsValue :=
  let x := match v with VNum x => x | VByteString s => toNumberNaN s end in
  match type <$> cols !! c with
  | Some ByteStringType =>
      match v with
      | VByteString _ => v
      | VNum _ => VByteString EmptyString
      end
  | Some Float32 => VNum (fround x)
  | Some T => VNum (Z2float (wrapTo T (truncate x)))
  | None => v
  end.

Definition mkTable (cols : list Column) (n : Z) (data : Z -> nat -> JsValue) : Table :=
  {| header := {| columns := cols; rowCount := n |}; cells := data;
     stored := typedStore cols |}.

(** A table with one Uint32 column [id] and [n] rows, row [r] holding [r]. *)
Definition idTable (n : Z) : Table :=
  mkTable [ {| name := "id"; type := Uint32 |} ] n (fun r _ => VNum (Z2float r)).

(** An empty result table with the columns [id] and the empty-named row
    index column. *)
Definition emptyResult : Table :=
  mkTable [ {| name := "id"; type := Uint32 |}; {| name := EmptyString; type := Uint32 |} ]
          0 (fun _ _ => VNum zero).

(** The callback that records what it is called with: the row object, the
    index that object holds at the call, and the index argument. *)
Definition logCall : Callback (list (RowRef * option Z * Z)) :=
  fun row i w =>
    {| twTable := twTable w; twRows := twRows w;
       twUser := twUser w ++ [(row, loadIndex row w, i)] |}.

(** A callback that, besides recording, adds [k] rows to the table on its
    first call. *)
Definition growAndLog (k : Z) : Callback (list (RowRef * option Z * Z)) :=
  fun row i w =>
    let t := if i =? 0 then snd (addRows k (twTable w)) else twTable w in
    {| twTable := t; twRows := twRows w;
       twUser := twUser w ++ [(row, loadIndex row w, i)] |}.

(** The loop body that records the rows an iterator yields. *)
Definition logYield (row : RowRef) (w : TableWorld (list (RowRef * option Z)))
  : TableWorld (list (RowRef * option Z)) :=
  {| twTable := twTable w; twRows := twRows w;
     twUser := twUser w ++ [(row, loadIndex row w)] |}.

(** The table of scenario S1: [(1, Ada), (2, Bob), (3, Cid)]. *)
Definition peopleTable : Table :=
  mkTable [ {| name := "id"; type := Uint32 |}; {| name := "name"; type := ByteStringType |} ]
    3
    (fun r c =>
       match c with
       | O => VNum (Z2float (r + 1))
       | _ => VByteString (if r =? 0 then "Ada" else if r =? 1 then "Bob" else "Cid")
       end).

(** A scan state on [src] and [res] with the source cursor on row [r]. *)
Definition worldAt (src res : Table) (r : Z) : World :=
  {| mTable := src; mRow := newRow r true;
     resultTable := res; resultRow := newRow 0 false;
     indices0 := 0; visited := []; written := [] |}.

Definition mkRule (f : string) (op : FilterOperation.t) (v : string) : FilterRule :=
  {| field := f; operation := op; value := Scalar v |}.

(** The expression of scenario S2 (DNF) and that of S3 (CNF). *)
Definition S2_expression : list FilterClause :=
  [ [ mkRule "id" FilterOperation.equal "1" ];
    [ mkRule "name" FilterOperation.contains "c" ] ].

Definition S3_expression : list FilterClause :=
  [ [ mkRule "id" FilterOperation.greaterThan "1" ];
    [ mkRule "name" FilterOperation.notContains "b" ] ].

Definition testerOf (tbl : Table) (clauses : list FilterClause)
  (mode : FilterExpressionMode.t) : Tester :=
  match _generateExpressionTester toNumberNaN tbl (Some clauses) mode with
  | Ok t => t
  | Throw _ => filterTesterEmpty
  end.

(** A rule whose operation is none of the ten. *)
Definition bogusRule : FilterRule := mkRule "id" (FilterOperation.other "between") "1".

Definition bogusFirst : list FilterClause :=
  [ [ bogusRule ]; [ mkRule "id" FilterOperation.equal "1" ] ].

(** The result description of scenario S6: the [id] column and the
    source row index. *)
Definition S6_description : list ResultDescriptionEntry :=
  [ {| column := "id"; as_ := asString "id" |};
    {| column := EmptyString; as_ := asAbsent |} ].

(** A description whose only entry has an empty [as]. *)
Definition emptyAs_description : list ResultDescriptionEntry :=
  [ {| column := "id"; as_ := asString EmptyString |} ].

(** The writer compiled for a description in a build without [_DEBUG],
    and the state that compilation leaves. *)
Definition writerOf (description : list ResultDescriptionEntry) (w : World)
  : Z -> World -> World :=
  match _generateResultWriter false description w with
  | Ok (writer, _) => writer
  | Throw _ => fun _ w => w
  end.

Definition readyWorld (description : list ResultDescriptionEntry) (w : World) : World :=
  match _generateResultWriter false description w with
  | Ok (_, w0) => w0
  | Throw _ => w
  end.

(** The rule and the configuration of scenario S4, with batch size [b]. *)
Definition S4_rule : FilterRule :=
  {| field := "id"; operation := FilterOperation.in_;
     value := Array ["7"; "42"; "999"; "1000"] |}.

Definition S4_config (b : Z) : Config :=
  {| rules := Some [[S4_rule]]; mode := FilterExpressionMode.DNF;
     resultDescription := S6_description; rowBatchSize := b |}.

Definition S4_values : list float := [7%float; 42%float; 999%float; 1000%float].

Definition S4_test (r : Z) : bool := filterIn_number (VNum (Z2float r)) S4_values.

(** What a finished scan leaves: the rows visited, the rows written, and
    the first [k] rows of the result table, columns 0 and 1. *)
Definition resultRows (k : nat) (w : World) : list (JsValue * JsValue) :=
  map (fun r => (getCell (resultTable w) r 0, getCell (resultTable w) r 1))
      (seqZ 0 (Z.of_nat k)).

Definition scanSummary (o : option (result World))
  : option (list Z * list Z * Z) :=
  match o with
  | Some (Ok w) => Some (visited w, written w, Table_rowCount (resultTable w))
  | _ => None
  end.

(** A scan of every row with a batch size just above [2^32]. *)
Definition wrapping_config : Config :=
  {| rules := None; mode := FilterExpressionMode.DNF;
     resultDescription := S6_description; rowBatchSize := 4294967297 |}.

(** A scan of every row with a batch size of exactly [2^32]. *)
Definition stuck_config : Config :=
  {| rules := None; mode := FilterExpressionMode.DNF;
     resultDescription := S6_description; rowBatchSize := 4294967296 |}.

(** A worker before any message, sharing an empty result table. *)
Definition freshWorker : Worker :=
  {| gProcessor := None; posted := [];
     shared := {| sResultTable := emptyResult; sIndices0 := 0 |} |}.

(** The worker after [initialize] with the three-row id table. *)
Definition initializedWorker : Worker :=
  {| gProcessor := Some {| p_mTable := idTable 3; p_mRow := newRow 0 true |};
     posted := [success];
     shared := {| sResultTable := emptyResult; sIndices0 := 0 |} |}.

Definition bogus_config : Config :=
  {| rules := Some [[bogusRule]]; mode := FilterExpressionMode.DNF;
     resultDescription := S6_description; rowBatchSize := 2 |}.

(** A rule on a column the table does not have. *)
Definition missingColumn_config : Config :=
  {| rules := Some [[ mkRule "age" FilterOperation.equal "1" ]];
     mode := FilterExpressionMode.DNF;
     resultDescription := S6_description; rowBatchSize := 2 |}.

Definition everyRow_config (b : Z) : Config :=
  {| rules := None; mode := FilterExpressionMode.DNF;
     resultDescription := S6_description; rowBatchSize := b |}.

(** ** Notions used in the statements *)

(** A callback records its calls when it appends what it was called with
    to the log and leaves the row objects alone. *)
Definition recording (itr : Callback (list (RowRef * option Z * Z))) : Prop :=
  forall ref i w,
    twUser (itr ref i w) = twUser w ++ [(ref, loadIndex ref w, i)] /\
    twRows (itr ref i w) = twRows w.

(** The two shapes of aggregating loop: [allLoop] returns false at the
    first element that is false, [anyLoop] true at the first that is
    true. *)
Section LoopDefinitions.

Context {A B : Type}.
Variable f : A -> result B.
Variable call : B -> World -> result bool.

Fixpoint allLoop (bs : list B) (w : World) : result bool :=
  match bs with
  | [] => Ok true
  | b :: bs' =>
      match call b w with
      | Ok true => allLoop bs' w
      | Ok false => Ok false
      | Throw e => Throw e
      end
  end.

Fixpoint anyLoop (bs : list B) (w : World) : result bool :=
  match bs with
  | [] => Ok false
  | b :: bs' =>
      match call b w with
      | Ok true => Ok true
      | Ok false => anyLoop bs' w
      | Throw e => Throw e
      end
  end.

(** What the element compiled from [a] returns on [w]. *)
Definition outcome (a : A) (w : World) : result bool :=
  match f a with
  | Ok b => call b w
  | Throw e => Throw e
  end.

End LoopDefinitions.

Section TesterDefinitions.

Variable ByteString_toNumber : ByteString -> float.

(** What the tester compiled from a rule returns on the row the cursor is
    on; the rule is true for the row when this is [Ok true]. *)
Definition ruleResult (tbl : Table) (rule : FilterRule) (w : World) : result bool :=
  outcome (_generateRuleTester ByteString_toNumber tbl) callTester rule w.

Definition clauseResult (tbl : Table) (mode : FilterExpressionMode.t)
  (clause : FilterClause) (w : World) : result bool :=
  outcome (_generateClauseTester ByteString_toNumber tbl mode) (fun t => t) clause w.

(** The normal-form reading of an expression: in DNF some clause has all
    of its rules true, in CNF every clause has a rule that is true. *)
Definition normalForm (tbl : Table) (mode : FilterExpressionMode.t)
  (clauses : list FilterClause) (w : World) : Prop :=
  if modeIsDNF mode then
    exists c, In c clauses /\ forall r, In r c -> ruleResult tbl r w = Ok true
  else
    forall c, In c clauses -> exists r, In r c /\ ruleResult tbl r w = Ok true.

End TesterDefinitions.

(** What a compiled field writer may touch: one cell of the result table,
    at the result cursor's row. *)
Definition writesOneCell (fw : FieldWriter) : Prop :=
  forall i w, exists k v,
    fw i w = withResult (setCell (resultTable w) (index (resultRow w)) k v) (resultRow w) w.

(** The part of the state the field writers leave alone. *)
Definition sameFrame (w w' : World) : Prop :=
  mTable w' = mTable w /\ mRow w' = mRow w /\ indices0 w' = indices0 w /\
  visited w' = visited w /\ written w' = written w /\
  resultRow w' = resultRow w /\ header (resultTable w') = header (resultTable w).

(** A result description entry read as the specification words it: an
    entry whose [as] is present and not empty copies the source column
    [column] of the row the source cursor is on into the result column
    [as]; any other entry stores the source row index into the column
    named by the empty string.  Names are resolved in [src] and [res]. *)
Definition storeByName (res : Table) (column_name : string) (v : JsValue) (w : World) : World :=
  match names res !! column_name with
  | Some k' => withResult (setCell (resultTable w) (index (resultRow w)) k' v) (resultRow w) w
  | None => w
  end.

Definition entryEffect (src res : Table) (i : Z) (w : World) (d : ResultDescriptionEntry)
  : World :=
  match as_ d with
  | asString a =>
      if String.eqb a EmptyString then storeByName res EmptyString (VNum (Z2float i)) w
      else
        match names src !! column d with
        | Some k => storeByName res a (getCell (mTable w) (index (mRow w)) k) w
        | None => w
        end
  | _ => storeByName res EmptyString (VNum (Z2float i)) w
  end.

(** The tester compiled for the S4 expression when [id] is column [k]. *)
Definition S4_tester (k : nat) : Tester :=
  filterTesterDNF
    [ ruleTesterDNF [ Some (fun w => Ok (filterIn_number (getter k w) S4_values)) ] ].

(** ** Notions used in the further properties *)

(** The rule with its operation replaced. *)
Definition withOperation (op : FilterOperation.t) (rule : FilterRule) : FilterRule :=
  {| field := field rule; operation := op; value := value rule |}.

(** What the tester compiled from a non-empty expression returns on the
    row the cursor is on, or the error of its compilation. *)
Definition expressionResult (toNum : ByteString -> float) (tbl : Table)
  (mode : FilterExpressionMode.t) (clauses : list FilterClause) (w : World) : result bool :=
  outcome (fun E => _generateExpressionTester toNum tbl (Some E) mode) (fun t => t) clauses w.

(** The complement of an operation, for the three pairs that have one. *)
Definition negateOperation (op : FilterOperation.t) : FilterOperation.t :=
  match op with
  | FilterOperation.contains => FilterOperation.notContains
  | FilterOperation.notContains => FilterOperation.contains
  | FilterOperation.in_ => FilterOperation.notIn
  | FilterOperation.notIn => FilterOperation.in_
  | FilterOperation.equal => FilterOperation.notEqual
  | FilterOperation.notEqual => FilterOperation.equal
  | other => other
  end.

Definition hasComplement (op : FilterOperation.t) : bool :=
  match op with
  | FilterOperation.contains | FilterOperation.notContains
  | FilterOperation.in_ | FilterOperation.notIn
  | FilterOperation.equal | FilterOperation.notEqual => true
  | _ => false
  end.

(** The De Morgan dual of an expression: every rule negated, to be read
    in the other mode. *)
Definition dualExpression (clauses : list FilterClause) : list FilterClause :=
  map (map (fun r => withOperation (negateOperation (operation r)) r)) clauses.

(** The result column a description entry writes, and the value it
    writes when the writer is called with [i] while the source cursor is
    on row [cursor] of [source]; names are resolved in [src] and [res],
    the tables the writer was compiled for. *)
Definition target (res : Table) (d : ResultDescriptionEntry) : option nat :=
  if truthy (as_ d) then names res !! asKey (as_ d)
  else names res !! EmptyString.

Definition entryValue (src source : Table) (cursor i : Z) (d : ResultDescriptionEntry)
  : option JsValue :=
  if truthy (as_ d) then
    match names src !! column d with
    | Some k => Some (getCell source cursor k)
    | None => None
    end
  else Some (VNum (Z2float i)).

(** One entry applied to row [old] of the result table. *)
Definition writeEntry (src res source : Table) (cursor i old : Z) (t : Table)
  (d : ResultDescriptionEntry) : Table :=
  match target res d, entryValue src source cursor i d with
  | Some k', Some v => setCell t old k' v
  | _, _ => t
  end.

(** A result row appended for source row [r]: the row count advanced by
    one and the entries applied in order to the row at the old count. *)
Definition appendRow (src res : Table) (description : list ResultDescriptionEntry)
  (source : Table) (r : Z) (t : Table) : Table :=
  foldl (writeEntry src res source r r (Table_rowCount t)) (snd (addRows 1 t)) description.

(** An entry that cannot be compiled against [src] and [res]: it names a
    source column or a result column that is not there. *)
Definition unresolved (src res : Table) (d : ResultDescriptionEntry) : Prop :=
  (truthy (as_ d) = true /\ names src !! column d = None) \/
  target res d = None.

(** A table with two Uint32 columns: [(1, 10), (2, 20), (3, 30)]. *)
Definition pairTable : Table :=
  mkTable [ {| name := "x"; type := Uint32 |}; {| name := "y"; type := Uint32 |} ]
    3
    (fun r c =>
       match c with
       | O => VNum (Z2float (r + 1))
       | _ => VNum (Z2float (10 * (r + 1)))
       end).

(** A description whose second entry overwrites the column of the first. *)
Definition overwriting_description : list ResultDescriptionEntry :=
  [ {| column := "x"; as_ := asString "id" |};
    {| column := "y"; as_ := asString "id" |};
    {| column := EmptyString; as_ := asAbsent |} ].

(** The cell in column [c] of the result row appended for source row [r],
    given what the memory of that cell held before: what the column keeps
    of the value of the last entry that writes [c], else the stale
    value. *)
Definition rowCell (src res : Table) (description : list ResultDescriptionEntry)
  (source : Table) (r : Z) (c : nat) (stale : JsValue) : JsValue :=
  foldl (fun v d =>
           match target res d, entryValue src source r r d with
           | Some k', Some v' => if Nat.eqb c k' then stored res k' v' else v
           | _, _ => v
           end) stale description.

(** An expression whose only clause tests the id and then runs a rule
    with an unknown operation: on the people table the second rule is
    reached on row 2 only. *)
Definition failsOnRow2 : list FilterClause :=
  [ [ mkRule "id" FilterOperation.greaterThan "2"; bogusRule ] ].

Definition failsOnRow2_config : Config :=
  {| rules := Some failsOnRow2; mode := FilterExpressionMode.DNF;
     resultDescription := S6_description; rowBatchSize := 2 |}.

(** The table of the first [initialize] among the messages. *)
Fixpoint firstInitialize (messages : list Message) : option Table :=
  match messages with
  | [] => None
  | initialize t :: _ => Some t
  | _ :: messages' => firstInitialize messages'
  end.

(** A loop body records the rows it is handed when it appends the row
    object and the index that object holds to the log and leaves the row
    objects alone; it may change the table. *)
Definition recordingBody
  (body : RowRef -> TableWorld (list (RowRef * option Z)) -> TableWorld (list (RowRef * option Z)))
  : Prop :=
  forall ref w,
    twUser (body ref w) = twUser w ++ [(ref, loadIndex ref w)] /\
    twRows (body ref w) = twRows w.

(** A loop body that, besides recording, adds [k] rows to the table every
    time it runs. *)
Definition growAndYield (k : Z) (row : RowRef) (w : TableWorld (list (RowRef * option Z)))
  : TableWorld (list (RowRef * option Z)) :=
  {| twTable := snd (addRows k (twTable w)); twRows := twRows w;
     twUser := twUser w ++ [(row, loadIndex row w)] |}.

(** ** Several workers on one scan

    [process] as a machine of small steps, so that the steps of several
    workers can be interleaved: a step is one access to the shared
    memory (the fetch-and-add on the cursor, the fetch-and-add of
    [addRows], the store of one field writer) or one evaluation of the
    filter tester, which only reads. *)

(** Where a worker is in the loops of [process]: at the claim of a batch;
    at the test [r < n] of the inner loop; at [resultTable.addRows(1)],
    once the tester was true on row [r]; at the test [i < writersLength]
    of the writer's loop; past the outer loop; or dead, with the exception
    its tester raised on row [r] of the batch that ends at [n]. *)
Inductive Pc : Type :=
| atClaim
| atTest (r n : Z)
| atAlloc (r n : Z)
| atWrite (r n : Z) (i : nat)
| finished
| failed (e : JsError) (r n : Z).

Section Steps.

Variable filterTester : Tester.
Variable writers : list FieldWriter.
Variables rowCount batchSize : Z.

Definition workerStep (pc : Pc) (w : World) : Pc * World :=
  match pc with
  | atClaim =>
      let '(i, w) := Atomize_add batchSize w in
      if i <? rowCount then (atTest i (Z.min (i + batchSize) rowCount), w)
      else (finished, w)
  | atTest r n =>
      if r <? n then
        let w := withRow (setIndex r (mRow w)) (noteVisited r w) in
        match filterTester w with
        | Ok true => (atAlloc r n, w)
        | Ok false => (atTest (r + 1) n, w)
        | Throw e => (failed e r n, w)
        end
      else (atClaim, w)
  | atAlloc r n =>
      let '(old, t) := addRows 1 (resultTable w) in
      (atWrite r n 0,
       withResult t (setIndex old (resultRow w)) (noteWritten r w))
  | atWrite r n i =>
      match (writers !! i : option FieldWriter) with
      | Some writer => (atWrite r n (S i), writer r w)
      | None => (atTest (r + 1) n, w)
      end
  | finished => (finished, w)
  | failed e r n => (failed e r n, w)
  end.

(** One worker taking [steps] steps on its own. *)
Fixpoint runWorker (steps : nat) (pc : Pc) (w : World) : Pc * World :=
  match steps with
  | O => (pc, w)
  | S steps' => let '(pc', w') := workerStep pc w in runWorker steps' pc' w'
  end.

End Steps.

(** A worker's own state: where it is, its two row cursors, and its
    share of the history variables. *)
Record Thread : Type :=
  { pc : Pc; tRow : Row; tResultRow : Row; tVisited : list Z; tWritten : list Z }.

(** The workers of one scan and the memory they share: the source table,
    the result table and element 0 of the indices block. *)
Record Pool : Type :=
  { pTable : Table; pResultTable : Table; pIndices0 : Z; pThreads : list Thread }.

(** The state one worker runs on. *)
Definition viewOf (p : Pool) (t : Thread) : World :=
  {| mTable := pTable p; mRow := tRow t;
     resultTable := pResultTable p; resultRow := tResultRow t;
     indices0 := pIndices0 p;
     visited := tVisited t; written := tWritten t |}.

Definition threadOf (pc' : Pc) (w : World) : Thread :=
  {| pc := pc'; tRow := mRow w; tResultRow := resultRow w;
     tVisited := visited w; tWritten := written w |}.

Section Pools.

Variable filterTester : Tester.
Variable writers : list FieldWriter.
Variables rowCount batchSize : Z.

(** Worker [k] takes one step. *)
Definition poolStep (k : nat) (p : Pool) : Pool :=
  match pThreads p !! k with
  | None => p
  | Some t =>
      let '(pc', w) := workerStep filterTester writers rowCount batchSize (pc t) (viewOf p t) in
      {| pTable := mTable w; pResultTable := resultTable w; pIndices0 := indices0 w;
         pThreads := <[k := threadOf pc' w]> (pThreads p) |}
  end.

(** The workers step in the order of [schedule]. *)
Definition runPool (schedule : list nat) (p : Pool) : Pool :=
  foldl (fun p k => poolStep k p) p schedule.

End Pools.

(** The rows of its batch a worker has not been on yet. *)
Definition remaining (c : Pc) : list Z :=
  match c with
  | atTest r n => seqZ r (n - r)
  | atAlloc r n | atWrite r n _ | failed _ r n => seqZ (r + 1) (n - (r + 1))
  | atClaim | finished => []
  end.

(** The rows of its batch a dead worker never got to. *)
Definition lost (c : Pc) : list Z :=
  match c with
  | failed _ r n => seqZ (r + 1) (n - (r + 1))
  | _ => []
  end.

(** The row a worker has found to match and not yet called the writer
    for. *)
Definition pending (c : Pc) : list Z :=
  match c with
  | atAlloc r _ => [r]
  | _ => []
  end.

Definition isFinished (c : Pc) : bool :=
  match c with finished => true | _ => false end.

Definition isSettled (c : Pc) : bool :=
  match c with finished | failed _ _ _ => true | _ => false end.

Definition allVisited (p : Pool) : list Z := pThreads p ≫= tVisited.
Definition allWritten (p : Pool) : list Z := pThreads p ≫= tWritten.
Definition allRemaining (p : Pool) : list Z := pThreads p ≫= (fun t => remaining (pc t)).
Definition allLost (p : Pool) : list Z := pThreads p ≫= (fun t => lost (pc t)).
Definition allPending (p : Pool) : list Z := pThreads p ≫= (fun t => pending (pc t)).

Definition finishedCount (p : Pool) : nat :=
  sum_list_with (fun t => if isFinished (pc t) then 1%nat else 0%nat) (pThreads p).

(** A pool at the start of a scan: cursor at 0, every worker at its first
    claim with no history. *)
Definition starting (p : Pool) : Prop :=
  pIndices0 p = 0 /\
  Forall (fun t => pc t = atClaim /\ tVisited t = [] /\ tWritten t = []) (pThreads p).

(** [workers] workers about to scan [src] into [res]. *)
Definition startPool (src res : Table) (workers : nat) : Pool :=
  {| pTable := src; pResultTable := res; pIndices0 := 0;
     pThreads := replicate workers
       {| pc := atClaim; tRow := newRow 0 true; tResultRow := newRow 0 false;
          tVisited := []; tWritten := [] |} |}.

(** What holds of the cursor throughout a scan of [n] rows in batches of
    [b] when [j * b] reaches [n]: it is a multiple of [b], at most one
    batch per finished worker beyond [j * b], and at or beyond [n] once a
    worker has finished. *)
Definition cursorInvariant (n b j : Z) (p : Pool) : Prop :=
  exists m, 0 <= m /\ pIndices0 p = m * b /\
            m <= j + Z.of_nat (finishedCount p) /\
            ((0 < finishedCount p)%nat -> n <= pIndices0 p).

(** What holds throughout a scan by [N] workers: the rows the workers
    have been on and those left of their batches are, together, the rows
    below the cursor. *)
Definition visitInvariant (n b j : Z) (N : nat) (p : Pool) : Prop :=
  length (pThreads p) = N /\
  cursorInvariant n b j p /\
  allVisited p ++ allRemaining p ≡ₚ seqZ 0 (Z.min (pIndices0 p) n).

Definition isFailed (c : Pc) : bool :=
  match c with failed _ _ _ => true | _ => false end.

(** What holds throughout a scan whose tester is the total predicate
    [test]: no worker is dead; each worker has called the writer for the
    matching rows it has been on, but for the one it is about to call it
    for; and the result table has grown by one row per call. *)
Definition writeInvariant (src : Table) (test : Z -> bool) (rows0 : Z) (p : Pool) : Prop :=
  pTable p = src /\
  Forall (fun t => isFailed (pc t) = false /\
                   tWritten t ++ pending (pc t) = List.filter test (tVisited t))
         (pThreads p) /\
  toUint32 (Table_rowCount (pResultTable p))
  = toUint32 (rows0 + Z.of_nat (length (allWritten p))).

(** A bound on the steps a worker has left in its batch ([L] is the
    number of field writers), and on those left in the whole scan. *)
Definition work (L : nat) (c : Pc) : nat :=
  match c with
  | atClaim => 1
  | atTest r m => Z.to_nat (m - r) * (L + 3) + 2
  | atAlloc r m => Z.to_nat (m - (r + 1)) * (L + 3) + 2 + (L + 2)
  | atWrite r m i => Z.to_nat (m - (r + 1)) * (L + 3) + 2 + (L - i) + 1
  | finished | failed _ _ _ => 0
  end.

Definition potential (L : nat) (n : Z) (p : Pool) : nat :=
  sum_list_with (fun t => work L (pc t)) (pThreads p)
  + Z.to_nat (n - pIndices0 p) * (L + 5).

(** The field writers compiled from a description, none when it does not
    compile. *)
Definition fieldWritersOf (src res : Table) (description : list ResultDescriptionEntry)
  : list FieldWriter :=
  match forPush (generateFieldWriter src res) description with
  | Ok writers => writers
  | Throw _ => []
  end.

(** Three workers taking turns, [turns] times. *)
Definition roundRobin3 (turns : nat) : list nat :=
  concat (replicate turns [0; 1; 2]%nat).

(** How many entries of the description have been applied to the result
    row at position [q] of the allocation order, which worker [k]
    allocated: as many as [k] has gone through while it is still writing
    that row, all [L] of them afterwards. *)
Definition progress (rows0 : Z) (L : nat) (p : Pool) (q k : nat) : nat :=
  match pThreads p !! k with
  | Some t =>
      match pc t with
      | atWrite _ _ i => if index (tResultRow t) =? rows0 + Z.of_nat q then i else L
      | _ => L
      end
  | None => L
  end.

(** What holds of the result table throughout a scan into [res]: [log]
    lists, in the order of allocation, the source row and the worker of
    every result row allocated; the rows beyond are as they were; a
    worker in the writer's loop has its source cursor on its row and its
    result cursor on the row it allocated; and every allocated row holds
    the entries applied to it so far. *)
Definition contentInvariant (src res : Table) (description : list ResultDescriptionEntry)
  (log : list (Z * nat)) (p : Pool) : Prop :=
  let rows0 := Table_rowCount res in
  Table_rowCount (pResultTable p) = rows0 + Z.of_nat (length log) /\
  (columns (header (pResultTable p)) = columns (header res) /\
   stored (pResultTable p) = stored res) /\
  log.*1 ≡ₚ allWritten p /\
  (forall r c, ~ (rows0 <= r < rows0 + Z.of_nat (length log)) ->
     getCell (pResultTable p) r c = getCell res r c) /\
  (forall k t, pThreads p !! k = Some t ->
     match pc t with
     | atAlloc r _ => index (tRow t) = r
     | atWrite r _ i =>
         index (tRow t) = r /\
         exists q, index (tResultRow t) = rows0 + Z.of_nat q /\ log !! q = Some (r, k)
     | _ => True
     end) /\
  (forall q r k c, log !! q = Some (r, k) ->
     getCell (pResultTable p) (rows0 + Z.of_nat q) c
     = rowCell src res (take (progress rows0 (length description) p q k) description)
         src r c (getCell res (rows0 + Z.of_nat q) c)).


(** ** Tables as objects in memory

    The life of a [Table] object: the copy [emptyFromBinaryHeader] makes
    and the properties [destroy] deletes. *)

(** Modelled from the spec: [src/core/MemoryBlock.js] and the heap behind
    it are not part of the sources.  A block is the byte range
    [address, address + size) of a buffer it shares with other blocks;
    [free] hands the block back to the heap, which here records the
    blocks handed back. *)
Record MemoryBlock : Type := { b_address : Z; b_size : Z }.

Record Heap : Type := { buffer : list Z; freed : list MemoryBlock }.

Definition MemoryBlock_free (memory : MemoryBlock) (h : Heap) : Heap :=
  {| buffer := buffer h; freed := freed h ++ [memory] |}.

(** [target.set(source, offset)] on two [Uint8Array] views, each of a
    whole buffer: a RangeError, here [None], when [offset] is negative or
    the source does not fit behind it. *)
Definition Uint8Array_set (source : list Z) (offset : Z) (target : list Z)
  : option (list Z) :=
  if (offset <? 0) || (Z.of_nat (length target) <? offset + Z.of_nat (length source))
  then None
  else Some (take (Z.to_nat offset) target ++ source
             ++ drop (Z.to_nat offset + length source) target).

(** The object: a property that [delete] has removed reads as
    [undefined], here [None]. *)
Record TableObject : Type :=
  { mMemory : option MemoryBlock; mHeader : option Header }.

Section TableObjects.

(** [new Header(memory)] is not part of the sources: it reads the header
    image at the block's address. *)
Variable Header_new : list Z -> MemoryBlock -> result Header.

Definition new_Table (memory : MemoryBlock) (h : Heap) : result TableObject :=
  hd ← Header_new (buffer h) memory;
  Ok {| mMemory := Some memory; mHeader := Some hd |}.

(** [None]: the RangeError of [set]. *)
Definition emptyFromBinaryHeader (image : list Z) (memory : MemoryBlock) (h : Heap)
  : option (result TableObject * Heap) :=
  match Uint8Array_set image (b_address memory) (buffer h) with
  | None => None
  | Some bytes =>
      let h' := {| buffer := bytes; freed := freed h |} in
      Some (new_Table memory h', h')
  end.

End TableObjects.

Definition destroy (t : TableObject) (h : Heap) : result (TableObject * Heap) :=
  match mMemory t with
  | None => Throw (TypeError "Cannot read properties of undefined (reading 'free')")
  | Some memory =>
      Ok ({| mMemory := None; mHeader := None |}, MemoryBlock_free memory h)
  end.

Definition get_rowCount (t : TableObject) : result Z :=
  match mHeader t with
  | None => Throw (TypeError "Cannot read properties of undefined (reading 'rowCount')")
  | Some hd => Ok (rowCount hd)
  end.

Definition TableObject_addRows (count : Z) (t : TableObject) : result (Z * TableObject) :=
  match mHeader t with
  | None => Throw (TypeError "Cannot read properties of undefined (reading 'addRows')")
  | Some hd =>
      let '(old, hd') := Header_addRows count hd in
      Ok (old, {| mMemory := mMemory t; mHeader := Some hd' |})
  end.

(** The calls a user makes on a table, each in a [try]: what it threw,
    if it did, and the state it left. *)
Inductive TableCall : Type :=
| callDestroy
| callRowCount
| callAddRows (count : Z).

Definition isDestroy (c : TableCall) : bool :=
  match c with callDestroy => true | _ => false end.

Definition tableCall (c : TableCall) (s : TableObject * Heap)
  : option JsError * (TableObject * Heap) :=
  let '(t, h) := s in
  match c with
  | callDestroy =>
      match destroy t h with
      | Ok s' => (None, s')
      | Throw e => (Some e, s)
      end
  | callRowCount =>
      match get_rowCount t with
      | Ok _ => (None, s)
      | Throw e => (Some e, s)
      end
  | callAddRows count =>
      match TableObject_addRows count t with
      | Ok (_, t') => (None, (t', h))
      | Throw e => (Some e, s)
      end
  end.

Definition tableCalls (cs : list TableCall) (s : TableObject * Heap) : TableObject * Heap :=
  foldl (fun s c => snd (tableCall c s)) s cs.

Definition isTypeError (e : option JsError) : bool :=
  match e with Some (TypeError _) => true | _ => false end.


(** The clauses [field op v], one clause of one rule per value. *)
Definition perValue (op : FilterOperation.t) (f : string) (values : list string)
  : list FilterClause :=
  map (fun s => [ mkRule f op s ]) values.

(** The testers of a rule and of its negation. *)
Definition negationOf (a b : result (option Tester)) : Prop :=
  match a, b with
  | Ok ta, Ok tb => forall w, callTester tb w = negb <$> callTester ta w
  | Throw ea, Throw eb => ea = eb
  | _, _ => False
  end.

(** The string [s] after the bytes [bs]. *)
Definition withBytes (bs : list nat) (s : string) : string :=
  foldr (fun b s => String (ascii_of_nat b) s) s bs.

(** ** Table: bounds checks and iteration *)

Lemma boundsGuard_debug (i : Z) (t : Table) :
  boundsGuard true i t = (Table_rowCount t <=? (if i =? 0 then 1 else 0)).
Proof. unfold boundsGuard, logicalNot, boolToNumber. simpl. reflexivity. Qed.

(** C4 (the code departs from it).  In a debug build the guard of [getRow]
    and [getBinaryRow] is [(!index) >= rowCount]: index 0 raises exactly
    when the table has at most one row, and any other index exactly when
    the table is empty.  So on a table of 3 rows index 5 is returned
    without an error, and on a table of 1 row index 0 raises although it
    is in bounds. *)
Theorem getRow_debug_guard_misparsed :
  (forall i t,
     getRow true i None t
     = if Table_rowCount t <=? (if i =? 0 then 1 else 0)
       then Throw (Thrown "ERROR: Index out of bounds!")
       else Ok (newRow i false)) /\
  (forall i t,
     getBinaryRow true i None t
     = if Table_rowCount t <=? (if i =? 0 then 1 else 0)
       then Throw (Thrown "ERROR: Index out of bounds!")
       else Ok (newRow i true)) /\
  getRow true 5 None (idTable 3) = Ok (newRow 5 false) /\
  getBinaryRow true 5 None (idTable 3) = Ok (newRow 5 true) /\
  getRow true 0 None (idTable 1) = Throw (Thrown "ERROR: Index out of bounds!") /\
  getBinaryRow true 0 None (idTable 1) = Throw (Thrown "ERROR: Index out of bounds!").
Proof.
  split; [|split; [|repeat split; reflexivity]].
  - intros i t. unfold getRow. rewrite boundsGuard_debug.
    destruct (Table_rowCount t <=? (if i =? 0 then 1 else 0)); reflexivity.
  - intros i t. unfold getBinaryRow. rewrite boundsGuard_debug.
    destruct (Table_rowCount t <=? (if i =? 0 then 1 else 0)); reflexivity.
Qed.

Lemma storeIndex_length {A} (ref : RowRef) (i : Z) (w : TableWorld A) :
  length (twRows (storeIndex ref i w)) = length (twRows w).
Proof. unfold storeIndex. simpl. apply length_alter. Qed.

Lemma loadIndex_storeIndex {A} (ref : RowRef) (i : Z) (w : TableWorld A) :
  (ref < length (twRows w))%nat -> loadIndex ref (storeIndex ref i w) = Some i.
Proof.
  intros Hlt. unfold loadIndex, storeIndex. simpl.
  destruct (lookup_lt_is_Some_2 (twRows w) ref Hlt) as [row Hrow].
  rewrite list_lookup_alter_eq, Hrow. reflexivity.
Qed.

Lemma loadIndex_allocRow {A} (i : Z) (b : bool) (w : TableWorld A) :
  loadIndex (fst (allocRow (newRow i b) w)) (snd (allocRow (newRow i b) w)) = Some i.
Proof.
  unfold loadIndex, allocRow. simpl.
  rewrite lookup_app_r by lia. rewrite Nat.sub_diag. reflexivity.
Qed.

Lemma logCall_recording : recording logCall.
Proof. intros ref i w. split; reflexivity. Qed.

Lemma growAndLog_recording (k : Z) : recording (growAndLog k).
Proof. intros ref i w. split; reflexivity. Qed.

(** The loop of [forEach] with a recording callback, over any list of
    indices. *)
Lemma forEach_loop_log (itr : Callback (list (RowRef * option Z * Z)))
  (ref : RowRef) (l : list Z) (w : TableWorld (list (RowRef * option Z * Z))) :
  recording itr ->
  (ref < length (twRows w))%nat ->
  twUser (foldl (fun w i => itr ref i (storeIndex ref i w)) w l)
  = twUser w ++ map (fun i => (ref, Some i, i)) l.
Proof.
  intros Hrec. revert w. induction l as [|i l IH]; intros w Hlt; simpl.
  - rewrite app_nil_r. reflexivity.
  - destruct (Hrec ref i (storeIndex ref i w)) as [Hlog Hrows].
    rewrite IH.
    + rewrite Hlog, (loadIndex_storeIndex ref i w Hlt).
      rewrite <- app_assoc. reflexivity.
    + rewrite Hrows, storeIndex_length. exact Hlt.
Qed.

(** [forEach] with a recording callback: one call at index 0, then the
    indices from 1 up to the row count read after that call. *)
Lemma forEach_log (itr : Callback (list (RowRef * option Z * Z)))
  (w : TableWorld (list (RowRef * option Z * Z))) :
  recording itr ->
  let ref := length (twRows w) in
  let n := Table_rowCount (twTable (itr ref 0 (snd (allocRow (newRow 0 false) w)))) in
  twUser (forEach itr w)
  = twUser w ++ map (fun i => (ref, Some i, i)) (seqZ 0 (Z.max 1 n)).
Proof.
  intros Hrec ref n. unfold forEach.
  change (allocRow (newRow 0 false) w) with (ref, snd (allocRow (newRow 0 false) w)).
  cbv iota beta. fold n.
  destruct (Hrec ref 0 (snd (allocRow (newRow 0 false) w))) as [Hlog Hrows].
  rewrite forEach_loop_log; [| exact Hrec |].
  - rewrite Hlog.
    pose proof (loadIndex_allocRow 0 false w) as Hload.
    change (fst (allocRow (newRow 0 false) w)) with ref in Hload.
    rewrite Hload. simpl.
    rewrite <- app_assoc. f_equal.
    destruct (Z_lt_le_dec 1 n) as [Hn|Hn].
    + rewrite Z.max_r by lia.
      rewrite (seqZ_cons 0 n) by lia. simpl.
      replace (Z.succ 0) with 1 by lia. replace (Z.pred n) with (n - 1) by lia.
      reflexivity.
    + rewrite Z.max_l by lia.
      rewrite (seqZ_nil 1 (n - 1)) by lia. reflexivity.
  - rewrite Hrows. simpl. rewrite length_app. simpl. unfold ref. lia.
Qed.

(** Draining the iterator with the recording body. *)
Lemma forOf_log (k : nat) (it : Iterator) (w : TableWorld (list (RowRef * option Z))) :
  (it_row it < length (twRows w))%nat ->
  Z.to_nat (it_n it - it_i it) = k ->
  exists w',
    forOf (S k) logYield it w = Some w' /\
    twUser w' = twUser w ++
      map (fun i => (it_row it, Some i)) (seqZ (it_i it) (it_n it - it_i it)).
Proof.
  revert it w. induction k as [|k IH]; intros it w Hlt Hk.
  - exists w. simpl. unfold next.
    destruct (Z.ltb_spec (it_i it) (it_n it)) as [H|H]; [lia|].
    split; [reflexivity|].
    rewrite seqZ_nil by lia. simpl. rewrite app_nil_r. reflexivity.
  - assert (Hi : it_i it < it_n it) by lia.
    set (it' := {| it_i := it_i it + 1; it_n := it_n it; it_row := it_row it |}).
    set (w1 := logYield (it_row it) (storeIndex (it_row it) (it_i it) w)).
    destruct (IH it' w1) as [w' [Hrun Hlog]].
    + unfold w1, logYield. simpl. rewrite length_alter. exact Hlt.
    + unfold it'. simpl. lia.
    + exists w'. split.
      * change (forOf (S (S k)) logYield it w) with
          (match next it w with
           | (Some row, it2, w2) => forOf (S k) logYield it2 (logYield row w2)
           | (None, _, w2) => Some w2
           end).
        unfold next. destruct (Z.ltb_spec (it_i it) (it_n it)) as [H|H]; [|lia].
        exact Hrun.
      * rewrite Hlog. unfold w1, logYield, it'. simpl.
        rewrite (loadIndex_storeIndex (it_row it) (it_i it) w Hlt).
        rewrite <- app_assoc. f_equal.
        rewrite (seqZ_cons (it_i it) (it_n it - it_i it)) by lia. simpl.
        replace (Z.succ (it_i it)) with (it_i it + 1) by lia.
        replace (Z.pred (it_n it - it_i it)) with (it_n it - (it_i it + 1)) by lia.
        reflexivity.
Qed.

(** C9.  [forEach] calls its callback once with index 0 before it reads
    the row count: with a recording callback the calls are those for the
    indices [0 .. max 1 rowCount - 1], so exactly one on an empty table,
    and a callback that adds [k] rows on its first call is called for
    the indices below the grown row count.  Draining the iterator of the
    same table yields exactly the indices [0 .. rowCount - 1], none on an
    empty table.  In both, every call or yield passes the one row object
    created at the start, holding the index of that call. *)
Theorem forEach_calls_once_first_iterator_exact (t : Table) (rows : list Row) :
  let ref := length rows in
  (forall log,
     twUser (forEach logCall {| twTable := t; twRows := rows; twUser := log |})
     = log ++ map (fun i => (ref, Some i, i)) (seqZ 0 (Z.max 1 (Table_rowCount t)))) /\
  (forall k log,
     twUser (forEach (growAndLog k) {| twTable := t; twRows := rows; twUser := log |})
     = log ++ map (fun i => (ref, Some i, i))
                  (seqZ 0 (Z.max 1 (toUint32 (Table_rowCount t + k))))) /\
  (forall log,
     let start := iterator {| twTable := t; twRows := rows; twUser := log |} in
     exists fuel w',
       forOf fuel logYield (fst start) (snd start) = Some w' /\
       twUser w' = log ++ map (fun i => (ref, Some i)) (seqZ 0 (Table_rowCount t))).
Proof.
  intros ref. split; [|split].
  - intros log.
    apply (forEach_log logCall {| twTable := t; twRows := rows; twUser := log |}
             logCall_recording).
  - intros k log.
    rewrite (forEach_log (growAndLog k) {| twTable := t; twRows := rows; twUser := log |}
               (growAndLog_recording k)).
    reflexivity.
  - intros log start.
    destruct (forOf_log (Z.to_nat (Table_rowCount t)) (fst start) (snd start))
      as [w' [Hrun Hlog]].
    + unfold start, iterator. simpl. rewrite length_app. simpl. lia.
    + unfold start, iterator. simpl. f_equal. lia.
    + exists (S (Z.to_nat (Table_rowCount t))), w'. split; [exact Hrun|].
      rewrite Hlog. unfold start, iterator. simpl.
      rewrite Z.sub_0_r. reflexivity.
Qed.

(** ** Compiled testers *)

(** Facts about the two aggregating loops. *)
Section Loops.

Context {A B : Type}.
Variable f : A -> result B.
Variable call : B -> World -> result bool.

Lemma forPush_cons_Ok (a : A) (l : list A) (bs : list B) :
  forPush f (a :: l) = Ok bs ->
  exists b bs', bs = b :: bs' /\ f a = Ok b /\ forPush f l = Ok bs'.
Proof.
  simpl. destruct (f a) as [b|e]; [|discriminate].
  destruct (forPush f l) as [bs'|e]; [|discriminate].
  intros H. inversion H. exists b, bs'. auto.
Qed.

Lemma allLoop_total (l : list A) (bs : list B) (w : World) :
  forPush f l = Ok bs ->
  (forall a, In a l -> exists b, outcome f call a w = Ok b) ->
  exists b, allLoop call bs w = Ok b /\
            (b = true <-> forall a, In a l -> outcome f call a w = Ok true).
Proof.
  revert bs. induction l as [|a l IH]; intros bs Hpush Htot.
  - inversion Hpush. exists true. simpl. split; [reflexivity|].
    split; [intros _ a []|reflexivity].
  - destruct (forPush_cons_Ok a l bs Hpush) as [b [bs' [-> [Hb Hbs']]]].
    destruct (IH bs' Hbs') as [v [Hv Hiff]].
    { intros a' Ha'. apply Htot. right. exact Ha'. }
    destruct (Htot a (or_introl eq_refl)) as [va Hva].
    assert (Hcall : call b w = Ok va).
    { unfold outcome in Hva. rewrite Hb in Hva. exact Hva. }
    simpl. rewrite Hcall. destruct va.
    + exists v. split; [exact Hv|]. rewrite Hiff. split.
      * intros H a' [<-|Ha']; [exact Hva|apply H; exact Ha'].
      * intros H a' Ha'. apply H. right. exact Ha'.
    + exists false. split; [reflexivity|]. split; [discriminate|].
      intros H. specialize (H a (or_introl eq_refl)). congruence.
Qed.

Lemma anyLoop_total (l : list A) (bs : list B) (w : World) :
  forPush f l = Ok bs ->
  (forall a, In a l -> exists b, outcome f call a w = Ok b) ->
  exists b, anyLoop call bs w = Ok b /\
            (b = true <-> exists a, In a l /\ outcome f call a w = Ok true).
Proof.
  revert bs. induction l as [|a l IH]; intros bs Hpush Htot.
  - inversion Hpush. exists false. simpl. split; [reflexivity|].
    split; [discriminate|intros [a [[] _]]].
  - destruct (forPush_cons_Ok a l bs Hpush) as [b [bs' [-> [Hb Hbs']]]].
    destruct (IH bs' Hbs') as [v [Hv Hiff]].
    { intros a' Ha'. apply Htot. right. exact Ha'. }
    destruct (Htot a (or_introl eq_refl)) as [va Hva].
    assert (Hcall : call b w = Ok va).
    { unfold outcome in Hva. rewrite Hb in Hva. exact Hva. }
    simpl. rewrite Hcall. destruct va.
    + exists true. split; [reflexivity|]. split; [|reflexivity].
      intros _. exists a. split; [left; reflexivity|exact Hva].
    + exists v. split; [exact Hv|]. rewrite Hiff. split.
      * intros [a' [Ha' Ht]]. exists a'. split; [right; exact Ha'|exact Ht].
      * intros [a' [[<-|Ha'] Ht]]; [congruence|]. exists a'. auto.
Qed.

(** Short circuit: the elements behind the first deciding one are not
    called, whatever they would do. *)
Lemma allLoop_decided (l1 : list A) (a : A) (l2 : list A) (bs : list B) (w : World) :
  forPush f (l1 ++ a :: l2) = Ok bs ->
  (forall a', In a' l1 -> outcome f call a' w = Ok true) ->
  outcome f call a w = Ok false ->
  allLoop call bs w = Ok false.
Proof.
  revert bs. induction l1 as [|a1 l1 IH]; intros bs Hpush Hpre Ha.
  - destruct (forPush_cons_Ok a l2 bs Hpush) as [b [bs' [-> [Hb _]]]].
    unfold outcome in Ha. rewrite Hb in Ha. simpl. rewrite Ha. reflexivity.
  - destruct (forPush_cons_Ok a1 (l1 ++ a :: l2) bs Hpush) as [b [bs' [-> [Hb Hbs']]]].
    pose proof (Hpre a1 (or_introl eq_refl)) as H1.
    unfold outcome in H1. rewrite Hb in H1. simpl. rewrite H1.
    apply IH; [exact Hbs'| |exact Ha].
    intros a' Ha'. apply Hpre. right. exact Ha'.
Qed.

Lemma anyLoop_decided (l1 : list A) (a : A) (l2 : list A) (bs : list B) (w : World) :
  forPush f (l1 ++ a :: l2) = Ok bs ->
  (forall a', In a' l1 -> outcome f call a' w = Ok false) ->
  outcome f call a w = Ok true ->
  anyLoop call bs w = Ok true.
Proof.
  revert bs. induction l1 as [|a1 l1 IH]; intros bs Hpush Hpre Ha.
  - destruct (forPush_cons_Ok a l2 bs Hpush) as [b [bs' [-> [Hb _]]]].
    unfold outcome in Ha. rewrite Hb in Ha. simpl. rewrite Ha. reflexivity.
  - destruct (forPush_cons_Ok a1 (l1 ++ a :: l2) bs Hpush) as [b [bs' [-> [Hb Hbs']]]].
    pose proof (Hpre a1 (or_introl eq_refl)) as H1.
    unfold outcome in H1. rewrite Hb in H1. simpl. rewrite H1.
    apply IH; [exact Hbs'| |exact Ha].
    intros a' Ha'. apply Hpre. right. exact Ha'.
Qed.

Lemma forPush_In (l : list A) (bs : list B) (a : A) :
  forPush f l = Ok bs -> In a l -> exists b, f a = Ok b.
Proof.
  revert bs. induction l as [|a1 l IH]; intros bs Hpush Hin; [destruct Hin|].
  destruct (forPush_cons_Ok a1 l bs Hpush) as [b [bs' [-> [Hb Hbs']]]].
  destruct Hin as [<-|Hin]; [exists b; exact Hb|].
  apply (IH bs' Hbs' Hin).
Qed.

End Loops.

Section TesterFacts.

Variable ByteString_toNumber : ByteString -> float.

Local Abbreviation generateRule := (_generateRuleTester ByteString_toNumber).
Local Abbreviation generateClause := (_generateClauseTester ByteString_toNumber).
Local Abbreviation generateExpression := (_generateExpressionTester ByteString_toNumber).

Lemma ruleTesterDNF_allLoop (ts : list (option Tester)) (w : World) :
  ruleTesterDNF ts w = allLoop callTester ts w.
Proof. induction ts as [|t ts IH]; simpl; [reflexivity|]. rewrite IH. reflexivity. Qed.

Lemma ruleTesterCNF_anyLoop (ts : list (option Tester)) (w : World) :
  ruleTesterCNF ts w = anyLoop callTester ts w.
Proof. induction ts as [|t ts IH]; simpl; [reflexivity|]. rewrite IH. reflexivity. Qed.

Lemma filterTesterDNF_anyLoop (ts : list Tester) (w : World) :
  filterTesterDNF ts w = anyLoop (fun t => t) ts w.
Proof. induction ts as [|t ts IH]; simpl; [reflexivity|]. rewrite IH. reflexivity. Qed.

Lemma filterTesterCNF_allLoop (ts : list Tester) (w : World) :
  filterTesterCNF ts w = allLoop (fun t => t) ts w.
Proof. induction ts as [|t ts IH]; simpl; [reflexivity|]. rewrite IH. reflexivity. Qed.

(** What [_generateClauseTester] returns, by mode. *)
Lemma generateClause_inv (tbl : Table) (mode : FilterExpressionMode.t)
  (clause : FilterClause) (t : Tester) :
  generateClause tbl mode clause = Ok t ->
  exists ts, forPush (generateRule tbl) clause = Ok ts /\
             t = if modeIsDNF mode then ruleTesterDNF ts else ruleTesterCNF ts.
Proof.
  unfold _generateClauseTester.
  destruct (forPush (generateRule tbl) clause) as [ts|e]; simpl; [|discriminate].
  intros H. exists ts. split; [reflexivity|].
  destruct (modeIsDNF mode); inversion H; reflexivity.
Qed.

Lemma generateExpression_inv (tbl : Table) (mode : FilterExpressionMode.t)
  (c : FilterClause) (clauses : list FilterClause) (t : Tester) :
  generateExpression tbl (Some (c :: clauses)) mode = Ok t ->
  exists ts, forPush (generateClause tbl mode) (c :: clauses) = Ok ts /\
             t = if modeIsDNF mode then filterTesterDNF ts else filterTesterCNF ts.
Proof.
  unfold _generateExpressionTester.
  destruct (forPush (generateClause tbl mode) (c :: clauses)) as [ts|e];
    simpl; [|discriminate].
  intros H. exists ts. split; [reflexivity|].
  destruct (modeIsDNF mode); inversion H; reflexivity.
Qed.

(** A clause whose rules all return: the clause tester returns, and what
    it returns is the conjunction (DNF) or disjunction (CNF). *)
Lemma clause_total (tbl : Table) (mode : FilterExpressionMode.t)
  (clause : FilterClause) (t : Tester) (w : World) :
  generateClause tbl mode clause = Ok t ->
  (forall r, In r clause -> exists b, ruleResult ByteString_toNumber tbl r w = Ok b) ->
  exists b, t w = Ok b /\
    (b = true <->
     if modeIsDNF mode then forall r, In r clause -> ruleResult ByteString_toNumber tbl r w = Ok true
     else exists r, In r clause /\ ruleResult ByteString_toNumber tbl r w = Ok true).
Proof.
  intros Hgen Htot.
  destruct (generateClause_inv tbl mode clause t Hgen) as [ts [Hpush ->]].
  destruct (modeIsDNF mode).
  - rewrite ruleTesterDNF_allLoop.
    apply (allLoop_total (generateRule tbl) callTester clause ts w Hpush Htot).
  - rewrite ruleTesterCNF_anyLoop.
    apply (anyLoop_total (generateRule tbl) callTester clause ts w Hpush Htot).
Qed.

(** C8.  The tester compiled from an empty expression, whether the clause
    list is absent or has no clause, returns true on every row, in every
    mode. *)
Theorem empty_expression_matches_every_row (tbl : Table)
  (mode : FilterExpressionMode.t) (w : World) :
  generateExpression tbl None mode = Ok filterTesterEmpty /\
  generateExpression tbl (Some []) mode = Ok filterTesterEmpty /\
  filterTesterEmpty w = Ok true.
Proof. repeat split; reflexivity. Qed.

(** C1 (as amended).  For a non-empty expression whose tester compiles:
    on every row on which all rule testers return, the tester returns,
    and it returns true exactly when the normal form holds (DNF: some
    clause has all rules true; CNF: every clause has a rule that is
    true).  Both aggregators short-circuit: the expression tester returns
    at the first clause that decides it (a true clause in DNF, a false one
    in CNF) and the clause tester at the first rule that decides it (a
    false rule in DNF, a true one in CNF), whatever stands behind. *)
Theorem normal_form_semantics_nonempty (tbl : Table) (mode : FilterExpressionMode.t)
  (clauses : list FilterClause) (t : Tester) :
  clauses <> [] ->
  generateExpression tbl (Some clauses) mode = Ok t ->
  (forall w,
     (forall c, In c clauses -> forall r, In r c -> exists b, ruleResult ByteString_toNumber tbl r w = Ok b) ->
     exists b, t w = Ok b /\ (b = true <-> normalForm ByteString_toNumber tbl mode clauses w)) /\
  (forall w E1 c E2,
     clauses = E1 ++ c :: E2 ->
     (forall c', In c' E1 -> clauseResult ByteString_toNumber tbl mode c' w = Ok (negb (modeIsDNF mode))) ->
     clauseResult ByteString_toNumber tbl mode c w = Ok (modeIsDNF mode) ->
     t w = Ok (modeIsDNF mode)) /\
  (forall w c rs1 r rs2,
     In c clauses -> c = rs1 ++ r :: rs2 ->
     (forall r', In r' rs1 -> ruleResult ByteString_toNumber tbl r' w = Ok (modeIsDNF mode)) ->
     ruleResult ByteString_toNumber tbl r w = Ok (negb (modeIsDNF mode)) ->
     clauseResult ByteString_toNumber tbl mode c w = Ok (negb (modeIsDNF mode))).
Proof.
  intros Hne Hgen.
  destruct clauses as [|c0 clauses0]; [congruence|].
  destruct (generateExpression_inv tbl mode c0 clauses0 t Hgen) as [ts [Hpush ->]].
  set (clauses := c0 :: clauses0) in *.
  split; [|split].
  - intros w Htot.
    assert (Hcl : forall c, In c clauses ->
              exists b, clauseResult ByteString_toNumber tbl mode c w = Ok b /\
                (b = true <->
                 if modeIsDNF mode then forall r, In r c -> ruleResult ByteString_toNumber tbl r w = Ok true
                 else exists r, In r c /\ ruleResult ByteString_toNumber tbl r w = Ok true)).
    { intros c Hc.
      destruct (forPush_In _ clauses ts c Hpush Hc) as [tc Htc].
      destruct (clause_total tbl mode c tc w Htc (Htot c Hc)) as [b [Hb Hiff]].
      exists b. split; [|exact Hiff].
      unfold clauseResult, outcome. rewrite Htc. exact Hb. }
    assert (Htot' : forall c, In c clauses ->
              exists b, outcome (generateClause tbl mode) (fun t => t) c w = Ok b).
    { intros c Hc. destruct (Hcl c Hc) as [b [Hb _]]. exists b. exact Hb. }
    unfold normalForm. destruct (modeIsDNF mode) eqn:Hmode.
    + rewrite filterTesterDNF_anyLoop.
      destruct (anyLoop_total _ (fun t => t) clauses ts w Hpush Htot') as [b [Hb Hiff]].
      exists b. split; [exact Hb|]. rewrite Hiff. split.
      * intros [c [Hc Hres]]. exists c. split; [exact Hc|].
        destruct (Hcl c Hc) as [b' [Hb' Hiff']].
        apply Hiff'. pose proof (eq_trans (eq_sym Hb') Hres) as E.
        inversion E. reflexivity.
      * intros [c [Hc Hall]]. exists c. split; [exact Hc|].
        destruct (Hcl c Hc) as [b' [Hb' Hiff']].
        assert (b' = true) as -> by (apply Hiff'; exact Hall). exact Hb'.
    + rewrite filterTesterCNF_allLoop.
      destruct (allLoop_total _ (fun t => t) clauses ts w Hpush Htot') as [b [Hb Hiff]].
      exists b. split; [exact Hb|]. rewrite Hiff. split.
      * intros H c Hc. destruct (Hcl c Hc) as [b' [Hb' Hiff']].
        apply Hiff'. pose proof (eq_trans (eq_sym Hb') (H c Hc)) as E.
        inversion E. reflexivity.
      * intros H c Hc. destruct (Hcl c Hc) as [b' [Hb' Hiff']].
        assert (b' = true) as -> by (apply Hiff'; apply H; exact Hc). exact Hb'.
  - intros w E1 c E2 Hsplit Hpre Hc.
    rewrite Hsplit in Hpush.
    destruct (modeIsDNF mode); simpl in *.
    + rewrite filterTesterDNF_anyLoop.
      apply (anyLoop_decided _ (fun t => t) E1 c E2 ts w Hpush Hpre Hc).
    + rewrite filterTesterCNF_allLoop.
      apply (allLoop_decided _ (fun t => t) E1 c E2 ts w Hpush Hpre Hc).
  - intros w c rs1 r rs2 Hc Hsplit Hpre Hr.
    destruct (forPush_In _ clauses ts c Hpush Hc) as [tc Htc].
    unfold clauseResult, outcome. rewrite Htc.
    destruct (generateClause_inv tbl mode c tc Htc) as [rts [Hrules ->]].
    rewrite Hsplit in Hrules.
    destruct (modeIsDNF mode); simpl in *.
    + rewrite ruleTesterDNF_allLoop.
      apply (allLoop_decided _ callTester rs1 r rs2 rts w Hrules Hpre Hr).
    + rewrite ruleTesterCNF_anyLoop.
      apply (anyLoop_decided _ callTester rs1 r rs2 rts w Hrules Hpre Hr).
Qed.

End TesterFacts.

(** On the people table the S2 expression in DNF selects rows 0 and 2 and
    the S3 expression in CNF selects row 2 only. *)
Example S2_S3_selection :
  map (fun r => testerOf peopleTable S2_expression FilterExpressionMode.DNF
                  (worldAt peopleTable emptyResult r)) [0; 1; 2]
  = [Ok true; Ok false; Ok true] /\
  map (fun r => testerOf peopleTable S3_expression FilterExpressionMode.CNF
                  (worldAt peopleTable emptyResult r)) [0; 1; 2]
  = [Ok false; Ok false; Ok true].
Proof. split; vm_compute; reflexivity. Qed.

Lemma normal_form_semantics_witness :
  exists b,
    testerOf peopleTable S2_expression FilterExpressionMode.DNF
      (worldAt peopleTable emptyResult 2) = Ok b /\
    (b = true <->
     normalForm toNumberNaN peopleTable FilterExpressionMode.DNF S2_expression
       (worldAt peopleTable emptyResult 2)).
Proof.
  destruct (normal_form_semantics_nonempty toNumberNaN peopleTable
              FilterExpressionMode.DNF S2_expression
              (testerOf peopleTable S2_expression FilterExpressionMode.DNF))
    as [H _]; [discriminate | reflexivity |].
  apply H. intros c Hc r Hr.
  destruct Hc as [<-|[<-|[]]]; destruct Hr as [<-|[]]; eexists; vm_compute; reflexivity.
Defined.

(** C1 as stated fails in two ways.  The empty expression in DNF mode
    matches although it has no clause at all; and an expression whose
    second clause has all its rules true does not match when a rule tester
    of the first clause throws. *)
Lemma normal_form_fails_empty_or_throwing :
  (testerOf peopleTable [] FilterExpressionMode.DNF (worldAt peopleTable emptyResult 0)
   = Ok true /\
   ~ normalForm toNumberNaN peopleTable FilterExpressionMode.DNF []
       (worldAt peopleTable emptyResult 0)) /\
  (testerOf peopleTable bogusFirst FilterExpressionMode.DNF
     (worldAt peopleTable emptyResult 0)
   = Throw (TypeError "testers[i] is not a function") /\
   normalForm toNumberNaN peopleTable FilterExpressionMode.DNF bogusFirst
     (worldAt peopleTable emptyResult 0)).
Proof.
  split; split.
  - reflexivity.
  - intros [c [[] _]].
  - vm_compute. reflexivity.
  - exists [ mkRule "id" FilterOperation.equal "1" ]. split.
    + right. left. reflexivity.
    + intros r [<-|[]]. vm_compute. reflexivity.
Qed.

(** ** The worker and uncaught errors *)

Section WorkerFacts.

Variable _DEBUG : bool.
Variable ByteString_toNumber : ByteString -> float.

Local Abbreviation onMessage := (filterWorkerOnMessage _DEBUG ByteString_toNumber).

Lemma generateResultWriter_inv (description : list ResultDescriptionEntry)
  (w w0 : World) (writer : Z -> World -> World) :
  _generateResultWriter _DEBUG description w = Ok (writer, w0) ->
  exists row writers,
    getRow _DEBUG 0 None (resultTable w) = Ok row /\
    w0 = withResult (resultTable w) row w /\
    forPush (generateFieldWriter (mTable w) (resultTable w)) description = Ok writers /\
    writer = resultWriter writers.
Proof.
  unfold _generateResultWriter.
  destruct (getRow _DEBUG 0 None (resultTable w)) as [row|e]; simpl; [|discriminate].
  destruct (forPush (generateFieldWriter (mTable w) (resultTable w)) description)
    as [writers|e]; simpl; [|discriminate].
  intros H. inversion H. exists row, writers. auto.
Qed.

(** A scan whose first claim is in range and whose tester throws on every
    row ends with that exception. *)
Lemma scanLoop_tester_throws (fuel : nat) (tester : Tester)
  (writer : Z -> World -> World) (n b : Z) (w : World) (e : JsError) :
  (forall w', tester w' = Throw e) ->
  0 < b -> indices0 w < n ->
  scanLoop (S fuel) tester writer n b w = Some (Throw e).
Proof.
  intros Hthrow Hb Hi. simpl.
  destruct (Z.ltb_spec (indices0 w) n) as [_|H]; [|lia].
  rewrite (seqZ_cons (indices0 w)) by lia. simpl.
  unfold visitRow. rewrite Hthrow. reflexivity.
Qed.

(** C5 (as amended).  A rule whose operation is none of the ten defined
    ones and whose field names a column compiles without any error: its
    tester is [null].  An expression made of it compiles too, in every
    mode, and the error is raised when the tester is run on a row.  In the
    worker a scan that visits a row then ends with an exception that
    leaves the handler, and no reply is posted; a scan that visits no row
    replies [success]. *)
Theorem unknown_operation_surfaces_at_row_time (tbl : Table) (rule : FilterRule)
  (operation_name : string) (k : nat) :
  operation rule = FilterOperation.other operation_name ->
  names tbl !! field rule = Some k ->
  _generateRuleTester ByteString_toNumber tbl rule = Ok None /\
  (forall mode, exists t,
     _generateExpressionTester ByteString_toNumber tbl (Some [[rule]]) mode = Ok t /\
     forall w, t w = Throw (TypeError "testers[i] is not a function")) /\
  (forall fuel options st p,
     gProcessor st = Some p -> p_mTable p = tbl ->
     rules options = Some [[rule]] ->
     0 < rowBatchSize options ->
     sIndices0 (shared st) < Table_rowCount tbl ->
     exists e, onMessage (S fuel) (processFilters options) st
               = Some (Uncaught e (posted st))) /\
  (forall fuel options st p writer w0,
     gProcessor st = Some p -> p_mTable p = tbl ->
     rules options = Some [[rule]] ->
     Table_rowCount tbl <= sIndices0 (shared st) ->
     _generateResultWriter _DEBUG (resultDescription options) (worldOf p (shared st))
       = Ok (writer, w0) ->
     exists st', onMessage (S fuel) (processFilters options) st = Some (Returned st') /\
                 posted st' = posted st ++ [success]).
Proof.
  intros Hop Hname.
  assert (Hrule : _generateRuleTester ByteString_toNumber tbl rule = Ok None).
  { unfold _generateRuleTester, accessor. rewrite Hname. simpl. rewrite Hop. reflexivity. }
  assert (Hexpr : forall mode, exists t,
     _generateExpressionTester ByteString_toNumber tbl (Some [[rule]]) mode = Ok t /\
     forall w, t w = Throw (TypeError "testers[i] is not a function")).
  { intros mode. unfold _generateExpressionTester, _generateClauseTester. simpl.
    rewrite Hrule. simpl. destruct (modeIsDNF mode); simpl; eexists; split;
      try reflexivity; intros w; reflexivity. }
  split; [exact Hrule|]. split; [exact Hexpr|]. split.
  - intros fuel options st p Hp Htbl Hrules Hb Hi.
    unfold filterWorkerOnMessage. rewrite Hp. unfold process.
    change (mTable (worldOf p (shared st))) with (p_mTable p).
    rewrite Htbl, Hrules.
    destruct (Hexpr (mode options)) as [t [-> Ht]].
    destruct (_generateResultWriter _DEBUG (resultDescription options)
                (worldOf p (shared st))) as [[writer w0]|e] eqn:Hw.
    + destruct (generateResultWriter_inv _ _ _ _ Hw) as [row [ws [_ [-> _]]]].
      rewrite (scanLoop_tester_throws fuel t writer _ _ _ _ Ht Hb); [|exact Hi].
      eexists. reflexivity.
    + eexists. reflexivity.
  - intros fuel options st p writer w0 Hp Htbl Hrules Hi Hw.
    unfold filterWorkerOnMessage. rewrite Hp. unfold process.
    change (mTable (worldOf p (shared st))) with (p_mTable p).
    rewrite Htbl, Hrules.
    destruct (Hexpr (mode options)) as [t [-> Ht]].
    rewrite Hw.
    destruct (generateResultWriter_inv _ _ _ _ Hw) as [row [ws [_ [-> _]]]].
    simpl.
    destruct (Z.ltb_spec (sIndices0 (shared st)) (Table_rowCount tbl)) as [H|_]; [lia|].
    eexists. split; [reflexivity|]. reflexivity.
Qed.

End WorkerFacts.

Lemma unknown_operation_witness :
  _generateRuleTester toNumberNaN (idTable 3) bogusRule = Ok None /\
  exists e,
    filterWorkerOnMessage false toNumberNaN 1 (processFilters bogus_config) initializedWorker
    = Some (Uncaught e (posted initializedWorker)).
Proof.
  destruct (unknown_operation_surfaces_at_row_time false toNumberNaN (idTable 3)
              bogusRule "between" 0%nat eq_refl eq_refl) as (H1 & _ & H3 & _).
  split; [exact H1|].
  apply (H3 O bogus_config initializedWorker
           {| p_mTable := idTable 3; p_mRow := newRow 0 true |}).
  - reflexivity.
  - reflexivity.
  - reflexivity.
  - simpl. lia.
  - unfold Table_rowCount. simpl. lia.
Defined.

(** C5 as stated fails: the expression with the unknown operation
    compiles without an error, the tester it compiles to raises when it
    is run on a row, and the worker posts no [error] reply: the exception
    leaves the handler. *)
Lemma unknown_operation_not_caught_at_compile :
  (exists t,
     _generateExpressionTester toNumberNaN (idTable 3) (Some [[bogusRule]])
       FilterExpressionMode.DNF = Ok t /\
     t (worldAt (idTable 3) emptyResult 0)
     = Throw (TypeError "testers[i] is not a function")) /\
  filterWorkerOnMessage false toNumberNaN 1 (processFilters bogus_config) initializedWorker
  = Some (Uncaught (TypeError "testers[i] is not a function") [success]).
Proof.
  split.
  - eexists. split; reflexivity.
  - vm_compute. reflexivity.
Qed.

(** ** The result writer and the scan *)

Lemma generateFieldWriter_writesOneCell (src res : Table) (d : ResultDescriptionEntry)
  (fw : FieldWriter) :
  generateFieldWriter src res d = Ok fw -> writesOneCell fw.
Proof.
  unfold generateFieldWriter. destruct (truthy (as_ d)).
  - destruct (accessor src (column d)) as [k|e]; simpl; [|discriminate].
    destruct (accessor res (asKey (as_ d))) as [k'|e]; simpl; [|discriminate].
    intros H. inversion H. intros i w. exists k', (getter k w). reflexivity.
  - destruct (accessor res EmptyString) as [k'|e]; simpl; [|discriminate].
    intros H. inversion H. intros i w. exists k', (VNum (Z2float i)). reflexivity.
Qed.

Lemma forPush_Forall {A B} (f : A -> result B) (P : B -> Prop) (l : list A) (bs : list B) :
  (forall a b, f a = Ok b -> P b) -> forPush f l = Ok bs -> Forall P bs.
Proof.
  intros HP. revert bs. induction l as [|a l IH]; intros bs H.
  - inversion H. constructor.
  - destruct (forPush_cons_Ok f a l bs H) as [b [bs' [-> [Hb Hbs']]]].
    constructor; [apply (HP a b Hb)|apply (IH bs' Hbs')].
Qed.

Lemma fieldWriters_frame (writers : list FieldWriter) (i : Z) (w : World) :
  Forall writesOneCell writers ->
  sameFrame w (foldl (fun w writer => writer i w) w writers).
Proof.
  intros Hall. revert w. induction Hall as [|fw writers Hfw _ IH]; intros w; simpl.
  - repeat split.
  - destruct (Hfw i w) as [k [v Heq]].
    destruct (IH (fw i w)) as (H1 & H2 & H3 & H4 & H5 & H6 & H7).
    unfold sameFrame. rewrite H1, H2, H3, H4, H5, H6, H7, Heq.
    repeat split; reflexivity.
Qed.

(** One call of the result writer: the row it claims and what it leaves
    alone. *)
Lemma resultWriter_frame (writers : list FieldWriter) (i : Z) (w : World) :
  Forall writesOneCell writers ->
  let w' := resultWriter writers i w in
  mTable w' = mTable w /\ mRow w' = mRow w /\ indices0 w' = indices0 w /\
  visited w' = visited w /\ written w' = written w ++ [i] /\
  index (resultRow w') = Table_rowCount (resultTable w) /\
  Table_rowCount (resultTable w') = toUint32 (Table_rowCount (resultTable w) + 1).
Proof.
  intros Hall w'. unfold w', resultWriter, addRows, Header_addRows. simpl.
  match goal with |- context [foldl _ ?w0 writers] =>
    destruct (fieldWriters_frame writers i w0 Hall) as (H1 & H2 & H3 & H4 & H5 & H6 & H7)
  end.
  simpl in *. unfold Table_rowCount.
  rewrite H1, H2, H3, H4, H5, H6, H7. simpl. repeat split; reflexivity.
Qed.

Section ScanFacts.

Variable tbl : Table.
Variable tester : Tester.
Variable test : Z -> bool.
Variable writer : Z -> World -> World.
Variable n b : Z.

Hypothesis tester_total :
  forall w, mTable w = tbl -> tester w = Ok (test (index (mRow w))).

Hypothesis writer_frame :
  forall i w,
    mTable (writer i w) = mTable w /\ indices0 (writer i w) = indices0 w /\
    visited (writer i w) = visited w /\ written (writer i w) = written w ++ [i] /\
    Table_rowCount (resultTable (writer i w))
    = toUint32 (Table_rowCount (resultTable w) + 1).

Lemma toUint32_succ (x k : Z) : toUint32 (toUint32 (x + k) + 1) = toUint32 (x + (k + 1)).
Proof.
  unfold toUint32. rewrite Zplus_mod_idemp_l. f_equal. lia.
Qed.

Lemma visitRows_log (rs : list Z) (w : World) (k : Z) :
  mTable w = tbl ->
  exists w',
    visitRows tester writer rs w = Ok w' /\
    mTable w' = tbl /\ indices0 w' = indices0 w /\
    visited w' = visited w ++ rs /\
    written w' = written w ++ List.filter test rs /\
    toUint32 (Table_rowCount (resultTable w') + k)
    = toUint32 (Table_rowCount (resultTable w)
                + (Z.of_nat (length (List.filter test rs)) + k)) /\
    (0 <= Table_rowCount (resultTable w) < u32 ->
     0 <= Table_rowCount (resultTable w') < u32).
Proof.
  revert w k. induction rs as [|r rs IH]; intros w k Hw.
  - exists w. simpl. rewrite !app_nil_r. repeat split; auto; lia.
  - simpl. unfold visitRow.
    rewrite tester_total by exact Hw. simpl.
    destruct (test r).
    + destruct (writer_frame r (withRow (setIndex r (mRow w)) (noteVisited r w)))
        as (H1 & H2 & H3 & H4 & H5). simpl in *.
      destruct (IH (writer r (withRow (setIndex r (mRow w)) (noteVisited r w))) k)
        as (w' & Hrun & G1 & G2 & G3 & G4 & G5 & G6); [congruence|].
      exists w'. split; [exact Hrun|].
      assert (Hrange : 0 <= Table_rowCount (resultTable w') < u32).
      { apply G6. rewrite H5. unfold toUint32, u32. apply Z.mod_pos_bound. lia. }
      rewrite G2, G3, G4, G5, H2, H3, H4, H5, <- !app_assoc.
      repeat split; auto; try lia.
      unfold toUint32. rewrite Zplus_mod_idemp_l. f_equal. lia.
    + destruct (IH (withRow (setIndex r (mRow w)) (noteVisited r w)) k)
        as (w' & Hrun & G1 & G2 & G3 & G4 & G5 & G6); [exact Hw|].
      exists w'. split; [exact Hrun|].
      rewrite G2, G3, G4, G5. simpl. rewrite <- !app_assoc.
      repeat split; auto; apply G6; assumption.
Qed.

Hypothesis batch_positive : 0 < b.

(** The scan from a cursor value that reaches or passes [n] after [j]
    more claims without wrapping around. *)
Lemma scanLoop_log (j : nat) (w : World) (k : Z) :
  mTable w = tbl ->
  0 <= indices0 w ->
  n <= indices0 w + Z.of_nat j * b < u32 ->
  exists w' last,
    scanLoop (S j) tester writer n b w = Some (Ok w') /\
    mTable w' = tbl /\
    visited w' = visited w ++ seqZ (indices0 w) (n - indices0 w) /\
    written w' = written w ++ List.filter test (seqZ (indices0 w) (n - indices0 w)) /\
    toUint32 (Table_rowCount (resultTable w') + k)
    = toUint32 (Table_rowCount (resultTable w)
        + (Z.of_nat (length (List.filter test (seqZ (indices0 w) (n - indices0 w)))) + k)) /\
    (0 <= Table_rowCount (resultTable w) < u32 ->
     0 <= Table_rowCount (resultTable w') < u32) /\
    n <= last /\ (last < n + b \/ last = indices0 w) /\
    indices0 w' = toUint32 (last + b).
Proof.
  revert w k. induction j as [|j IH]; intros w k Hw Hc Hj.
  - exists (withIndices0 (toUint32 (indices0 w + b)) w), (indices0 w).
    simpl. destruct (Z.ltb_spec (indices0 w) n) as [H|H]; [lia|].
    rewrite seqZ_nil by lia. simpl. rewrite !app_nil_r.
    repeat split; auto; lia.
  - change (scanLoop (S (S j)) tester writer n b w) with
      (let '(i, w1) := Atomize_add b w in
       if i <? n then
         match visitRows tester writer (seqZ i (Z.min (i + b) n - i)) w1 with
         | Ok w2 => scanLoop (S j) tester writer n b w2
         | Throw e => Some (Throw e)
         end
       else Some (Ok w1)).
    unfold Atomize_add. cbv iota beta.
    set (c := indices0 w) in *.
    destruct (Z.ltb_spec c n) as [Hlt|Hge].
    + assert (Hnowrap : toUint32 (c + b) = c + b).
      { unfold toUint32. apply Z.mod_small. nia. }
      assert (Hsplit : seqZ c (n - c)
                = seqZ c (Z.min (c + b) n - c) ++ seqZ (c + b) (n - (c + b))).
      { destruct (Z_lt_le_dec (c + b) n) as [Hin|Hout].
        - rewrite Z.min_l by lia.
          replace (n - c) with ((c + b - c) + (n - (c + b))) at 1 by lia.
          rewrite seqZ_app by lia.
          replace (c + (c + b - c)) with (c + b) by lia. reflexivity.
        - rewrite Z.min_r by lia.
          rewrite (seqZ_nil (c + b)) by lia. rewrite app_nil_r. reflexivity. }
      set (rs1 := seqZ c (Z.min (c + b) n - c)) in *.
      destruct (visitRows_log rs1 (withIndices0 (toUint32 (c + b)) w)
                  (Z.of_nat (length (List.filter test (seqZ (c + b) (n - (c + b))))) + k))
        as (w2 & Hrun & G1 & G2 & G3 & G4 & G5 & G6); [exact Hw|].
      rewrite Hrun. simpl in G2, G3, G4, G5, G6. rewrite Hnowrap in G2.
      destruct (IH w2 k) as (w' & last & Hloop & F1 & F2 & F3 & F4 & F8 & F5 & F6 & F7);
        [exact G1|lia|rewrite G2; nia|].
      rewrite G2 in F2, F3, F4.
      exists w', last. split; [exact Hloop|]. split; [exact F1|].
      rewrite F2, F3, F4, F7, G3, G4, G5, <- !app_assoc.
      rewrite Hsplit, List.filter_app, length_app, Nat2Z.inj_add.
      repeat split; auto; try (apply F8, G6; assumption).
      * f_equal. lia.
      * destruct F6 as [F6|F6]; [left; exact F6|].
        left. rewrite F6, G2.
        destruct (Z_lt_le_dec (c + b) n); lia.
    + exists (withIndices0 (toUint32 (c + b)) w), c.
      simpl. rewrite seqZ_nil by lia. simpl. rewrite !app_nil_r.
      repeat split; auto; lia.
Qed.

(** A batch size that is a multiple of [2^32] leaves the cursor where it
    is: from a cursor below [n] the scan claims the same rows again and
    again and never ends. *)
Lemma scanLoop_stuck (fuel : nat) (w : World) :
  toUint32 b = 0 ->
  mTable w = tbl ->
  0 <= indices0 w < n ->
  indices0 w < u32 ->
  scanLoop fuel tester writer n b w = None.
Proof.
  intros Hwrap. revert w. induction fuel as [|fuel IH]; intros w Hw Hc Hu; [reflexivity|].
  change (scanLoop (S fuel) tester writer n b w) with
    (let '(i, w1) := Atomize_add b w in
     if i <? n then
       match visitRows tester writer (seqZ i (Z.min (i + b) n - i)) w1 with
       | Ok w2 => scanLoop fuel tester writer n b w2
       | Throw e => Some (Throw e)
       end
     else Some (Ok w1)).
  unfold Atomize_add. cbv iota beta.
  destruct (Z.ltb_spec (indices0 w) n) as [_|H]; [|lia].
  assert (Hsame : toUint32 (indices0 w + b) = indices0 w).
  { unfold toUint32 in *. rewrite Z.add_mod by (unfold u32; lia).
    rewrite Hwrap, Z.add_0_r, Z.mod_mod by (unfold u32; lia).
    apply Z.mod_small. lia. }
  destruct (visitRows_log (seqZ (indices0 w) (Z.min (indices0 w + b) n - indices0 w))
              (withIndices0 (toUint32 (indices0 w + b)) w) 0)
    as (w2 & Hrun & G1 & G2 & _); [exact Hw|].
  rewrite Hrun. simpl in G2. rewrite Hsame in G2.
  apply IH; [exact G1|rewrite G2; exact Hc|rewrite G2; exact Hu].
Qed.

End ScanFacts.

Lemma compiled_writer_frame (_DEBUG : bool) (description : list ResultDescriptionEntry)
  (w w0 : World) (writer : Z -> World -> World) :
  _generateResultWriter _DEBUG description w = Ok (writer, w0) ->
  (mTable w0 = mTable w /\ indices0 w0 = indices0 w /\
   visited w0 = visited w /\ written w0 = written w /\
   resultTable w0 = resultTable w) /\
  forall i w1,
    mTable (writer i w1) = mTable w1 /\ indices0 (writer i w1) = indices0 w1 /\
    visited (writer i w1) = visited w1 /\ written (writer i w1) = written w1 ++ [i] /\
    Table_rowCount (resultTable (writer i w1))
    = toUint32 (Table_rowCount (resultTable w1) + 1).
Proof.
  intros Hgen.
  destruct (generateResultWriter_inv _ _ _ _ _ Hgen) as (row & ws & _ & -> & Hpush & ->).
  split; [repeat split|].
  intros i w1.
  pose proof (forPush_Forall _ writesOneCell _ _
                (generateFieldWriter_writesOneCell (mTable w) (resultTable w)) Hpush) as Hall.
  destruct (resultWriter_frame ws i w1 Hall) as (H1 & _ & H3 & H4 & H5 & _ & H7).
  repeat split; assumption.
Qed.

(** The scan of one worker from cursor 0, with a tester that is a total
    predicate of the row and a compiled writer. *)
Lemma scan_single_worker_log (_DEBUG : bool) (tester : Tester) (test : Z -> bool)
  (description : list ResultDescriptionEntry) (writer : Z -> World -> World)
  (b j : Z) (w w0 : World) :
  0 < b ->
  0 <= Table_rowCount (mTable w) <= j * b ->
  j * b < u32 ->
  indices0 w = 0 ->
  (forall w', mTable w' = mTable w -> tester w' = Ok (test (index (mRow w')))) ->
  _generateResultWriter _DEBUG description w = Ok (writer, w0) ->
  exists fuel w' last,
    scanLoop fuel tester writer (Table_rowCount (mTable w)) b w0 = Some (Ok w') /\
    visited w' = visited w ++ seqZ 0 (Table_rowCount (mTable w)) /\
    written w' = written w ++ List.filter test (seqZ 0 (Table_rowCount (mTable w))) /\
    toUint32 (Table_rowCount (resultTable w'))
    = toUint32 (Table_rowCount (resultTable w)
        + Z.of_nat (length (List.filter test (seqZ 0 (Table_rowCount (mTable w)))))) /\
    (0 <= Table_rowCount (resultTable w) < u32 ->
     0 <= Table_rowCount (resultTable w') < u32) /\
    Table_rowCount (mTable w) <= last < Table_rowCount (mTable w) + b /\
    indices0 w' = toUint32 (last + b).
Proof.
  intros Hb Hn Hj Hc Htest Hgen.
  destruct (compiled_writer_frame _ _ _ _ _ Hgen) as ((E1 & E2 & E3 & E4 & E5) & Hframe).
  set (n := Table_rowCount (mTable w)) in *.
  assert (Hj0 : 0 <= j) by nia.
  destruct (scanLoop_log (mTable w) tester test writer n b Htest Hframe Hb
              (Z.to_nat j) w0 0)
    as (w' & last & Hrun & F1 & F2 & F3 & F4 & F8 & F5 & F6 & F7).
  - exact E1.
  - rewrite E2, Hc. lia.
  - rewrite E2, Hc, Z2Nat.id by lia. lia.
  - rewrite E2, Hc in *. rewrite Z.sub_0_r in *. rewrite E3 in F2. rewrite E4 in F3.
    rewrite E5, !Z.add_0_r in F4. rewrite E5 in F8.
    exists (S (Z.to_nat j)), w', last.
    repeat split; try assumption; try (apply F8; assumption); lia.
Qed.

(** C2 (as amended).  One worker, cursor at 0, a tester that is a total
    predicate [test] of the row the cursor is on, a batch size [b > 0]
    with a multiple [j * b] that reaches the row count without passing
    [2^32] (the cursor is a Uint32; [rowCount + b <= 2^32] is enough).
    Then the scan ends; it positions the cursor on the rows
    [0 .. rowCount - 1] once each in ascending order, calls the writer for
    exactly those on which [test] holds, once each and in that order,
    which adds that many rows to the result table; none of this depends
    on [b]; and the claim it stops at starts at or beyond the row count. *)
Theorem scan_single_worker_exact (_DEBUG : bool) (toNum : ByteString -> float)
  (config : Config) (tester : Tester) (test : Z -> bool)
  (writer : Z -> World -> World) (j : Z) (w w0 : World) :
  0 < rowBatchSize config ->
  0 <= Table_rowCount (mTable w) <= j * rowBatchSize config ->
  j * rowBatchSize config < u32 ->
  indices0 w = 0 ->
  _generateExpressionTester toNum (mTable w) (rules config) (mode config) = Ok tester ->
  (forall w', mTable w' = mTable w -> tester w' = Ok (test (index (mRow w')))) ->
  _generateResultWriter _DEBUG (resultDescription config) w = Ok (writer, w0) ->
  exists fuel w' last,
    process _DEBUG toNum fuel config w = Some (Ok w') /\
    visited w' = visited w ++ seqZ 0 (Table_rowCount (mTable w)) /\
    written w' = written w ++ List.filter test (seqZ 0 (Table_rowCount (mTable w))) /\
    toUint32 (Table_rowCount (resultTable w'))
    = toUint32 (Table_rowCount (resultTable w)
        + Z.of_nat (length (List.filter test (seqZ 0 (Table_rowCount (mTable w)))))) /\
    (0 <= Table_rowCount (resultTable w) < u32 ->
     0 <= Table_rowCount (resultTable w') < u32) /\
    Table_rowCount (mTable w) <= last < Table_rowCount (mTable w) + rowBatchSize config /\
    indices0 w' = toUint32 (last + rowBatchSize config).
Proof.
  intros Hb Hn Hj Hc Hcompile Htest Hgen.
  destruct (scan_single_worker_log _DEBUG tester test (resultDescription config) writer
              (rowBatchSize config) j w w0 Hb Hn Hj Hc Htest Hgen)
    as (fuel & w' & last & Hrun & Hrest).
  exists fuel, w', last. split; [|exact Hrest].
  unfold process. rewrite Hcompile, Hgen. exact Hrun.
Qed.

(** With an empty expression the scan writes every row of the table. *)
Lemma empty_expression_scan_writes_every_row (_DEBUG : bool) (toNum : ByteString -> float)
  (config : Config) (writer : Z -> World -> World) (j : Z) (w w0 : World) :
  rules config = None \/ rules config = Some [] ->
  0 < rowBatchSize config ->
  0 <= Table_rowCount (mTable w) <= j * rowBatchSize config ->
  j * rowBatchSize config < u32 ->
  indices0 w = 0 ->
  _generateResultWriter _DEBUG (resultDescription config) w = Ok (writer, w0) ->
  exists fuel w',
    process _DEBUG toNum fuel config w = Some (Ok w') /\
    written w' = written w ++ seqZ 0 (Table_rowCount (mTable w)).
Proof.
  intros Hrules Hb Hn Hj Hc Hgen.
  destruct (scan_single_worker_log _DEBUG filterTesterEmpty (fun _ => true)
              (resultDescription config) writer (rowBatchSize config) j w w0
              Hb Hn Hj Hc (fun w' _ => eq_refl) Hgen)
    as (fuel & w' & last & Hrun & _ & Hw & _).
  exists fuel, w'. split.
  - unfold process. destruct Hrules as [-> | ->]; simpl; rewrite Hgen; exact Hrun.
  - rewrite Hw. f_equal. clear. induction (seqZ 0 (Table_rowCount (mTable w))) as [|x l IH];
      simpl; [reflexivity|rewrite IH; reflexivity].
Qed.

Lemma generateFieldWriter_entryEffect (src res : Table) (d : ResultDescriptionEntry)
  (fw : FieldWriter) :
  generateFieldWriter src res d = Ok fw ->
  forall i w, fw i w = entryEffect src res i w d.
Proof.
  unfold generateFieldWriter, entryEffect, truthy, accessor, storeByName.
  destruct (as_ d) as [| | | | |a]; simpl.
  6: { destruct (String.eqb a EmptyString); simpl.
    + destruct (names res !! EmptyString) as [k'|]; simpl; [|discriminate].
      intros H. inversion H. reflexivity.
    + destruct (names src !! column d) as [k|]; simpl; [|discriminate].
      destruct (names res !! a) as [k'|]; simpl; [|discriminate].
      intros H. inversion H. reflexivity. }
  all: destruct (names res !! EmptyString) as [k'|]; simpl; [|discriminate];
    intros H; inversion H; reflexivity.
Qed.

Lemma fieldWriters_entryEffects (src res : Table) (ds : list ResultDescriptionEntry)
  (ws : list FieldWriter) (i : Z) (w : World) :
  forPush (generateFieldWriter src res) ds = Ok ws ->
  foldl (fun w fw => fw i w) w ws = foldl (entryEffect src res i) w ds.
Proof.
  revert ws w. induction ds as [|d ds IH]; intros ws w H.
  - inversion H. reflexivity.
  - destruct (forPush_cons_Ok _ d ds ws H) as [fw [ws' [-> [Hfw Hws']]]].
    simpl. rewrite (generateFieldWriter_entryEffect src res d fw Hfw).
    apply IH. exact Hws'.
Qed.

(** C3 (as amended).  For every result description whose writer compiles,
    a call of the writer with source row index [i] first takes a new
    result row with [addRows(1)] and puts the result cursor on it, and
    then applies the entries in order: an entry whose [as] is present and
    not empty copies source column [column] into result column [as], any
    other entry writes [i] into the result column named by the empty
    string. *)
Theorem result_writer_allocates_then_writes_in_order (_DEBUG : bool)
  (description : list ResultDescriptionEntry) (w w0 : World)
  (writer : Z -> World -> World) :
  _generateResultWriter _DEBUG description w = Ok (writer, w0) ->
  forall i w1,
    let old := Table_rowCount (resultTable w1) in
    let positioned :=
      withResult (snd (addRows 1 (resultTable w1))) (setIndex old (resultRow w1))
                 (noteWritten i w1) in
    fst (addRows 1 (resultTable w1)) = old /\
    writer i w1 = foldl (entryEffect (mTable w) (resultTable w) i) positioned description /\
    index (resultRow (writer i w1)) = old /\
    Table_rowCount (resultTable (writer i w1)) = toUint32 (old + 1).
Proof.
  intros Hgen i w1 old positioned.
  destruct (generateResultWriter_inv _ _ _ _ _ Hgen) as (row & ws & _ & _ & Hpush & ->).
  pose proof (forPush_Forall _ writesOneCell _ _
                (generateFieldWriter_writesOneCell (mTable w) (resultTable w)) Hpush) as Hall.
  destruct (resultWriter_frame ws i w1 Hall) as (_ & _ & _ & _ & _ & H6 & H7).
  split; [reflexivity|]. split; [|split; assumption].
  unfold resultWriter.
  change (addRows 1 (resultTable w1)) with (old, snd (addRows 1 (resultTable w1))).
  cbv iota beta.
  apply (fieldWriters_entryEffects _ _ _ _ i _ Hpush).
Qed.

Lemma forPush_ext_at {A B} (f : A -> result B) (l1 : list A) (a a' : A) (l2 : list A) :
  f a = f a' -> forPush f (l1 ++ a :: l2) = forPush f (l1 ++ a' :: l2).
Proof.
  intros H. induction l1 as [|x l1 IH]; simpl.
  - rewrite H. reflexivity.
  - rewrite IH. reflexivity.
Qed.

(** C2 as stated fails for a batch size the Uint32 cursor cannot hold.
    With [rowBatchSize = 2^32 + 1] on a table of two rows the cursor
    advances by 1 per claim, so row 1 is claimed twice and written twice.
    With [rowBatchSize = 2^32] the cursor does not advance at all and the
    scan never ends. *)
Lemma scan_batch_beyond_uint32_repeats_rows :
  (scanSummary (process false toNumberNaN 3 wrapping_config
                  (worldAt (idTable 2) emptyResult 0))
   = Some ([0; 1; 1], [0; 1; 1], 3) /\
   List.filter (fun _ => true) (seqZ 0 2) = [0; 1]) /\
  (forall fuel,
     process false toNumberNaN fuel stuck_config (worldAt (idTable 2) emptyResult 0)
     = None).
Proof.
  split; [split; vm_compute; reflexivity|].
  intros fuel.
  set (w := worldAt (idTable 2) emptyResult 0).
  destruct (compiled_writer_frame false S6_description w
              (readyWorld S6_description w) (writerOf S6_description w) eq_refl)
    as [_ Hframe].
  apply (scanLoop_stuck (idTable 2) filterTesterEmpty (fun _ => true)
           (writerOf S6_description w) 2 4294967296
           (fun w' _ => eq_refl) Hframe fuel (readyWorld S6_description w)).
  - reflexivity.
  - reflexivity.
  - change (indices0 (readyWorld S6_description w)) with 0. lia.
  - reflexivity.
Qed.

Lemma result_writer_witness :
  let w := worldAt peopleTable emptyResult 1 in
  let old := Table_rowCount (resultTable (readyWorld S6_description w)) in
  let positioned :=
    withResult (snd (addRows 1 (resultTable (readyWorld S6_description w))))
               (setIndex old (resultRow (readyWorld S6_description w)))
               (noteWritten 1 (readyWorld S6_description w)) in
  fst (addRows 1 (resultTable (readyWorld S6_description w))) = old /\
  writerOf S6_description w 1 (readyWorld S6_description w)
  = foldl (entryEffect (mTable w) (resultTable w) 1) positioned S6_description /\
  index (resultRow (writerOf S6_description w 1 (readyWorld S6_description w))) = old /\
  Table_rowCount (resultTable (writerOf S6_description w 1 (readyWorld S6_description w)))
  = toUint32 (old + 1).
Proof.
  exact (result_writer_allocates_then_writes_in_order false S6_description
           (worldAt peopleTable emptyResult 1)
           (readyWorld S6_description (worldAt peopleTable emptyResult 1))
           (writerOf S6_description (worldAt peopleTable emptyResult 1))
           eq_refl 1
           (readyWorld S6_description (worldAt peopleTable emptyResult 1))).
Defined.

(** Scenario S6 on the people table: the matched source row 1 lands in
    result row 0 as [(2, 1)]. *)
Example S6_row :
  let w := worldAt peopleTable emptyResult 1 in
  resultRows 1 (writerOf S6_description w 1 (readyWorld S6_description w))
  = [(VNum 2%float, VNum 1%float)].
Proof. vm_compute. reflexivity. Qed.

(** C3 as stated fails for an entry whose [as] is present but empty: the
    claim has the source column [id] (1 in row 0 of the people table)
    copied into the result column named by the empty string; the writer
    stores the source row index 0 there. *)
Lemma result_writer_empty_as_stores_index :
  let w := worldAt peopleTable emptyResult 0 in
  getCell (resultTable (writerOf emptyAs_description w 0 (readyWorld emptyAs_description w)))
          0 1 = VNum 0%float /\
  getter 0 (readyWorld emptyAs_description w) = VNum 1%float /\
  PrimFloat.eqb 0%float 1%float = false.
Proof. repeat split; vm_compute; reflexivity. Qed.

(** ** Scenario S4: [in] on the id column *)

Lemma filterIn_number_spec (toTest : JsValue) (values : list float) :
  filterIn_number toTest values = true <->
  exists v, In v values /\ strictEquals toTest v = true.
Proof.
  induction values as [|v values IH]; simpl.
  - split; [discriminate|intros [v [[] _]]].
  - destruct (strictEquals toTest v) eqn:Hv.
    + split; [|reflexivity]. intros _. exists v. auto.
    + rewrite IH. split.
      * intros [v' [Hin Heq]]. exists v'. auto.
      * intros [v' [[<-|Hin] Heq]]; [congruence|]. exists v'. auto.
Qed.

Lemma filterIn_number_first (toTest : JsValue) (vs1 : list float) (v : float)
  (vs2 : list float) :
  strictEquals toTest v = true -> filterIn_number toTest (vs1 ++ v :: vs2) = true.
Proof.
  intros Hv. apply filterIn_number_spec. exists v. split; [|exact Hv].
  apply in_or_app. right. left. reflexivity.
Qed.

(** On a table where [id] is a numeric column the S4 rule compiles to the
    numeric [in] tester over the parsed values. *)
Lemma S4_rule_compiled (toNum : ByteString -> float) (src : Table) (k : nat) (c : Column) :
  names src !! "id" = Some k ->
  columns (header src) !! k = Some c ->
  ColumnType_eqb (type c) ByteStringType = false ->
  _generateRuleTester toNum src S4_rule
  = Ok (Some (fun w => Ok (filterIn_number (getter k w) S4_values))).
Proof.
  intros Hname Hcol Htype.
  unfold _generateRuleTester, accessor, columnIsByteString.
  change (field S4_rule) with "id". rewrite Hname. simpl.
  rewrite Hcol. simpl. rewrite Htype. reflexivity.
Qed.

Lemma S4_tester_compiled (toNum : ByteString -> float) (src : Table) (k : nat) (c : Column) :
  names src !! "id" = Some k ->
  columns (header src) !! k = Some c ->
  ColumnType_eqb (type c) ByteStringType = false ->
  _generateExpressionTester toNum src (Some [[S4_rule]]) FilterExpressionMode.DNF
  = Ok (S4_tester k).
Proof.
  intros Hname Hcol Htype.
  unfold _generateExpressionTester, _generateClauseTester. simpl.
  rewrite (S4_rule_compiled toNum src k c Hname Hcol Htype). reflexivity.
Qed.

Lemma S4_tester_total (src : Table) (k : nat) (w : World) :
  mTable w = src ->
  S4_tester k w = Ok (filterIn_number (getCell src (index (mRow w)) k) S4_values).
Proof.
  intros Hw.
  unfold S4_tester, filterTesterDNF, ruleTesterDNF, callTester, getter.
  rewrite Hw.
  destruct (filterIn_number (getCell src (index (mRow w)) k) S4_values); reflexivity.
Qed.

Lemma S4_selection : List.filter S4_test (seqZ 0 1000) = [7; 42; 999].
Proof. vm_compute. reflexivity. Qed.

(** The rows selected on any table whose [id] column holds [0 .. 999]. *)
Lemma S4_selection_on (src : Table) (k : nat) :
  (forall r, 0 <= r < 1000 -> getCell src r k = VNum (Z2float r)) ->
  List.filter (fun r => filterIn_number (getCell src r k) S4_values) (seqZ 0 1000)
  = [7; 42; 999].
Proof.
  intros Hid. rewrite <- S4_selection.
  apply List.filter_ext_in. intros r Hr.
  apply list_elem_of_In, elem_of_seqZ in Hr.
  unfold S4_test. rewrite Hid by lia. reflexivity.
Qed.

Lemma scan_single_worker_witness :
  exists fuel w' last,
    process false toNumberNaN fuel (S4_config 8) (worldAt (idTable 50) emptyResult 0)
    = Some (Ok w') /\
    visited w' = [] ++ seqZ 0 50 /\
    written w' = [] ++ List.filter S4_test (seqZ 0 50) /\
    toUint32 (Table_rowCount (resultTable w'))
    = toUint32 (0 + Z.of_nat (length (List.filter S4_test (seqZ 0 50)))) /\
    (0 <= 0 < u32 -> 0 <= Table_rowCount (resultTable w') < u32) /\
    50 <= last < 50 + 8 /\
    indices0 w' = toUint32 (last + 8).
Proof.
  apply (scan_single_worker_exact false toNumberNaN (S4_config 8) (S4_tester 0) S4_test
           (writerOf S6_description (worldAt (idTable 50) emptyResult 0))
           7 (worldAt (idTable 50) emptyResult 0)
           (readyWorld S6_description (worldAt (idTable 50) emptyResult 0))).
  - simpl. lia.
  - unfold Table_rowCount. simpl. lia.
  - vm_compute. reflexivity.
  - reflexivity.
  - reflexivity.
  - intros w' Hw'. apply (S4_tester_total (idTable 50) 0 w' Hw').
  - reflexivity.
Defined.

(** The rows that scan writes. *)
Example scan_single_worker_rows : List.filter S4_test (seqZ 0 50) = [7; 42].
Proof. vm_compute. reflexivity. Qed.

(** Scenario S5's batch sizes on one worker, in a build without [_DEBUG]:
    the same three result rows, each holding the id and the source row
    index. *)
Example S4_result_rows :
  map (fun b =>
         match process false toNumberNaN 1001 (S4_config b)
                 (worldAt (idTable 1000) emptyResult 0) with
         | Some (Ok w) => (Table_rowCount (resultTable w), resultRows 3 w)
         | _ => (0, [])
         end) [1; 7; 128]
  = repeat (3, [ (VNum 7%float, VNum 7%float);
                 (VNum 42%float, VNum 42%float);
                 (VNum 999%float, VNum 999%float) ]) 3.
Proof. vm_compute. reflexivity. Qed.

(** ** The message protocol *)

Section Protocol.

Variable _DEBUG : bool.
Variable ByteString_toNumber : ByteString -> float.

Local Abbreviation onMessage := (filterWorkerOnMessage _DEBUG ByteString_toNumber).

(** A handler run that returns has posted exactly one reply and has not
    dropped the processor. *)
Lemma onMessage_returned (fuel : nat) (m : Message) (st st' : Worker) :
  onMessage fuel m st = Some (Returned st') ->
  (exists r, posted st' = posted st ++ [r]) /\
  (is_Some (gProcessor st) -> is_Some (gProcessor st')).
Proof.
  destruct m as [table|options|type]; simpl.
  - destruct (gProcessor st) as [p|] eqn:Hp.
    + intros H. inversion H. simpl. rewrite Hp. split; [eexists; reflexivity|auto].
    + destruct (new_FilterProcessor _DEBUG table) as [p|e]; [|discriminate].
      intros H. inversion H. simpl. split; [eexists; reflexivity|eauto].
  - destruct (gProcessor st) as [p|] eqn:Hp.
    + destruct (process _ _ fuel options (worldOf p (shared st))) as [[w|e]|];
        try discriminate.
      intros H. inversion H. simpl. split; [eexists; reflexivity|eauto].
    + intros H. inversion H. simpl. rewrite Hp. split; [eexists; reflexivity|auto].
  - intros H. inversion H. simpl. split; [eexists; reflexivity|auto].
Qed.

Lemma handleAll_returned (fuel : nat) (messages : list Message) (st st' : Worker) :
  handleAll _DEBUG ByteString_toNumber fuel messages st = Some (Returned st') ->
  length (posted st') = (length (posted st) + length messages)%nat /\
  (is_Some (gProcessor st) -> is_Some (gProcessor st')).
Proof.
  revert st. induction messages as [|m messages IH]; intros st; simpl.
  - intros H. inversion H. split; [lia|auto].
  - destruct (onMessage fuel m st) as [[st1|e replies]|] eqn:Hm; try discriminate.
    intros H. destruct (IH st1 H) as [Hlen Hproc].
    destruct (onMessage_returned fuel m st st1 Hm) as [[r Hr] Hkeep].
    split; [|auto]. rewrite Hlen, Hr, length_app. simpl. lia.
Qed.

(** C6 (as amended).  In every state of the worker: [initialize] while a
    processor is held, [processFilters] while none is held, and a message
    of any other type each post one [error] reply and change nothing
    else.  [initialize] while no processor is held builds the processor
    and posts [success], unless the constructor throws (the debug bounds
    check of [getBinaryRow(0)]).  [processFilters] while a processor is
    held posts [success] when [process] returns; when [process] throws,
    the exception leaves the handler and nothing is posted; when the scan
    does not end, nothing is posted either.  Over any sequence of
    messages on which the handler returns, one reply is posted per
    message and a processor once held stays held. *)
Theorem worker_protocol (fuel : nat) (st : Worker) :
  (forall table, is_Some (gProcessor st) ->
     onMessage fuel (initialize table) st
     = Some (Returned (sendError "ERROR: Worker is already initialized!" st))) /\
  (forall options, gProcessor st = None ->
     onMessage fuel (processFilters options) st
     = Some (Returned (sendError "ERROR: Filter.worker has not been initialized" st))) /\
  (forall type, exists reason,
     onMessage fuel (unrecognized type) st = Some (Returned (sendError reason st))) /\
  (forall reason,
     gProcessor (sendError reason st) = gProcessor st /\
     shared (sendError reason st) = shared st /\
     posted (sendError reason st) = posted st ++ [error reason]) /\
  (forall table, gProcessor st = None ->
     onMessage fuel (initialize table) st
     = if boundsGuard _DEBUG 0 table
       then Some (Uncaught (Thrown "ERROR: Index out of bounds!") (posted st))
       else Some (Returned
              {| gProcessor := Some {| p_mTable := table; p_mRow := newRow 0 true |};
                 posted := posted st ++ [success];
                 shared := shared st |})) /\
  (forall options p, gProcessor st = Some p ->
     onMessage fuel (processFilters options) st
     = match process _DEBUG ByteString_toNumber fuel options (worldOf p (shared st)) with
       | Some (Ok w) =>
           Some (Returned
             {| gProcessor := Some {| p_mTable := mTable w; p_mRow := mRow w |};
                posted := posted st ++ [success];
                shared := {| sResultTable := resultTable w; sIndices0 := indices0 w |} |})
       | Some (Throw e) => Some (Uncaught e (posted st))
       | None => None
       end) /\
  (forall messages st',
     handleAll _DEBUG ByteString_toNumber fuel messages st = Some (Returned st') ->
     length (posted st') = (length (posted st) + length messages)%nat /\
     (is_Some (gProcessor st) -> is_Some (gProcessor st'))).
Proof.
  split; [|split; [|split; [|split; [|split; [|split]]]]].
  - intros table [p Hp]. simpl. rewrite Hp. reflexivity.
  - intros options Hp. simpl. rewrite Hp. reflexivity.
  - intros type. eexists. reflexivity.
  - intros reason. repeat split; reflexivity.
  - intros table Hp. simpl. rewrite Hp. unfold new_FilterProcessor, getBinaryRow.
    destruct (boundsGuard _DEBUG 0 table); reflexivity.
  - intros options p Hp. simpl. rewrite Hp.
    destruct (process _ _ fuel options (worldOf p (shared st))) as [[w|e]|]; reflexivity.
  - intros messages st' H. apply (handleAll_returned fuel messages st st' H).
Qed.

End Protocol.

Lemma worker_protocol_witness :
  filterWorkerOnMessage false toNumberNaN 4 (processFilters (everyRow_config 2))
    initializedWorker
  = match process false toNumberNaN 4 (everyRow_config 2)
            (worldOf {| p_mTable := idTable 3; p_mRow := newRow 0 true |}
                     (shared initializedWorker)) with
    | Some (Ok w) =>
        Some (Returned
          {| gProcessor := Some {| p_mTable := mTable w; p_mRow := mRow w |};
             posted := posted initializedWorker ++ [success];
             shared := {| sResultTable := resultTable w; sIndices0 := indices0 w |} |})
    | Some (Throw e) => Some (Uncaught e (posted initializedWorker))
    | None => None
    end.
Proof.
  destruct (worker_protocol false toNumberNaN 4 initializedWorker)
    as (_ & _ & _ & _ & _ & H & _).
  apply (H (everyRow_config 2) {| p_mTable := idTable 3; p_mRow := newRow 0 true |}).
  reflexivity.
Defined.

(** A run of the protocol in a build without [_DEBUG]: [initialize], a
    scan of every row, a second [initialize], a scan, and a message of an
    unknown type. *)
Example protocol_run :
  match handleAll false toNumberNaN 4
          [ initialize (idTable 3); processFilters (everyRow_config 2);
            initialize (idTable 3); unrecognized "stop" ] freshWorker with
  | Some (Returned st) =>
      Some (posted st, Table_rowCount (sResultTable (shared st)), sIndices0 (shared st))
  | _ => None
  end
  = Some ([ success; success;
            error "ERROR: Worker is already initialized!";
            error ("ERROR: Unrecognized message type " +:+ quote +:+ "stop" +:+ quote) ],
          3, 6).
Proof. vm_compute. reflexivity. Qed.

(** C6 as stated fails where [process] does not return: a scan whose rule
    names a column the table does not have throws while the tester is
    compiled, and a scan with an unknown operation throws on the first
    row.  Neither is caught: the worker posts neither [success] nor
    [error], and its earlier replies are all there is. *)
Lemma processFilters_throwing_scan_posts_nothing :
  filterWorkerOnMessage false toNumberNaN 4 (processFilters missingColumn_config)
    initializedWorker
  = Some (Uncaught (TypeError "Cannot read properties of undefined") [success]) /\
  handleAll false toNumberNaN 4
    [ initialize (idTable 3); processFilters bogus_config ] freshWorker
  = Some (Uncaught (TypeError "testers[i] is not a function") [success]).
Proof. split; vm_compute; reflexivity. Qed.

(** * Further properties of the code *)

(** ** Rule testers: errors and complements *)

Lemma forPush_Throw {A B} (f : A -> result B) (l : list A) (a : A) (e0 : JsError) :
  In a l -> f a = Throw e0 -> exists e, forPush f l = Throw e.
Proof.
  intros Hin Ha. induction l as [|x l IH]; [destruct Hin|].
  simpl. destruct (f x) as [b|e] eqn:Hx; [|eexists; reflexivity].
  destruct Hin as [->|Hin]; [congruence|].
  destruct (IH Hin) as [e He]. rewrite He. eexists. reflexivity.
Qed.

Section RuleFacts.

Variable _DEBUG : bool.
Variable toNum : ByteString -> float.

(** X1.  A rule whose field is not a column of the table does not compile,
    whatever its operation (reading [.getter] of [undefined] comes before
    the [switch]); an expression holding such a rule does not compile in
    any mode, and [process] throws before it claims a batch: it throws
    with any fuel, for every result description and batch size. *)
Theorem missing_column_fails_before_any_row (tbl : Table) (clauses : list FilterClause)
  (m : FilterExpressionMode.t) (c : FilterClause) (r : FilterRule) :
  In c clauses -> In r c -> names tbl !! field r = None ->
  _generateRuleTester toNum tbl r
  = Throw (TypeError "Cannot read properties of undefined") /\
  exists e,
    _generateExpressionTester toNum tbl (Some clauses) m = Throw e /\
    forall fuel description b w,
      mTable w = tbl ->
      process _DEBUG toNum fuel
        {| rules := Some clauses; mode := m;
           resultDescription := description; rowBatchSize := b |} w
      = Some (Throw e).
Proof.
  intros Hc Hr Hname.
  assert (Hrule : _generateRuleTester toNum tbl r
                  = Throw (TypeError "Cannot read properties of undefined")).
  { unfold _generateRuleTester, accessor. rewrite Hname. reflexivity. }
  split; [exact Hrule|].
  destruct (forPush_Throw (_generateRuleTester toNum tbl) c r _ Hr Hrule) as [e1 He1].
  assert (Hclause : _generateClauseTester toNum tbl m c = Throw e1).
  { unfold _generateClauseTester. rewrite He1. reflexivity. }
  destruct (forPush_Throw (_generateClauseTester toNum tbl m) clauses c _ Hc Hclause)
    as [e He].
  exists e.
  assert (Hexpr : _generateExpressionTester toNum tbl (Some clauses) m = Throw e).
  { unfold _generateExpressionTester. destruct clauses as [|c0 cl]; [destruct Hc|].
    rewrite He. reflexivity. }
  split; [exact Hexpr|].
  intros fuel description b w Hw. unfold process. cbn [rules mode].
  rewrite Hw, Hexpr. reflexivity.
Qed.

(** X2.  An [in] or [notIn] rule on an existing column whose value is a
    single string instead of an array does not compile: strings have no
    [map]. *)
Theorem in_with_single_string_fails_compile (tbl : Table) (f s : string)
  (k : nat) (c : Column) :
  names tbl !! f = Some k ->
  columns (header tbl) !! k = Some c ->
  _generateRuleTester toNum tbl
    {| field := f; operation := FilterOperation.in_; value := Scalar s |}
  = Throw (TypeError "rule.value.map is not a function") /\
  _generateRuleTester toNum tbl
    {| field := f; operation := FilterOperation.notIn; value := Scalar s |}
  = Throw (TypeError "rule.value.map is not a function").
Proof.
  intros Hname Hcol.
  unfold _generateRuleTester, accessor, columnIsByteString. simpl.
  rewrite Hname. simpl. rewrite Hcol. simpl.
  destruct (ColumnType_eqb (type c) ByteStringType); split; reflexivity.
Qed.

Lemma filterNotIn_number_negb (toTest : JsValue) (values : list float) :
  filterNotIn_number toTest values = negb (filterIn_number toTest values).
Proof.
  induction values as [|v values IH]; simpl; [reflexivity|].
  destruct (strictEquals toTest v); [reflexivity|exact IH].
Qed.

Lemma filterNotIn_ByteString_negb (toTest : JsValue) (values : list ByteString) :
  filterNotIn_ByteString toTest values = negb <$> filterIn_ByteString toTest values.
Proof.
  induction values as [|v values IH]; simpl; [reflexivity|].
  destruct (call_equalsCase toTest v) as [[|]|e]; [reflexivity|exact IH|reflexivity].
Qed.

(** X3.  The negated operations are the exact complements of their
    positive forms: for the same field and value, on every table and every
    row, [notContains], [notIn] and [notEqual] return the negation of what
    [contains], [in] and [equal] return, and fail exactly where those
    fail, with the same error (at compilation or on the row). *)
Theorem negated_operations_are_complements (tbl : Table) (rule : FilterRule) (w : World) :
  ruleResult toNum tbl (withOperation FilterOperation.notContains rule) w
  = negb <$> ruleResult toNum tbl (withOperation FilterOperation.contains rule) w /\
  ruleResult toNum tbl (withOperation FilterOperation.notIn rule) w
  = negb <$> ruleResult toNum tbl (withOperation FilterOperation.in_ rule) w /\
  ruleResult toNum tbl (withOperation FilterOperation.notEqual rule) w
  = negb <$> ruleResult toNum tbl (withOperation FilterOperation.equal rule) w.
Proof.
  unfold ruleResult, outcome, _generateRuleTester, withOperation. simpl.
  destruct (accessor tbl (field rule)) as [k|e]; simpl; [|repeat split; reflexivity].
  split; [reflexivity|].
  destruct (columnIsByteString tbl k) as [[|]|e]; simpl; [| |repeat split; reflexivity].
  - split; [|reflexivity].
    destruct (value_map ByteString_fromString (value rule)) as [vs|e]; simpl;
      [|reflexivity].
    apply filterNotIn_ByteString_negb.
  - split; [|reflexivity].
    destruct (value_map parseFloat (value rule)) as [vs|e]; simpl; [|reflexivity].
    rewrite filterNotIn_number_negb. reflexivity.
Qed.

Lemma eqb_nan_r (x : float) : PrimFloat.eqb x nan = false.
Proof.
  rewrite FloatAxioms.eqb_spec. change (Prim2SF nan) with S754_nan.
  unfold SFeqb, SFcompare. destruct (Prim2SF x); reflexivity.
Qed.

Lemma ltb_nan_r (x : float) : PrimFloat.ltb x nan = false.
Proof.
  rewrite FloatAxioms.ltb_spec. change (Prim2SF nan) with S754_nan.
  unfold SFltb, SFcompare. destruct (Prim2SF x); reflexivity.
Qed.

Lemma ltb_nan_l (x : float) : PrimFloat.ltb nan x = false.
Proof.
  rewrite FloatAxioms.ltb_spec. change (Prim2SF nan) with S754_nan.
  reflexivity.
Qed.

Lemma leb_nan_r (x : float) : PrimFloat.leb x nan = false.
Proof.
  rewrite FloatAxioms.leb_spec. change (Prim2SF nan) with S754_nan.
  unfold SFleb, SFcompare. destruct (Prim2SF x); reflexivity.
Qed.

Lemma leb_nan_l (x : float) : PrimFloat.leb nan x = false.
Proof.
  rewrite FloatAxioms.leb_spec. change (Prim2SF nan) with S754_nan.
  reflexivity.
Qed.

Lemma strictEquals_nan (v : JsValue) : strictEquals v nan = false.
Proof. destruct v as [x|s]; [apply eqb_nan_r|reflexivity]. Qed.

(** X4.  A comparison value that does not parse as a number is not an
    error: it compiles to NaN, and then on every row of a numeric column
    [equal], [greaterThan], [greaterThanOrEqual], [lessThan] and
    [lessThanOrEqual] are false and [notEqual] is true, whatever the
    field holds. *)
Theorem unparsable_number_matches_nothing (tbl : Table) (rule : FilterRule)
  (k : nat) (c : Column) (w : World) :
  names tbl !! field rule = Some k ->
  columns (header tbl) !! k = Some c ->
  ColumnType_eqb (type c) ByteStringType = false ->
  parseFloat (valueToString (value rule)) = nan ->
  ruleResult toNum tbl (withOperation FilterOperation.equal rule) w = Ok false /\
  ruleResult toNum tbl (withOperation FilterOperation.notEqual rule) w = Ok true /\
  ruleResult toNum tbl (withOperation FilterOperation.greaterThan rule) w = Ok false /\
  ruleResult toNum tbl (withOperation FilterOperation.greaterThanOrEqual rule) w = Ok false /\
  ruleResult toNum tbl (withOperation FilterOperation.lessThan rule) w = Ok false /\
  ruleResult toNum tbl (withOperation FilterOperation.lessThanOrEqual rule) w = Ok false.
Proof.
  intros Hname Hcol Htype Hnan.
  unfold ruleResult, outcome, _generateRuleTester, withOperation, accessor,
    columnIsByteString. simpl.
  rewrite Hname. simpl. rewrite Hcol. simpl. rewrite Htype, Hnan. simpl.
  rewrite strictEquals_nan, ltb_nan_l, ltb_nan_r, leb_nan_l, leb_nan_r.
  repeat split; reflexivity.
Qed.

(** X5.  [contains] and [notContains] compile on every existing column,
    numeric ones too, and then raise a TypeError on each row whose field
    is a number: the failure comes when the row is tested. *)
Theorem text_search_on_number_fails_on_the_row (tbl : Table) (rule : FilterRule)
  (k : nat) (x : float) (w : World) :
  names tbl !! field rule = Some k ->
  getter k w = VNum x ->
  (exists t, _generateRuleTester toNum tbl (withOperation FilterOperation.contains rule)
             = Ok (Some t)) /\
  (exists t, _generateRuleTester toNum tbl (withOperation FilterOperation.notContains rule)
             = Ok (Some t)) /\
  ruleResult toNum tbl (withOperation FilterOperation.contains rule) w
  = Throw (TypeError "getter(...).containsCase is not a function") /\
  ruleResult toNum tbl (withOperation FilterOperation.notContains rule) w
  = Throw (TypeError "getter(...).containsCase is not a function").
Proof.
  intros Hname Hcell.
  unfold ruleResult, outcome, _generateRuleTester, withOperation, accessor. simpl.
  rewrite Hname. simpl. rewrite Hcell. simpl.
  repeat split; try (eexists; reflexivity).
Qed.

End RuleFacts.

Lemma missing_column_witness :
  _generateRuleTester toNumberNaN (idTable 3) (mkRule "age" FilterOperation.equal "1")
  = Throw (TypeError "Cannot read properties of undefined") /\
  exists e,
    _generateExpressionTester toNumberNaN (idTable 3)
      (Some [[ mkRule "age" FilterOperation.equal "1" ]]) FilterExpressionMode.DNF
    = Throw e /\
    forall fuel description b w,
      mTable w = idTable 3 ->
      process false toNumberNaN fuel
        {| rules := Some [[ mkRule "age" FilterOperation.equal "1" ]];
           mode := FilterExpressionMode.DNF;
           resultDescription := description; rowBatchSize := b |} w
      = Some (Throw e).
Proof.
  apply (missing_column_fails_before_any_row false toNumberNaN (idTable 3)
           [[ mkRule "age" FilterOperation.equal "1" ]] FilterExpressionMode.DNF
           [ mkRule "age" FilterOperation.equal "1" ]
           (mkRule "age" FilterOperation.equal "1")).
  - left. reflexivity.
  - left. reflexivity.
  - reflexivity.
Defined.

Lemma in_with_single_string_witness :
  _generateRuleTester toNumberNaN (idTable 3)
    {| field := "id"; operation := FilterOperation.in_; value := Scalar "7" |}
  = Throw (TypeError "rule.value.map is not a function") /\
  _generateRuleTester toNumberNaN (idTable 3)
    {| field := "id"; operation := FilterOperation.notIn; value := Scalar "7" |}
  = Throw (TypeError "rule.value.map is not a function").
Proof.
  apply (in_with_single_string_fails_compile toNumberNaN (idTable 3) "id" "7" 0%nat
           {| name := "id"; type := Uint32 |}); reflexivity.
Defined.

Lemma unparsable_number_witness :
  let rule := mkRule "id" FilterOperation.equal "abc" in
  let w := worldAt peopleTable emptyResult 1 in
  ruleResult toNumberNaN peopleTable (withOperation FilterOperation.equal rule) w = Ok false /\
  ruleResult toNumberNaN peopleTable (withOperation FilterOperation.notEqual rule) w = Ok true /\
  ruleResult toNumberNaN peopleTable (withOperation FilterOperation.greaterThan rule) w
  = Ok false /\
  ruleResult toNumberNaN peopleTable (withOperation FilterOperation.greaterThanOrEqual rule) w
  = Ok false /\
  ruleResult toNumberNaN peopleTable (withOperation FilterOperation.lessThan rule) w
  = Ok false /\
  ruleResult toNumberNaN peopleTable (withOperation FilterOperation.lessThanOrEqual rule) w
  = Ok false.
Proof.
  apply (unparsable_number_matches_nothing toNumberNaN peopleTable
           (mkRule "id" FilterOperation.equal "abc") 0%nat
           {| name := "id"; type := Uint32 |} (worldAt peopleTable emptyResult 1));
    reflexivity.
Defined.

(** A comparison value is parsed after all the white space and line
    terminators it starts with, those beyond ASCII too: a space, the
    controls, U+00A0, U+1680, U+2000, U+200A, U+2028, U+2029, U+202F,
    U+205F, U+3000, U+FEFF, and a run of several. *)
Example parseFloat_trims_white_space :
  map (fun bs => parseFloat (withBytes bs "42"))
      [ [32]; [9; 10; 11; 12; 13]; [194; 160]; [225; 154; 128]; [226; 128; 128];
        [226; 128; 138]; [226; 128; 168]; [226; 128; 169]; [226; 128; 175];
        [226; 129; 159]; [227; 128; 128]; [239; 187; 191];
        [32; 194; 160; 9; 239; 187; 191] ]%nat
  = repeat 42%float 13.
Proof. vm_compute. reflexivity. Qed.

(** Other code points are not skipped: U+0085, U+200B, U+180E, and a
    letter, leave a value that does not parse. *)
Example parseFloat_keeps_other_code_points :
  map (fun bs => PrimFloat.is_nan (parseFloat (withBytes bs "42")))
      [ [194; 133]; [226; 128; 139]; [225; 160; 142]; [120] ]%nat
  = [true; true; true; true].
Proof. vm_compute. reflexivity. Qed.

(** So a value written with a no-break space before the digits matches
    the row that holds the number. *)
Example no_break_space_before_a_number :
  map (fun r => ruleResult toNumberNaN (idTable 50)
                  (mkRule "id" FilterOperation.equal (withBytes [194; 160]%nat "42"))
                  (worldAt (idTable 50) emptyResult r)) [41; 42]
  = [Ok false; Ok true].
Proof. vm_compute. reflexivity. Qed.

Lemma text_search_on_number_witness :
  let rule := mkRule "id" FilterOperation.contains "1" in
  let w := worldAt peopleTable emptyResult 0 in
  (exists t, _generateRuleTester toNumberNaN peopleTable
               (withOperation FilterOperation.contains rule) = Ok (Some t)) /\
  (exists t, _generateRuleTester toNumberNaN peopleTable
               (withOperation FilterOperation.notContains rule) = Ok (Some t)) /\
  ruleResult toNumberNaN peopleTable (withOperation FilterOperation.contains rule) w
  = Throw (TypeError "getter(...).containsCase is not a function") /\
  ruleResult toNumberNaN peopleTable (withOperation FilterOperation.notContains rule) w
  = Throw (TypeError "getter(...).containsCase is not a function").
Proof.
  apply (text_search_on_number_fails_on_the_row toNumberNaN peopleTable
           (mkRule "id" FilterOperation.contains "1") 0%nat 1%float
           (worldAt peopleTable emptyResult 0)); reflexivity.
Defined.

(** ** Expressions: modes, nesting and duality *)

Lemma forPush_ext {A B} (f g : A -> result B) (l : list A) :
  (forall a, f a = g a) -> forPush f l = forPush g l.
Proof.
  intros H. induction l as [|a l IH]; simpl; [reflexivity|].
  rewrite H, IH. reflexivity.
Qed.

Section ExpressionFacts.

Variable toNum : ByteString -> float.

Local Abbreviation generateRule := (_generateRuleTester toNum).
Local Abbreviation generateClause := (_generateClauseTester toNum).
Local Abbreviation generateExpression := (_generateExpressionTester toNum).

Lemma generateExpression_mode (tbl : Table) (E : FilterExpression)
  (m1 m2 : FilterExpressionMode.t) :
  modeIsDNF m1 = modeIsDNF m2 ->
  generateExpression tbl E m1 = generateExpression tbl E m2.
Proof.
  intros H. unfold _generateExpressionTester.
  destruct E as [[|c cl]|]; try reflexivity.
  rewrite (forPush_ext (generateClause tbl m1) (generateClause tbl m2)).
  - rewrite H. reflexivity.
  - intros a. unfold _generateClauseTester. rewrite H. reflexivity.
Qed.

(** X6.  Only the two DNF spellings select DNF: every other mode value,
    the two CNF spellings and anything unrecognised alike, compiles to
    the very tester of [CNF], and [disjunctiveNormalForm] to that of
    [DNF].  A misspelt mode is not an error. *)
Theorem unrecognised_mode_is_CNF (tbl : Table) (E : FilterExpression) (m : string) :
  generateExpression tbl E (FilterExpressionMode.other m)
  = generateExpression tbl E FilterExpressionMode.CNF /\
  generateExpression tbl E FilterExpressionMode.conjunctiveNormalForm
  = generateExpression tbl E FilterExpressionMode.CNF /\
  generateExpression tbl E FilterExpressionMode.disjunctiveNormalForm
  = generateExpression tbl E FilterExpressionMode.DNF.
Proof. repeat split; apply generateExpression_mode; reflexivity. Qed.

(** One clause per rule. *)
Lemma forPush_singletons (tbl : Table) (m : FilterExpressionMode.t) (rs : list FilterRule) :
  forPush (generateClause tbl m) (map (fun r => [r]) rs)
  = (map (fun t => if modeIsDNF m then ruleTesterDNF [t] else ruleTesterCNF [t]))
      <$> forPush (generateRule tbl) rs.
Proof.
  induction rs as [|r rs IH]; simpl; [reflexivity|].
  unfold _generateClauseTester at 1. simpl.
  destruct (generateRule tbl r) as [t|e]; simpl; [|reflexivity].
  rewrite IH. destruct (forPush (generateRule tbl) rs) as [ts|e]; simpl;
    destruct (modeIsDNF m); reflexivity.
Qed.

Lemma filterTesterDNF_singletons (ts : list (option Tester)) (w : World) :
  filterTesterDNF (map (fun t => ruleTesterDNF [t]) ts) w = ruleTesterCNF ts w.
Proof.
  induction ts as [|t ts IH]; simpl; [reflexivity|].
  destruct (callTester t w) as [[|]|e]; [reflexivity|exact IH|reflexivity].
Qed.

Lemma filterTesterCNF_singletons (ts : list (option Tester)) (w : World) :
  filterTesterCNF (map (fun t => ruleTesterCNF [t]) ts) w = ruleTesterDNF ts w.
Proof.
  induction ts as [|t ts IH]; simpl; [reflexivity|].
  destruct (callTester t w) as [[|]|e]; [exact IH|reflexivity|reflexivity].
Qed.

(** X7.  Nesting and mode are interchangeable: for a non-empty list of
    rules, one clause per rule read in DNF is the single clause of all the
    rules read in CNF (the disjunction of the rules), and one clause per
    rule read in CNF is the single clause read in DNF (their
    conjunction).  The two forms agree on every row, in the value, in the
    error a rule raises, and in the error of compilation. *)
Theorem one_clause_per_rule_is_the_other_mode (tbl : Table) (rs : list FilterRule)
  (w : World) :
  rs <> [] ->
  expressionResult toNum tbl FilterExpressionMode.DNF (map (fun r => [r]) rs) w
  = expressionResult toNum tbl FilterExpressionMode.CNF [rs] w /\
  expressionResult toNum tbl FilterExpressionMode.CNF (map (fun r => [r]) rs) w
  = expressionResult toNum tbl FilterExpressionMode.DNF [rs] w.
Proof.
  intros Hne. destruct rs as [|r0 rs0]; [congruence|].
  unfold expressionResult, outcome, _generateExpressionTester.
  change (map (fun r => [r]) (r0 :: rs0)) with ([r0] :: map (fun r => [r]) rs0).
  cbv iota.
  change ([r0] :: map (fun r => [r]) rs0) with (map (fun r => [r]) (r0 :: rs0)).
  rewrite !forPush_singletons.
  change (forPush (generateClause tbl FilterExpressionMode.CNF) [r0 :: rs0])
    with ((fun t => [t]) <$> generateClause tbl FilterExpressionMode.CNF (r0 :: rs0)).
  change (forPush (generateClause tbl FilterExpressionMode.DNF) [r0 :: rs0])
    with ((fun t => [t]) <$> generateClause tbl FilterExpressionMode.DNF (r0 :: rs0)).
  unfold _generateClauseTester.
  set (p := forPush (generateRule tbl) (r0 :: rs0)). clearbody p.
  destruct p as [ts|e]; [|split; reflexivity].
  cbn [modeIsDNF fmap result_fmap mbind result_bind].
  rewrite filterTesterDNF_singletons, filterTesterCNF_singletons.
  split.
  - cbn [filterTesterCNF]. destruct (ruleTesterCNF ts w) as [[|]|e]; reflexivity.
  - cbn [filterTesterDNF]. destruct (ruleTesterDNF ts w) as [[|]|e]; reflexivity.
Qed.

Lemma negated_rule_compiles_to_negation (tbl : Table) (r : FilterRule) :
  hasComplement (operation r) = true ->
  negationOf (generateRule tbl r)
             (generateRule tbl (withOperation (negateOperation (operation r)) r)).
Proof.
  intros Hc. unfold negationOf, _generateRuleTester, withOperation. simpl.
  destruct (accessor tbl (field r)) as [k|e]; simpl; [|reflexivity].
  destruct (operation r); try discriminate; simpl.
  - intros w. reflexivity.
  - intros w. destruct (call_containsCase (getter k w) _) as [[|]|e]; reflexivity.
  - destruct (columnIsByteString tbl k) as [[|]|e]; simpl; [| |reflexivity].
    + destruct (value_map ByteString_fromString (value r)) as [vs|e]; simpl;
        [|reflexivity].
      intros w. apply filterNotIn_ByteString_negb.
    + destruct (value_map parseFloat (value r)) as [vs|e]; simpl; [|reflexivity].
      intros w. simpl. rewrite filterNotIn_number_negb. reflexivity.
  - destruct (columnIsByteString tbl k) as [[|]|e]; simpl; [| |reflexivity].
    + destruct (value_map ByteString_fromString (value r)) as [vs|e]; simpl;
        [|reflexivity].
      intros w. rewrite filterNotIn_ByteString_negb.
      destruct (filterIn_ByteString (getter k w) vs) as [[|]|e]; reflexivity.
    + destruct (value_map parseFloat (value r)) as [vs|e]; simpl; [|reflexivity].
      intros w. simpl. rewrite filterNotIn_number_negb, negb_involutive. reflexivity.
  - destruct (columnIsByteString tbl k) as [[|]|e]; simpl; [| |reflexivity];
      intros w; reflexivity.
  - destruct (columnIsByteString tbl k) as [[|]|e]; simpl; [| |reflexivity]; intros w.
    + destruct (call_equalsCase (getter k w) _) as [[|]|e]; reflexivity.
    + simpl. rewrite negb_involutive. reflexivity.
Qed.

(** Lists of testers one of which is the pointwise negation of the
    other. *)
Lemma negated_rules_compile (tbl : Table) (rs : list FilterRule) :
  (forall r, In r rs -> hasComplement (operation r) = true) ->
  match forPush (generateRule tbl) rs,
        forPush (generateRule tbl)
          (map (fun r => withOperation (negateOperation (operation r)) r) rs) with
  | Ok ts, Ok ts' =>
      Forall2 (fun t t' => forall w, callTester t' w = negb <$> callTester t w) ts ts'
  | Throw e, Throw e' => e = e'
  | _, _ => False
  end.
Proof.
  induction rs as [|r rs IH]; intros Hall; simpl; [constructor|].
  pose proof (negated_rule_compiles_to_negation tbl r (Hall r (or_introl eq_refl))) as Hr.
  unfold negationOf in Hr.
  destruct (generateRule tbl r) as [t|e];
    destruct (generateRule tbl (withOperation (negateOperation (operation r)) r))
      as [t'|e']; try contradiction; [|exact Hr].
  specialize (IH (fun r' Hr' => Hall r' (or_intror Hr'))).
  destruct (forPush (generateRule tbl) rs) as [ts|e];
    destruct (forPush (generateRule tbl)
                (map (fun r => withOperation (negateOperation (operation r)) r) rs))
      as [ts'|e']; try contradiction; [|exact IH].
  constructor; assumption.
Qed.

Lemma ruleTesterCNF_negated (ts ts' : list (option Tester)) (w : World) :
  Forall2 (fun t t' => forall w, callTester t' w = negb <$> callTester t w) ts ts' ->
  ruleTesterCNF ts' w = negb <$> ruleTesterDNF ts w /\
  ruleTesterDNF ts' w = negb <$> ruleTesterCNF ts w.
Proof.
  induction 1 as [|t t' ts ts' Ht _ IH]; simpl; [split; reflexivity|].
  rewrite Ht. destruct IH as [IH1 IH2].
  destruct (callTester t w) as [[|]|e]; simpl; split;
    try reflexivity; assumption.
Qed.

Lemma filterTester_negated (cs cs' : list Tester) (w : World) :
  Forall2 (fun c c' => forall w, c' w = negb <$> c w) cs cs' ->
  filterTesterCNF cs' w = negb <$> filterTesterDNF cs w /\
  filterTesterDNF cs' w = negb <$> filterTesterCNF cs w.
Proof.
  induction 1 as [|c c' cs cs' Hc _ IH]; simpl; [split; reflexivity|].
  rewrite Hc. destruct IH as [IH1 IH2].
  destruct (c w) as [[|]|e]; simpl; split; try reflexivity; assumption.
Qed.

Lemma negated_clause_compiles (tbl : Table) (m m' : FilterExpressionMode.t)
  (c : FilterClause) :
  modeIsDNF m' = negb (modeIsDNF m) ->
  (forall r, In r c -> hasComplement (operation r) = true) ->
  match generateClause tbl m c,
        generateClause tbl m'
          (map (fun r => withOperation (negateOperation (operation r)) r) c) with
  | Ok t, Ok t' => forall w, t' w = negb <$> t w
  | Throw e, Throw e' => e = e'
  | _, _ => False
  end.
Proof.
  intros Hm Hall. pose proof (negated_rules_compile tbl c Hall) as Hc.
  unfold _generateClauseTester. rewrite Hm.
  destruct (forPush (generateRule tbl) c) as [ts|e];
    destruct (forPush (generateRule tbl)
                (map (fun r => withOperation (negateOperation (operation r)) r) c))
      as [ts'|e']; try contradiction; simpl; [|exact Hc].
  destruct (modeIsDNF m); simpl; intros w;
    destruct (ruleTesterCNF_negated ts ts' w Hc) as [H1 H2]; assumption.
Qed.

Lemma negated_clauses_compile (tbl : Table) (m m' : FilterExpressionMode.t)
  (clauses : list FilterClause) :
  modeIsDNF m' = negb (modeIsDNF m) ->
  (forall c, In c clauses -> forall r, In r c -> hasComplement (operation r) = true) ->
  match forPush (generateClause tbl m) clauses,
        forPush (generateClause tbl m') (dualExpression clauses) with
  | Ok cs, Ok cs' => Forall2 (fun c c' => forall w, c' w = negb <$> c w) cs cs'
  | Throw e, Throw e' => e = e'
  | _, _ => False
  end.
Proof.
  intros Hm. induction clauses as [|c clauses IH]; intros Hall; [constructor|].
  pose proof (negated_clause_compiles tbl m m' c Hm (Hall c (or_introl eq_refl))) as Hc.
  specialize (IH (fun c' Hc' => Hall c' (or_intror Hc'))).
  change (dualExpression (c :: clauses)) with
    (map (fun r => withOperation (negateOperation (operation r)) r) c
       :: dualExpression clauses).
  cbn [forPush].
  destruct (generateClause tbl m c) as [t|e];
    destruct (generateClause tbl m'
                (map (fun r => withOperation (negateOperation (operation r)) r) c))
      as [t'|e']; try contradiction; [|exact Hc].
  destruct (forPush (generateClause tbl m) clauses) as [cs|e];
    destruct (forPush (generateClause tbl m') (dualExpression clauses)) as [cs'|e'];
    try contradiction; [|exact IH].
  constructor; assumption.
Qed.

(** X8.  De Morgan duality.  For a non-empty expression whose rules all
    use [contains], [in], [equal] or their negations, the expression with
    every rule negated, read in the other mode, returns on every row the
    negation of what the expression returns, and fails exactly where it
    fails, with the same error. *)
Theorem dual_expression_is_the_negation (tbl : Table) (clauses : list FilterClause)
  (w : World) :
  clauses <> [] ->
  (forall c, In c clauses -> forall r, In r c -> hasComplement (operation r) = true) ->
  expressionResult toNum tbl FilterExpressionMode.CNF (dualExpression clauses) w
  = negb <$> expressionResult toNum tbl FilterExpressionMode.DNF clauses w /\
  expressionResult toNum tbl FilterExpressionMode.DNF (dualExpression clauses) w
  = negb <$> expressionResult toNum tbl FilterExpressionMode.CNF clauses w.
Proof.
  intros Hne Hall. destruct clauses as [|c0 cl]; [congruence|].
  set (clauses := c0 :: cl) in *.
  pose proof (negated_clauses_compile tbl FilterExpressionMode.DNF FilterExpressionMode.CNF
                clauses eq_refl Hall) as H1.
  pose proof (negated_clauses_compile tbl FilterExpressionMode.CNF FilterExpressionMode.DNF
                clauses eq_refl Hall) as H2.
  unfold expressionResult, outcome, _generateExpressionTester.
  change (dualExpression clauses) with
    (map (fun r => withOperation (negateOperation (operation r)) r) c0 :: dualExpression cl)
    in *.
  unfold clauses in *. cbv iota. cbn [modeIsDNF].
  split.
  - clear H2.
    destruct (forPush (generateClause tbl FilterExpressionMode.DNF) (c0 :: cl)) as [cs|e];
      destruct (forPush (generateClause tbl FilterExpressionMode.CNF) _) as [cs'|e'];
      try contradiction; cbn [mbind result_bind fmap result_fmap];
      [|rewrite H1; reflexivity].
    apply (filterTester_negated cs cs' w H1).
  - clear H1.
    destruct (forPush (generateClause tbl FilterExpressionMode.CNF) (c0 :: cl)) as [cs|e];
      destruct (forPush (generateClause tbl FilterExpressionMode.DNF) _) as [cs'|e'];
      try contradiction; cbn [mbind result_bind fmap result_fmap];
      [|rewrite H2; reflexivity].
    apply (filterTester_negated cs cs' w H2).
Qed.

End ExpressionFacts.

Lemma one_clause_per_rule_witness :
  let rs := [ mkRule "id" FilterOperation.equal "1";
              mkRule "name" FilterOperation.contains "c" ] in
  let w := worldAt peopleTable emptyResult 2 in
  expressionResult toNumberNaN peopleTable FilterExpressionMode.DNF
    (map (fun r => [r]) rs) w
  = expressionResult toNumberNaN peopleTable FilterExpressionMode.CNF [rs] w /\
  expressionResult toNumberNaN peopleTable FilterExpressionMode.CNF
    (map (fun r => [r]) rs) w
  = expressionResult toNumberNaN peopleTable FilterExpressionMode.DNF [rs] w.
Proof.
  apply (one_clause_per_rule_is_the_other_mode toNumberNaN peopleTable
           [ mkRule "id" FilterOperation.equal "1";
             mkRule "name" FilterOperation.contains "c" ]
           (worldAt peopleTable emptyResult 2)).
  discriminate.
Defined.

Lemma dual_expression_witness :
  let w := worldAt peopleTable emptyResult 1 in
  expressionResult toNumberNaN peopleTable FilterExpressionMode.CNF
    (dualExpression S2_expression) w
  = negb <$> expressionResult toNumberNaN peopleTable FilterExpressionMode.DNF
               S2_expression w /\
  expressionResult toNumberNaN peopleTable FilterExpressionMode.DNF
    (dualExpression S2_expression) w
  = negb <$> expressionResult toNumberNaN peopleTable FilterExpressionMode.CNF
               S2_expression w.
Proof.
  apply (dual_expression_is_the_negation toNumberNaN peopleTable S2_expression
           (worldAt peopleTable emptyResult 1)).
  - discriminate.
  - intros c Hc r Hr.
    destruct Hc as [<-|[<-|[]]]; destruct Hr as [<-|[]]; reflexivity.
Defined.

(** ** The result writer: errors, frame and values *)

Section WriterFacts.

Variable _DEBUG : bool.

Lemma unresolved_entry_throws (src res : Table) (d : ResultDescriptionEntry) :
  unresolved src res d ->
  generateFieldWriter src res d = Throw (TypeError "Cannot read properties of undefined").
Proof.
  unfold unresolved, target, generateFieldWriter, accessor.
  intros [[Ht Hs]|Hr].
  - rewrite Ht, Hs. reflexivity.
  - destruct (truthy (as_ d)); rewrite Hr; [|reflexivity].
    destruct (names src !! column d); reflexivity.
Qed.

(** X9.  A result description with an entry that names a source column
    the table does not have, or a result column the result table does not
    have (for an entry without [as]: a result table without the
    empty-named column), does not compile; [process] then throws before
    it claims a batch, with any fuel, whatever the rules. *)
Theorem unresolved_description_fails_before_any_row (description : list ResultDescriptionEntry)
  (d : ResultDescriptionEntry) (w : World) :
  In d description ->
  unresolved (mTable w) (resultTable w) d ->
  (exists e, _generateResultWriter _DEBUG description w = Throw e) /\
  forall toNum fuel E m b,
    exists e,
      process _DEBUG toNum fuel
        {| rules := E; mode := m; resultDescription := description; rowBatchSize := b |} w
      = Some (Throw e).
Proof.
  intros Hin Hun.
  assert (Hgen : exists e, _generateResultWriter _DEBUG description w = Throw e).
  { unfold _generateResultWriter.
    destruct (getRow _DEBUG 0 None (resultTable w)) as [row|e]; simpl;
      [|eexists; reflexivity].
    destruct (forPush_Throw _ description d _ Hin
                (unresolved_entry_throws (mTable w) (resultTable w) d Hun)) as [e He].
    rewrite He. eexists. reflexivity. }
  split; [exact Hgen|].
  intros toNum fuel E m b. destruct Hgen as [e He]. unfold process. cbn [rules mode resultDescription].
  destruct (_generateExpressionTester toNum (mTable w) E m) as [t|e'];
    [|eexists; reflexivity].
  rewrite He. eexists. reflexivity.
Qed.


(** One entry, on the result table alone. *)
Lemma entryEffect_table (src res : Table) (i : Z) (w : World) (d : ResultDescriptionEntry) :
  resultTable (entryEffect src res i w d)
  = writeEntry src res (mTable w) (index (mRow w)) i (index (resultRow w)) (resultTable w) d /\
  sameFrame w (entryEffect src res i w d).
Proof.
  unfold entryEffect, writeEntry, target, entryValue, truthy, storeByName, sameFrame.
  destruct (as_ d) as [| | | | |a]; simpl.
  6: { destruct (String.eqb a EmptyString); simpl.
    + destruct (names res !! EmptyString); simpl; repeat split.
    + destruct (names src !! column d); simpl.
      * destruct (names res !! a); simpl; repeat split.
      * destruct (names res !! a); simpl; repeat split. }
  all: destruct (names res !! EmptyString); simpl; repeat split.
Qed.

Lemma entryEffects_table (src res : Table) (i : Z) (ds : list ResultDescriptionEntry)
  (w : World) :
  resultTable (foldl (entryEffect src res i) w ds)
  = foldl (writeEntry src res (mTable w) (index (mRow w)) i (index (resultRow w)))
          (resultTable w) ds.
Proof.
  revert w. induction ds as [|d ds IH]; intros w; simpl; [reflexivity|].
  destruct (entryEffect_table src res i w d) as [Ht (H1 & H2 & _ & _ & _ & H6 & _)].
  rewrite IH, Ht, H1, H2, H6. reflexivity.
Qed.

(** One call of a compiled writer, on the result table alone. *)
Lemma compiled_writer_table (description : list ResultDescriptionEntry)
  (w w0 : World) (writer : Z -> World -> World) :
  _generateResultWriter _DEBUG description w = Ok (writer, w0) ->
  forall i w1,
    resultTable (writer i w1)
    = foldl (writeEntry (mTable w) (resultTable w) (mTable w1) (index (mRow w1)) i
               (Table_rowCount (resultTable w1)))
            (snd (addRows 1 (resultTable w1))) description.
Proof.
  intros Hgen i w1.
  destruct (generateResultWriter_inv _ _ _ _ _ Hgen) as (row & ws & _ & _ & Hpush & ->).
  unfold resultWriter.
  change (addRows 1 (resultTable w1))
    with (Table_rowCount (resultTable w1), snd (addRows 1 (resultTable w1))).
  cbv iota beta.
  rewrite (fieldWriters_entryEffects _ _ _ _ i _ Hpush), entryEffects_table.
  reflexivity.
Qed.

Lemma writeEntry_cell (src res source : Table) (cursor i old : Z) (t : Table)
  (d : ResultDescriptionEntry) (r : Z) (c : nat) :
  getCell (writeEntry src res source cursor i old t d) r c
  = match target res d, entryValue src source cursor i d with
    | Some k', Some v =>
        if (r =? old) && Nat.eqb c k' then stored t k' v else getCell t r c
    | _, _ => getCell t r c
    end.
Proof.
  unfold writeEntry.
  destruct (target res d); [|reflexivity].
  destruct (entryValue src source cursor i d); reflexivity.
Qed.

(** Writing a cell or adding rows leaves the column types as they are. *)
Lemma writeEntry_stored (src res source : Table) (cursor i old : Z) (t : Table)
  (d : ResultDescriptionEntry) :
  stored (writeEntry src res source cursor i old t d) = stored t.
Proof.
  unfold writeEntry.
  destruct (target res d); [|reflexivity].
  destruct (entryValue src source cursor i d); reflexivity.
Qed.

Lemma writeEntries_stored (src res source : Table) (cursor i old : Z)
  (ds : list ResultDescriptionEntry) (t : Table) :
  stored (foldl (writeEntry src res source cursor i old) t ds) = stored t.
Proof.
  revert t. induction ds as [|d ds IH]; intros t; simpl; [reflexivity|].
  rewrite IH. apply writeEntry_stored.
Qed.

Lemma writeEntry_header (src res source : Table) (cursor i old : Z) (t : Table)
  (d : ResultDescriptionEntry) :
  header (writeEntry src res source cursor i old t d) = header t.
Proof.
  unfold writeEntry.
  destruct (target res d); [|reflexivity].
  destruct (entryValue src source cursor i d); reflexivity.
Qed.

Lemma writeEntries_header (src res source : Table) (cursor i old : Z)
  (ds : list ResultDescriptionEntry) (t : Table) :
  header (foldl (writeEntry src res source cursor i old) t ds) = header t.
Proof.
  revert t. induction ds as [|d ds IH]; intros t; simpl; [reflexivity|].
  rewrite IH. apply writeEntry_header.
Qed.

(** Cells the entries do not reach. *)
Lemma writeEntries_other_cell (src res source : Table) (cursor i old : Z)
  (ds : list ResultDescriptionEntry) (t : Table) (r : Z) (c : nat) :
  r <> old \/ (forall d, In d ds -> target res d <> Some c) ->
  getCell (foldl (writeEntry src res source cursor i old) t ds) r c = getCell t r c.
Proof.
  revert t. induction ds as [|d ds IH]; intros t Hfree; simpl; [reflexivity|].
  rewrite IH.
  - rewrite writeEntry_cell.
    destruct (target res d) as [k'|] eqn:Ht; [|reflexivity].
    destruct (entryValue src source cursor i d); [|reflexivity].
    destruct (Z.eqb_spec r old) as [Hr|Hr]; [|reflexivity].
    destruct (Nat.eqb_spec c k') as [Hc|Hc]; [|reflexivity].
    exfalso. destruct Hfree as [Hfree|Hfree]; [contradiction|].
    apply (Hfree d (or_introl eq_refl)). rewrite Ht, Hc. reflexivity.
  - destruct Hfree as [Hfree|Hfree]; [left; exact Hfree|right].
    intros d' Hd'. apply Hfree. right. exact Hd'.
Qed.

(** The cell of the last entry that writes a column. *)
Lemma writeEntries_last_cell (src res source : Table) (cursor i old : Z)
  (d1 : list ResultDescriptionEntry) (d : ResultDescriptionEntry)
  (d2 : list ResultDescriptionEntry) (t : Table) (k' : nat) (v : JsValue) :
  target res d = Some k' ->
  entryValue src source cursor i d = Some v ->
  (forall d', In d' d2 -> target res d' <> Some k') ->
  getCell (foldl (writeEntry src res source cursor i old) t (d1 ++ d :: d2)) old k'
  = stored t k' v.
Proof.
  intros Ht Hv Hlater. rewrite foldl_app. simpl.
  rewrite writeEntries_other_cell by (right; exact Hlater).
  rewrite writeEntry_cell, Ht, Hv, Z.eqb_refl, Nat.eqb_refl, writeEntries_stored.
  reflexivity.
Qed.

(** X11.  One call of a compiled result writer changes the result table
    in the one row it claims, the row at the old row count, and only in
    the columns its entries write: every other row keeps its cells, the
    cells of the new row in columns no entry writes keep what the memory
    held (nothing clears them), the columns stay, the row count grows by
    one, and the source table, the source cursor and the shared cursor
    are not touched. *)
Theorem result_writer_changes_only_the_new_row (description : list ResultDescriptionEntry)
  (w w0 : World) (writer : Z -> World -> World) (i : Z) (w1 : World) :
  _generateResultWriter _DEBUG description w = Ok (writer, w0) ->
  (forall r c, r <> Table_rowCount (resultTable w1) ->
     getCell (resultTable (writer i w1)) r c = getCell (resultTable w1) r c) /\
  (forall c, (forall d, In d description -> target (resultTable w) d <> Some c) ->
     getCell (resultTable (writer i w1)) (Table_rowCount (resultTable w1)) c
     = getCell (resultTable w1) (Table_rowCount (resultTable w1)) c) /\
  columns (header (resultTable (writer i w1))) = columns (header (resultTable w1)) /\
  Table_rowCount (resultTable (writer i w1))
  = toUint32 (Table_rowCount (resultTable w1) + 1) /\
  mTable (writer i w1) = mTable w1 /\
  mRow (writer i w1) = mRow w1 /\
  indices0 (writer i w1) = indices0 w1.
Proof.
  intros Hgen.
  pose proof (compiled_writer_table description w w0 writer Hgen i w1) as Htable.
  destruct (generateResultWriter_inv _ _ _ _ _ Hgen) as (row & ws & _ & _ & Hpush & Hw).
  pose proof (forPush_Forall _ writesOneCell _ _
                (generateFieldWriter_writesOneCell (mTable w) (resultTable w)) Hpush) as Hall.
  rewrite Hw in *.
  destruct (resultWriter_frame ws i w1 Hall) as (H1 & H2 & H3 & _ & _ & _ & H7).
  split; [|split; [|split; [|repeat split; assumption]]].
  - intros r c Hr. rewrite Htable.
    rewrite writeEntries_other_cell by (left; exact Hr). reflexivity.
  - intros c Hfree. rewrite Htable.
    rewrite writeEntries_other_cell by (right; exact Hfree). reflexivity.
  - rewrite Htable, writeEntries_header. reflexivity.
Qed.

(** X12.  After one call of a compiled result writer the new row holds,
    in each column the description writes, what that column keeps of the
    value of the last entry for it: of the source column of the row the
    source cursor is on, or of the index the writer was called with.
    Earlier entries for the same column are overwritten.  What a column
    keeps of a value is given by its type ([stored]); it is the value
    itself when the value is in the range of the column. *)
Theorem result_writer_last_entry_wins (description : list ResultDescriptionEntry)
  (w w0 : World) (writer : Z -> World -> World) (i : Z) (w1 : World)
  (d1 : list ResultDescriptionEntry) (d : ResultDescriptionEntry)
  (d2 : list ResultDescriptionEntry) (k' : nat) :
  _generateResultWriter _DEBUG description w = Ok (writer, w0) ->
  description = d1 ++ d :: d2 ->
  target (resultTable w) d = Some k' ->
  (forall d', In d' d2 -> target (resultTable w) d' <> Some k') ->
  Some (getCell (resultTable (writer i w1)) (Table_rowCount (resultTable w1)) k')
  = stored (resultTable w1) k' <$> entryValue (mTable w) (mTable w1) (index (mRow w1)) i d.
Proof.
  intros Hgen Hsplit Ht Hlater.
  rewrite (compiled_writer_table description w w0 writer Hgen i w1).
  destruct (generateResultWriter_inv _ _ _ _ _ Hgen) as (row & ws & _ & _ & Hpush & _).
  assert (Hd : exists fw, generateFieldWriter (mTable w) (resultTable w) d = Ok fw).
  { apply (forPush_In _ description ws d Hpush). rewrite Hsplit.
    apply in_or_app. right. left. reflexivity. }
  destruct Hd as [fw Hfw].
  assert (Hv : exists v, entryValue (mTable w) (mTable w1) (index (mRow w1)) i d = Some v).
  { unfold entryValue. unfold generateFieldWriter, accessor in Hfw.
    destruct (truthy (as_ d)); [|eexists; reflexivity].
    destruct (names (mTable w) !! column d); [eexists; reflexivity|discriminate]. }
  destruct Hv as [v Hv]. rewrite Hv, Hsplit. simpl. f_equal.
  rewrite (writeEntries_last_cell _ _ _ _ _ _ d1 d d2 _ k' v Ht Hv Hlater).
  reflexivity.
Qed.

End WriterFacts.

Lemma unresolved_description_witness :
  let description := [ {| column := "id"; as_ := asString "total" |} ] in
  let w := worldAt peopleTable emptyResult 0 in
  (exists e, _generateResultWriter false description w = Throw e) /\
  forall toNum fuel E m b,
    exists e,
      process false toNum fuel
        {| rules := E; mode := m; resultDescription := description; rowBatchSize := b |} w
      = Some (Throw e).
Proof.
  apply (unresolved_description_fails_before_any_row false
           [ {| column := "id"; as_ := asString "total" |} ]
           {| column := "id"; as_ := asString "total" |}
           (worldAt peopleTable emptyResult 0)).
  - left. reflexivity.
  - right. reflexivity.
Defined.


Lemma result_writer_frame_witness :
  let w := worldAt peopleTable emptyResult 1 in
  let writer := writerOf S6_description w in
  let w1 := readyWorld S6_description w in
  (forall r c, r <> Table_rowCount (resultTable w1) ->
     getCell (resultTable (writer 1 w1)) r c = getCell (resultTable w1) r c) /\
  (forall c, (forall d, In d S6_description -> target (resultTable w) d <> Some c) ->
     getCell (resultTable (writer 1 w1)) (Table_rowCount (resultTable w1)) c
     = getCell (resultTable w1) (Table_rowCount (resultTable w1)) c) /\
  columns (header (resultTable (writer 1 w1))) = columns (header (resultTable w1)) /\
  Table_rowCount (resultTable (writer 1 w1))
  = toUint32 (Table_rowCount (resultTable w1) + 1) /\
  mTable (writer 1 w1) = mTable w1 /\
  mRow (writer 1 w1) = mRow w1 /\
  indices0 (writer 1 w1) = indices0 w1.
Proof.
  exact (result_writer_changes_only_the_new_row false S6_description
           (worldAt peopleTable emptyResult 1)
           (readyWorld S6_description (worldAt peopleTable emptyResult 1))
           (writerOf S6_description (worldAt peopleTable emptyResult 1)) 1
           (readyWorld S6_description (worldAt peopleTable emptyResult 1)) eq_refl).
Defined.

Lemma result_writer_last_entry_witness :
  let description := overwriting_description in
  let w := worldAt pairTable emptyResult 1 in
  Some (getCell (resultTable (writerOf description w 1 (readyWorld description w)))
          (Table_rowCount (resultTable (readyWorld description w))) 0)
  = stored (resultTable (readyWorld description w)) 0
    <$> entryValue (mTable w) (mTable (readyWorld description w))
          (index (mRow (readyWorld description w))) 1
          {| column := "y"; as_ := asString "id" |}.
Proof.
  apply (result_writer_last_entry_wins false overwriting_description
           (worldAt pairTable emptyResult 1)
           (readyWorld overwriting_description (worldAt pairTable emptyResult 1))
           (writerOf overwriting_description (worldAt pairTable emptyResult 1)) 1
           (readyWorld overwriting_description (worldAt pairTable emptyResult 1))
           [ {| column := "x"; as_ := asString "id" |} ]
           {| column := "y"; as_ := asString "id" |}
           [ {| column := EmptyString; as_ := asAbsent |} ] 0%nat).
  - reflexivity.
  - reflexivity.
  - reflexivity.
  - intros d' [<-|[]]. vm_compute. discriminate.
Defined.

(** The overwritten column of that call holds [y] of the source row, 20,
    not its [x]; both fit the Uint32 column they are written to. *)
Example result_writer_last_entry_value :
  let description := overwriting_description in
  let w := worldAt pairTable emptyResult 1 in
  resultRows 1 (writerOf description w 1 (readyWorld description w))
  = [(VNum 20%float, VNum 1%float)].
Proof. vm_compute. reflexivity. Qed.

(** A value that does not fit is not read back: a name copied into the
    Uint32 column [id] leaves a number there. *)
Example result_writer_name_into_number :
  let description := [ {| column := "name"; as_ := asString "id" |} ] in
  let w := worldAt peopleTable emptyResult 1 in
  getCell (mTable w) 1 1 = VByteString "Bob" /\
  getCell (resultTable (writerOf description w 1 (readyWorld description w))) 0 0
  = VNum 0%float.
Proof. vm_compute. split; reflexivity. Qed.

(** ** The scan: edges, errors and the result table *)

Section ScanEdges.

Variable tester : Tester.
Variable writer : Z -> World -> World.
Variable n b : Z.

(** With a batch size that is not positive no claimed range holds a row. *)
Lemma scanLoop_nonpositive_batch (fuel : nat) (w w' : World) :
  b <= 0 ->
  scanLoop fuel tester writer n b w = Some (Ok w') ->
  visited w' = visited w /\ written w' = written w /\
  resultTable w' = resultTable w /\ mTable w' = mTable w.
Proof.
  intros Hb. revert w. induction fuel as [|fuel IH]; intros w; [discriminate|].
  simpl. destruct (indices0 w <? n).
  - rewrite seqZ_nil by lia. simpl. intros H.
    destruct (IH _ H) as (H1 & H2 & H3 & H4). auto.
  - intros H. inversion H. auto.
Qed.

Lemma scanLoop_nonpositive_batch_no_throw (fuel : nat) (w : World) (e : JsError) :
  b <= 0 -> scanLoop fuel tester writer n b w <> Some (Throw e).
Proof.
  intros Hb. revert w. induction fuel as [|fuel IH]; intros w; [discriminate|].
  simpl. destruct (indices0 w <? n); [|discriminate].
  rewrite seqZ_nil by lia. simpl. apply IH.
Qed.

Lemma scanLoop_zero_batch (fuel : nat) (w : World) :
  b = 0 -> 0 <= indices0 w < n -> indices0 w < u32 ->
  scanLoop fuel tester writer n b w = None.
Proof.
  intros -> Hc Hu. induction fuel as [|fuel IH]; [reflexivity|].
  simpl. destruct (Z.ltb_spec (indices0 w) n) as [_|H]; [|lia].
  rewrite seqZ_nil by lia. simpl.
  replace (withIndices0 (toUint32 (indices0 w + 0)) w) with w; [exact IH|].
  unfold toUint32. rewrite Z.add_0_r, Z.mod_small by lia.
  destruct w; reflexivity.
Qed.

Lemma scanLoop_past_the_end (fuel : nat) (w : World) :
  n <= indices0 w ->
  scanLoop (S fuel) tester writer n b w
  = Some (Ok (withIndices0 (toUint32 (indices0 w + b)) w)).
Proof.
  intros H. simpl. destruct (Z.ltb_spec (indices0 w) n); [lia|reflexivity].
Qed.

End ScanEdges.

Section ScanEdgeTheorems.

Variable _DEBUG : bool.
Variable toNum : ByteString -> float.

(** X13.  The scan starts from wherever the shared cursor stands; the
    processor never resets it.  When the cursor is already at or beyond
    the row count (as it is after a finished scan), [process] returns
    after a single claim: no row is visited, the tester is never run,
    nothing is written, and the cursor has still advanced by the batch
    size. *)
Theorem scan_with_cursor_past_the_end_writes_nothing (config : Config) (tester : Tester)
  (writer : Z -> World -> World) (w w0 : World) (fuel : nat) :
  Table_rowCount (mTable w) <= indices0 w ->
  _generateExpressionTester toNum (mTable w) (rules config) (mode config) = Ok tester ->
  _generateResultWriter _DEBUG (resultDescription config) w = Ok (writer, w0) ->
  exists w',
    process _DEBUG toNum (S fuel) config w = Some (Ok w') /\
    visited w' = visited w /\ written w' = written w /\
    resultTable w' = resultTable w /\
    indices0 w' = toUint32 (indices0 w + rowBatchSize config).
Proof.
  intros Hc Htester Hgen.
  destruct (compiled_writer_frame _ _ _ _ _ Hgen) as ((E1 & E2 & E3 & E4 & E5) & _).
  exists (withIndices0 (toUint32 (indices0 w0 + rowBatchSize config)) w0).
  split.
  - unfold process. rewrite Htester, Hgen.
    apply scanLoop_past_the_end. rewrite E2. exact Hc.
  - simpl. rewrite E2, E3, E4, E5. auto.
Qed.

(** X14.  A batch size that is not positive makes the scan useless: it
    never visits a row and never writes, whatever the rules and the
    description; the only errors it can end with are those of compiling
    the rules or the result description, which are thrown before any row
    is claimed, so that it never throws once both compile; and with
    batch size 0 and a cursor below the row count it never ends. *)
Theorem scan_with_nonpositive_batch_visits_nothing (config : Config) (w : World) :
  rowBatchSize config <= 0 ->
  (forall fuel w',
     process _DEBUG toNum fuel config w = Some (Ok w') ->
     visited w' = visited w /\ written w' = written w /\
     resultTable w' = resultTable w) /\
  (forall fuel e,
     process _DEBUG toNum fuel config w = Some (Throw e) ->
     _generateExpressionTester toNum (mTable w) (rules config) (mode config) = Throw e \/
     exists tester,
       _generateExpressionTester toNum (mTable w) (rules config) (mode config) = Ok tester /\
       _generateResultWriter _DEBUG (resultDescription config) w = Throw e) /\
  (forall tester writer w0,
     _generateExpressionTester toNum (mTable w) (rules config) (mode config) = Ok tester ->
     _generateResultWriter _DEBUG (resultDescription config) w = Ok (writer, w0) ->
     (forall fuel e, process _DEBUG toNum fuel config w <> Some (Throw e)) /\
     (rowBatchSize config = 0 ->
      0 <= indices0 w < Table_rowCount (mTable w) -> indices0 w < u32 ->
      forall fuel, process _DEBUG toNum fuel config w = None)).
Proof.
  intros Hb. unfold process.
  destruct (_generateExpressionTester toNum (mTable w) (rules config) (mode config))
    as [tester|e0].
  2:{ split; [discriminate|]. split; [|discriminate].
      intros fuel e H. inversion H. left. reflexivity. }
  destruct (_generateResultWriter _DEBUG (resultDescription config) w)
    as [[writer w0]|e0] eqn:Hgen.
  2:{ split; [discriminate|]. split; [|discriminate].
      intros fuel e H. inversion H. right. exists tester. split; reflexivity. }
  destruct (compiled_writer_frame _ _ _ _ _ Hgen) as ((E1 & E2 & E3 & E4 & E5) & _).
  split; [|split].
  - intros fuel w' Hrun.
    destruct (scanLoop_nonpositive_batch _ _ _ _ fuel w0 w' Hb Hrun) as (H1 & H2 & H3 & _).
    rewrite H1, H2, H3, E3, E4, E5. auto.
  - intros fuel e H. exfalso.
    exact (scanLoop_nonpositive_batch_no_throw _ _ _ _ fuel w0 e Hb H).
  - intros tester' writer' w0' Ht Hw. inversion Ht. inversion Hw. subst tester' writer' w0'.
    split.
    + intros fuel e. apply scanLoop_nonpositive_batch_no_throw. exact Hb.
    + intros H0 Hc Hu fuel. apply scanLoop_zero_batch; [exact H0|rewrite E2; exact Hc|].
      rewrite E2. exact Hu.
Qed.

End ScanEdgeTheorems.

Section ScanErrorFacts.

Variable tbl : Table.
Variable tester : Tester.
Variable test : Z -> bool.
Variable writer : Z -> World -> World.
Variable n b r0 : Z.
Variable e : JsError.

Hypothesis tester_before :
  forall w, mTable w = tbl -> 0 <= index (mRow w) < r0 ->
            tester w = Ok (test (index (mRow w))).

Hypothesis tester_at :
  forall w, mTable w = tbl -> index (mRow w) = r0 -> tester w = Throw e.

Hypothesis writer_keeps :
  forall i w, mTable (writer i w) = mTable w /\ indices0 (writer i w) = indices0 w.

Lemma visitRows_before (rs : list Z) (w : World) :
  mTable w = tbl ->
  Forall (fun r => 0 <= r < r0) rs ->
  exists w', visitRows tester writer rs w = Ok w' /\
             mTable w' = tbl /\ indices0 w' = indices0 w.
Proof.
  intros Hw Hall. revert w Hw. induction Hall as [|r rs Hr _ IH]; intros w Hw.
  - exists w. auto.
  - simpl. unfold visitRow.
    rewrite tester_before by (simpl; assumption). simpl.
    destruct (test r).
    + destruct (writer_keeps r (withRow (setIndex r (mRow w)) (noteVisited r w)))
        as [H1 H2].
      destruct (IH (writer r (withRow (setIndex r (mRow w)) (noteVisited r w))))
        as (w' & Hrun & G1 & G2); [rewrite H1; exact Hw|].
      exists w'. rewrite G2, H2. auto.
    + destruct (IH (withRow (setIndex r (mRow w)) (noteVisited r w)))
        as (w' & Hrun & G1 & G2); [exact Hw|].
      exists w'. auto.
Qed.

Lemma visitRows_reaching (rs1 rs2 : list Z) (w : World) :
  mTable w = tbl ->
  Forall (fun r => 0 <= r < r0) rs1 ->
  visitRows tester writer (rs1 ++ r0 :: rs2) w = Throw e.
Proof.
  intros Hw Hall. revert w Hw. induction Hall as [|r rs Hr _ IH]; intros w Hw.
  - simpl. unfold visitRow. rewrite tester_at by (simpl; auto). reflexivity.
  - simpl. unfold visitRow at 1.
    rewrite tester_before by (simpl; assumption). simpl.
    destruct (test r).
    + apply IH.
      destruct (writer_keeps r (withRow (setIndex r (mRow w)) (noteVisited r w)))
        as [H1 _]. rewrite H1. exact Hw.
    + apply IH. exact Hw.
Qed.

Lemma seqZ_lt (c len : Z) :
  0 <= c -> c + len <= r0 -> Forall (fun r => 0 <= r < r0) (seqZ c len).
Proof.
  intros Hc H. apply Forall_forall. intros r Hr.
  apply elem_of_seqZ in Hr. lia.
Qed.

Hypothesis batch_positive : 0 < b.

Lemma scanLoop_reaching (j : nat) (w : World) :
  mTable w = tbl ->
  0 <= indices0 w <= r0 ->
  r0 < n ->
  r0 < indices0 w + Z.of_nat j * b ->
  indices0 w + Z.of_nat j * b <= u32 ->
  scanLoop j tester writer n b w = Some (Throw e).
Proof.
  revert w. induction j as [|j IH]; intros w Hw Hc Hn Hj Hu; [lia|].
  change (scanLoop (S j) tester writer n b w) with
    (let '(i, w1) := Atomize_add b w in
     if i <? n then
       match visitRows tester writer (seqZ i (Z.min (i + b) n - i)) w1 with
       | Ok w2 => scanLoop j tester writer n b w2
       | Throw e => Some (Throw e)
       end
     else Some (Ok w1)).
  unfold Atomize_add. cbv iota beta.
  set (c := indices0 w) in *.
  destruct (Z.ltb_spec c n) as [_|H]; [|lia].
  destruct (Z_lt_le_dec r0 (c + b)) as [Hin|Hout].
  - replace (Z.min (c + b) n - c) with ((r0 - c) + (Z.min (c + b) n - r0)) by lia.
    rewrite seqZ_app by lia.
    rewrite (seqZ_cons (c + (r0 - c))) by lia.
    replace (c + (r0 - c)) with r0 by lia.
    rewrite visitRows_reaching; [reflexivity|exact Hw|apply seqZ_lt; lia].
  - destruct (visitRows_before (seqZ c (Z.min (c + b) n - c))
                (withIndices0 (toUint32 (c + b)) w)) as (w2 & Hrun & G1 & G2);
      [exact Hw|apply seqZ_lt; lia|].
    rewrite Hrun. simpl in G2.
    assert (Hnowrap : toUint32 (c + b) = c + b).
    { unfold toUint32. apply Z.mod_small. unfold u32 in *. nia. }
    rewrite Hnowrap in G2.
    apply IH; [exact G1|rewrite G2; lia|exact Hn|rewrite G2; nia|rewrite G2; nia].
Qed.

End ScanErrorFacts.

(** X15.  A scan by one worker from cursor 0 ends with the error of the
    first row, in ascending order, on which the tester raises: when the
    tester returns on every row below [r0] and throws [e] on row [r0],
    [process] throws [e], for every positive batch size that has a
    multiple beyond [r0] and not beyond [2^32]. *)
Theorem scan_fails_at_the_first_row_that_throws (_DEBUG : bool) (toNum : ByteString -> float)
  (config : Config) (tester : Tester) (test : Z -> bool) (writer : Z -> World -> World)
  (r0 j : Z) (e : JsError) (w w0 : World) :
  0 < rowBatchSize config ->
  0 <= r0 < Table_rowCount (mTable w) ->
  r0 < j * rowBatchSize config <= u32 ->
  indices0 w = 0 ->
  _generateExpressionTester toNum (mTable w) (rules config) (mode config) = Ok tester ->
  (forall w', mTable w' = mTable w -> 0 <= index (mRow w') < r0 ->
              tester w' = Ok (test (index (mRow w')))) ->
  (forall w', mTable w' = mTable w -> index (mRow w') = r0 -> tester w' = Throw e) ->
  _generateResultWriter _DEBUG (resultDescription config) w = Ok (writer, w0) ->
  exists fuel, process _DEBUG toNum fuel config w = Some (Throw e).
Proof.
  intros Hb Hr Hj Hc Htester Hbefore Hat Hgen.
  destruct (compiled_writer_frame _ _ _ _ _ Hgen) as ((E1 & E2 & _) & Hframe).
  assert (Hj0 : 0 <= j) by nia.
  exists (Z.to_nat j). unfold process. rewrite Htester, Hgen.
  apply (scanLoop_reaching (mTable w) tester test writer _ _ r0 e Hbefore Hat).
  - intros i w1. destruct (Hframe i w1) as (H1 & H2 & _). auto.
  - exact Hb.
  - exact E1.
  - rewrite E2, Hc. lia.
  - lia.
  - rewrite E2, Hc, Z2Nat.id by lia. lia.
  - rewrite E2, Hc, Z2Nat.id by lia. lia.
Qed.

Lemma scan_past_the_end_witness :
  let w := withIndices0 6 (worldAt (idTable 3) emptyResult 0) in
  exists w',
    process false toNumberNaN 1 (everyRow_config 2) w = Some (Ok w') /\
    visited w' = visited w /\ written w' = written w /\
    resultTable w' = resultTable w /\
    indices0 w' = toUint32 (indices0 w + rowBatchSize (everyRow_config 2)).
Proof.
  apply (scan_with_cursor_past_the_end_writes_nothing false toNumberNaN
           (everyRow_config 2) filterTesterEmpty
           (writerOf S6_description (withIndices0 6 (worldAt (idTable 3) emptyResult 0)))
           (withIndices0 6 (worldAt (idTable 3) emptyResult 0))
           (readyWorld S6_description (withIndices0 6 (worldAt (idTable 3) emptyResult 0)))
           O).
  - unfold Table_rowCount. simpl. lia.
  - reflexivity.
  - reflexivity.
Defined.

Lemma scan_nonpositive_batch_witness :
  let w := worldAt (idTable 3) emptyResult 0 in
  exists w',
    process false toNumberNaN 2 (everyRow_config (-1)) w = Some (Ok w') /\
    visited w' = [] /\ written w' = [] /\ resultTable w' = emptyResult.
Proof.
  destruct (scan_with_nonpositive_batch_visits_nothing false toNumberNaN
              (everyRow_config (-1)) (worldAt (idTable 3) emptyResult 0))
    as (Hreturns & _ & _).
  - simpl. lia.
  - assert (Hrun : match process false toNumberNaN 2 (everyRow_config (-1))
                           (worldAt (idTable 3) emptyResult 0) with
                   | Some (Ok _) => true
                   | _ => false
                   end = true) by (vm_compute; reflexivity).
    destruct (process false toNumberNaN 2 (everyRow_config (-1))
                (worldAt (idTable 3) emptyResult 0)) as [[w'|e]|] eqn:Hp;
      try discriminate.
    exists w'. split; [exact Hp|]. exact (Hreturns 2%nat w' Hp).
Defined.

(** With batch size 0 the same scan has no outcome at any fuel, and a
    rule on a missing column fails it before the loop. *)
Example scan_zero_batch_runs :
  map (fun fuel => match process false toNumberNaN fuel (everyRow_config 0)
                           (worldAt (idTable 3) emptyResult 0) with
                   | None => true
                   | Some _ => false
                   end) [1; 10; 100]%nat
  = [true; true; true] /\
  match process false toNumberNaN 1
          {| rules := Some [[ mkRule "age" FilterOperation.equal "1" ]];
             mode := FilterExpressionMode.DNF;
             resultDescription := S6_description; rowBatchSize := 0 |}
          (worldAt (idTable 3) emptyResult 0) with
  | Some (Throw e) => Some e
  | _ => None
  end = Some (TypeError "Cannot read properties of undefined").
Proof. vm_compute. split; reflexivity. Qed.

Lemma scan_first_throwing_row_witness :
  exists fuel,
    process false toNumberNaN fuel failsOnRow2_config (worldAt peopleTable emptyResult 0)
    = Some (Throw (TypeError "testers[i] is not a function")).
Proof.
  apply (scan_fails_at_the_first_row_that_throws false toNumberNaN failsOnRow2_config
           (testerOf peopleTable failsOnRow2 FilterExpressionMode.DNF)
           (fun _ => false)
           (writerOf S6_description (worldAt peopleTable emptyResult 0))
           2 2 (TypeError "testers[i] is not a function")
           (worldAt peopleTable emptyResult 0)
           (readyWorld S6_description (worldAt peopleTable emptyResult 0))).
  - simpl. lia.
  - unfold Table_rowCount. simpl. lia.
  - unfold u32. simpl. lia.
  - reflexivity.
  - reflexivity.
  - intros w' Hw' Hi. destruct w' as [t [ix bin] rt rr c v wr]. simpl in *. subst t.
    assert (Hix : ix = 0 \/ ix = 1) by lia.
    destruct Hix as [-> | ->]; vm_compute; reflexivity.
  - intros w' Hw' Hi. destruct w' as [t [ix bin] rt rr c v wr]. simpl in *. subst t ix.
    vm_compute. reflexivity.
  - reflexivity.
Defined.

(** The scan of that witness with enough fuel, and what a scan of the
    first two rows alone leaves. *)
Example scan_first_throwing_row_run :
  process false toNumberNaN 2 failsOnRow2_config (worldAt peopleTable emptyResult 0)
  = Some (Throw (TypeError "testers[i] is not a function")).
Proof. vm_compute. reflexivity. Qed.

(** ** The result table of a scan *)

Section AppendFacts.

Variables src res source : Table.
Variable description : list ResultDescriptionEntry.

Lemma writeEntries_cell (r0 old : Z) (ds : list ResultDescriptionEntry) (t : Table)
  (r : Z) (c : nat) :
  stored t = stored res ->
  getCell (foldl (writeEntry src res source r0 r0 old) t ds) r c
  = if r =? old then rowCell src res ds source r0 c (getCell t old c) else getCell t r c.
Proof.
  revert t. induction ds as [|d ds IH]; intros t Hst; simpl.
  - unfold rowCell. simpl. destruct (Z.eqb_spec r old) as [->|_]; reflexivity.
  - rewrite IH by (rewrite writeEntry_stored; exact Hst).
    destruct (Z.eqb_spec r old) as [->|Hr].
    + unfold rowCell. simpl. f_equal.
      rewrite writeEntry_cell, Hst.
      destruct (target res d); [|reflexivity].
      destruct (entryValue src source r0 r0 d); [|reflexivity].
      destruct (Z.eqb_spec old old); [reflexivity|congruence].
    + rewrite writeEntry_cell.
      destruct (target res d); [|reflexivity].
      destruct (entryValue src source r0 r0 d); [|reflexivity].
      destruct (Z.eqb_spec r old); [contradiction|reflexivity].
Qed.

Lemma appendRow_cell (r0 : Z) (t : Table) (r : Z) (c : nat) :
  stored t = stored res ->
  getCell (appendRow src res description source r0 t) r c
  = if r =? Table_rowCount t
    then rowCell src res description source r0 c (getCell t (Table_rowCount t) c)
    else getCell t r c.
Proof. intros Hst. unfold appendRow. rewrite writeEntries_cell by exact Hst. reflexivity. Qed.

Lemma appendRow_stored (r0 : Z) (t : Table) :
  stored (appendRow src res description source r0 t) = stored t.
Proof. unfold appendRow. rewrite writeEntries_stored. reflexivity. Qed.

Lemma appendRows_stored (l : list Z) (t : Table) :
  stored (foldl (fun t r => appendRow src res description source r t) t l) = stored t.
Proof.
  revert t. induction l as [|r l IH]; intros t; simpl; [reflexivity|].
  rewrite IH. apply appendRow_stored.
Qed.

Lemma appendRow_header (r0 : Z) (t : Table) :
  Table_rowCount (appendRow src res description source r0 t)
  = toUint32 (Table_rowCount t + 1) /\
  columns (header (appendRow src res description source r0 t)) = columns (header t).
Proof.
  unfold appendRow, Table_rowCount. rewrite writeEntries_header. split; reflexivity.
Qed.

(** Rows appended one after the other, without passing [2^32] rows. *)
Lemma appendRows_spec (l : list Z) (t : Table) :
  stored t = stored res ->
  0 <= Table_rowCount t < u32 ->
  Table_rowCount t + Z.of_nat (length l) <= u32 ->
  let t' := foldl (fun t r => appendRow src res description source r t) t l in
  Table_rowCount t' = toUint32 (Table_rowCount t + Z.of_nat (length l)) /\
  columns (header t') = columns (header t) /\
  (forall p r0 c, l !! p = Some r0 ->
     getCell t' (Table_rowCount t + Z.of_nat p) c
     = rowCell src res description source r0 c
         (getCell t (Table_rowCount t + Z.of_nat p) c)) /\
  (forall r c,
     ~ (Table_rowCount t <= r < Table_rowCount t + Z.of_nat (length l)) ->
     getCell t' r c = getCell t r c).
Proof.
  intros Hst Hrc. induction l as [|r1 l IH] using rev_ind; intros Hfit t'.
  - unfold t'. simpl. rewrite Z.add_0_r. unfold toUint32. rewrite Z.mod_small by exact Hrc.
    repeat split; auto. intros p r0 c Hp. rewrite lookup_nil in Hp. discriminate.
  - rewrite length_app in Hfit. simpl in Hfit.
    destruct IH as (I1 & I2 & I3 & I4); [lia|].
    unfold t'. rewrite foldl_app. simpl.
    set (tm := foldl (fun t r => appendRow src res description source r t) t l) in *.
    assert (Hmid : Table_rowCount tm = Table_rowCount t + Z.of_nat (length l)).
    { rewrite I1. unfold toUint32. apply Z.mod_small. lia. }
    destruct (appendRow_header r1 tm) as [A1 A2].
    split; [|split; [|split]].
    + rewrite A1, Hmid, length_app. simpl. f_equal. lia.
    + rewrite A2. exact I2.
    + intros p r0 c Hp.
      rewrite appendRow_cell, Hmid by (unfold tm; rewrite appendRows_stored; exact Hst).
      destruct (Nat.lt_ge_cases p (length l)) as [Hlt|Hge].
      * rewrite lookup_app_l in Hp by exact Hlt.
        destruct (Z.eqb_spec (Table_rowCount t + Z.of_nat p)
                    (Table_rowCount t + Z.of_nat (length l))); [lia|].
        apply I3. exact Hp.
      * assert (Hp' : (p < length (l ++ [r1]))%nat) by (eapply lookup_lt_Some; exact Hp).
        rewrite length_app in Hp'. simpl in Hp'.
        assert (p = length l) as -> by lia.
        rewrite lookup_app_r, Nat.sub_diag in Hp by lia. simpl in Hp.
        inversion Hp. subst r0.
        destruct (Z.eqb_spec (Table_rowCount t + Z.of_nat (length l))
                    (Table_rowCount t + Z.of_nat (length l))); [|lia].
        f_equal. apply I4. lia.
    + intros r c Hout. rewrite length_app in Hout. simpl in Hout.
      rewrite appendRow_cell, Hmid by (unfold tm; rewrite appendRows_stored; exact Hst).
      destruct (Z.eqb_spec r (Table_rowCount t + Z.of_nat (length l))); [lia|].
      apply I4. lia.
Qed.

End AppendFacts.

Section ScanTableFacts.

Variable tbl : Table.
Variable tester : Tester.
Variable test : Z -> bool.
Variable writer : Z -> World -> World.
Variable step : Z -> Table -> Table.
Variable n b : Z.

Hypothesis tester_total :
  forall w, mTable w = tbl -> tester w = Ok (test (index (mRow w))).

Hypothesis writer_keeps :
  forall i w, mTable (writer i w) = mTable w /\ indices0 (writer i w) = indices0 w.

Hypothesis writer_table :
  forall i w, mTable w = tbl -> index (mRow w) = i ->
              resultTable (writer i w) = step i (resultTable w).

Lemma visitRows_table (rs : list Z) (w : World) :
  mTable w = tbl ->
  exists w',
    visitRows tester writer rs w = Ok w' /\
    mTable w' = tbl /\ indices0 w' = indices0 w /\
    resultTable w' = foldl (fun t r => step r t) (resultTable w) (List.filter test rs).
Proof.
  revert w. induction rs as [|r rs IH]; intros w Hw.
  - exists w. auto.
  - simpl. unfold visitRow. rewrite tester_total by exact Hw. simpl.
    destruct (test r).
    + set (w1 := withRow (setIndex r (mRow w)) (noteVisited r w)).
      destruct (writer_keeps r w1) as [H1 H2].
      destruct (IH (writer r w1)) as (w' & Hrun & G1 & G2 & G3);
        [rewrite H1; exact Hw|].
      exists w'. split; [exact Hrun|]. split; [exact G1|].
      rewrite G2, G3, H2, (writer_table r w1 Hw eq_refl). auto.
    + destruct (IH (withRow (setIndex r (mRow w)) (noteVisited r w)))
        as (w' & Hrun & G1 & G2 & G3); [exact Hw|].
      exists w'. auto.
Qed.

Hypothesis batch_positive : 0 < b.

Lemma scanLoop_table (j : nat) (w : World) :
  mTable w = tbl ->
  0 <= indices0 w ->
  n <= indices0 w + Z.of_nat j * b < u32 ->
  exists w',
    scanLoop (S j) tester writer n b w = Some (Ok w') /\
    resultTable w'
    = foldl (fun t r => step r t) (resultTable w)
            (List.filter test (seqZ (indices0 w) (n - indices0 w))).
Proof.
  revert w. induction j as [|j IH]; intros w Hw Hc Hj.
  - exists (withIndices0 (toUint32 (indices0 w + b)) w).
    simpl. destruct (Z.ltb_spec (indices0 w) n) as [H|H]; [lia|].
    rewrite seqZ_nil by lia. auto.
  - change (scanLoop (S (S j)) tester writer n b w) with
      (let '(i, w1) := Atomize_add b w in
       if i <? n then
         match visitRows tester writer (seqZ i (Z.min (i + b) n - i)) w1 with
         | Ok w2 => scanLoop (S j) tester writer n b w2
         | Throw e => Some (Throw e)
         end
       else Some (Ok w1)).
    unfold Atomize_add. cbv iota beta.
    set (c := indices0 w) in *.
    destruct (Z.ltb_spec c n) as [Hlt|Hge].
    + assert (Hnowrap : toUint32 (c + b) = c + b).
      { unfold toUint32. apply Z.mod_small. nia. }
      assert (Hsplit : seqZ c (n - c)
                = seqZ c (Z.min (c + b) n - c) ++ seqZ (c + b) (n - (c + b))).
      { destruct (Z_lt_le_dec (c + b) n) as [Hin|Hout].
        - rewrite Z.min_l by lia.
          replace (n - c) with ((c + b - c) + (n - (c + b))) at 1 by lia.
          rewrite seqZ_app by lia.
          replace (c + (c + b - c)) with (c + b) by lia. reflexivity.
        - rewrite Z.min_r by lia.
          rewrite (seqZ_nil (c + b)) by lia. rewrite app_nil_r. reflexivity. }
      destruct (visitRows_table (seqZ c (Z.min (c + b) n - c))
                  (withIndices0 (toUint32 (c + b)) w))
        as (w2 & Hrun & G1 & G2 & G3); [exact Hw|].
      rewrite Hrun. simpl in G2, G3. rewrite Hnowrap in G2.
      destruct (IH w2) as (w' & Hloop & F1); [exact G1|lia|rewrite G2; nia|].
      exists w'. split; [exact Hloop|].
      rewrite F1, G2, G3, Hsplit, List.filter_app, foldl_app. reflexivity.
    + exists (withIndices0 (toUint32 (c + b)) w).
      simpl. rewrite seqZ_nil by lia. auto.
Qed.

End ScanTableFacts.

(** The scan of one worker from cursor 0 on the result table. *)
Lemma scan_result_table (_DEBUG : bool) (toNum : ByteString -> float)
  (config : Config) (tester : Tester) (test : Z -> bool)
  (writer : Z -> World -> World) (j : Z) (w w0 : World) :
  0 < rowBatchSize config ->
  0 <= Table_rowCount (mTable w) <= j * rowBatchSize config ->
  j * rowBatchSize config < u32 ->
  indices0 w = 0 ->
  _generateExpressionTester toNum (mTable w) (rules config) (mode config) = Ok tester ->
  (forall w', mTable w' = mTable w -> tester w' = Ok (test (index (mRow w')))) ->
  _generateResultWriter _DEBUG (resultDescription config) w = Ok (writer, w0) ->
  exists fuel w',
    process _DEBUG toNum fuel config w = Some (Ok w') /\
    resultTable w'
    = foldl (fun t r => appendRow (mTable w) (resultTable w) (resultDescription config)
                          (mTable w) r t)
            (resultTable w)
            (List.filter test (seqZ 0 (Table_rowCount (mTable w)))).
Proof.
  intros Hb Hn Hj Hc Htester Htest Hgen.
  destruct (compiled_writer_frame _ _ _ _ _ Hgen) as ((E1 & E2 & _ & _ & E5) & Hframe).
  assert (Hj0 : 0 <= j) by nia.
  destruct (scanLoop_table (mTable w) tester test writer
              (appendRow (mTable w) (resultTable w) (resultDescription config) (mTable w))
              (Table_rowCount (mTable w)) (rowBatchSize config) Htest)
    with (j := Z.to_nat j) (w := w0) as (w' & Hrun & Htable).
  - intros i w1. destruct (Hframe i w1) as (H1 & H2 & _). auto.
  - intros i w1 Hw1 Hi.
    rewrite (compiled_writer_table _DEBUG _ w w0 writer Hgen i w1), Hw1, Hi.
    reflexivity.
  - exact Hb.
  - exact E1.
  - rewrite E2, Hc. lia.
  - rewrite E2, Hc, Z2Nat.id by lia. lia.
  - exists (S (Z.to_nat j)), w'. split.
    + unfold process. rewrite Htester, Hgen. exact Hrun.
    + rewrite Htable, E2, Hc, E5, Z.sub_0_r. reflexivity.
Qed.

(** X16.  Batching does not show in the result: after a scan by one
    worker from cursor 0 the result table is the one the plain loop over
    the rows [0 .. rowCount - 1] leaves, which appends one result row for
    each matching row in ascending order; the batch size (positive, with
    a multiple that reaches the row count below [2^32]) does not occur in
    it. *)
Theorem scan_result_is_the_sequential_one (_DEBUG : bool) (toNum : ByteString -> float)
  (config : Config) (tester : Tester) (test : Z -> bool)
  (writer : Z -> World -> World) (j : Z) (w w0 : World) :
  0 < rowBatchSize config ->
  0 <= Table_rowCount (mTable w) <= j * rowBatchSize config ->
  j * rowBatchSize config < u32 ->
  indices0 w = 0 ->
  _generateExpressionTester toNum (mTable w) (rules config) (mode config) = Ok tester ->
  (forall w', mTable w' = mTable w -> tester w' = Ok (test (index (mRow w')))) ->
  _generateResultWriter _DEBUG (resultDescription config) w = Ok (writer, w0) ->
  exists fuel w',
    process _DEBUG toNum fuel config w = Some (Ok w') /\
    resultTable w'
    = foldl (fun t r => appendRow (mTable w) (resultTable w) (resultDescription config)
                          (mTable w) r t)
            (resultTable w)
            (List.filter test (seqZ 0 (Table_rowCount (mTable w)))).
Proof. exact (scan_result_table _DEBUG toNum config tester test writer j w w0). Qed.

(** X17.  What a scan leaves in the result table.  With [m] matching
    rows and room for them below [2^32] rows, the scan of one worker adds
    exactly [m] rows: the [p]-th matching source row, in ascending order,
    is result row [old + p], holding in every column the description
    writes what that column keeps of the value of its last entry for it
    (of the source column of that row, or of its index) and in the other
    columns whatever the memory held; the rows that were there, the
    memory beyond the new rows and the columns are unchanged.  What a
    column keeps of a value is given by its type ([stored], inside
    [rowCell]): the value itself when it is in the range of the column. *)
Theorem scan_appends_one_row_per_match (_DEBUG : bool) (toNum : ByteString -> float)
  (config : Config) (tester : Tester) (test : Z -> bool)
  (writer : Z -> World -> World) (j : Z) (w w0 : World) :
  let matches := List.filter test (seqZ 0 (Table_rowCount (mTable w))) in
  let old := Table_rowCount (resultTable w) in
  0 < rowBatchSize config ->
  0 <= Table_rowCount (mTable w) <= j * rowBatchSize config ->
  j * rowBatchSize config < u32 ->
  indices0 w = 0 ->
  _generateExpressionTester toNum (mTable w) (rules config) (mode config) = Ok tester ->
  (forall w', mTable w' = mTable w -> tester w' = Ok (test (index (mRow w')))) ->
  _generateResultWriter _DEBUG (resultDescription config) w = Ok (writer, w0) ->
  0 <= old < u32 ->
  old + Z.of_nat (length matches) <= u32 ->
  exists fuel w',
    process _DEBUG toNum fuel config w = Some (Ok w') /\
    Table_rowCount (resultTable w') = toUint32 (old + Z.of_nat (length matches)) /\
    columns (header (resultTable w')) = columns (header (resultTable w)) /\
    (forall p r c, matches !! p = Some r ->
       getCell (resultTable w') (old + Z.of_nat p) c
       = rowCell (mTable w) (resultTable w) (resultDescription config) (mTable w) r c
           (getCell (resultTable w) (old + Z.of_nat p) c)) /\
    (forall r c, ~ (old <= r < old + Z.of_nat (length matches)) ->
       getCell (resultTable w') r c = getCell (resultTable w) r c).
Proof.
  intros matches old Hb Hn Hj Hc Htester Htest Hgen Hold Hfit.
  destruct (scan_result_table _DEBUG toNum config tester test writer j w w0
              Hb Hn Hj Hc Htester Htest Hgen) as (fuel & w' & Hrun & Htable).
  exists fuel, w'. split; [exact Hrun|].
  rewrite Htable.
  apply (appendRows_spec (mTable w) (resultTable w) (mTable w) (resultDescription config)
           matches (resultTable w) eq_refl Hold Hfit).
Qed.

Lemma scan_result_sequential_witness :
  exists fuel w',
    process false toNumberNaN fuel (S4_config 8) (worldAt (idTable 50) emptyResult 0)
    = Some (Ok w') /\
    resultTable w'
    = foldl (fun t r => appendRow (idTable 50) emptyResult S6_description (idTable 50) r t)
            emptyResult (List.filter S4_test (seqZ 0 50)).
Proof.
  apply (scan_result_is_the_sequential_one false toNumberNaN (S4_config 8) (S4_tester 0)
           S4_test
           (writerOf S6_description (worldAt (idTable 50) emptyResult 0))
           7 (worldAt (idTable 50) emptyResult 0)
           (readyWorld S6_description (worldAt (idTable 50) emptyResult 0))).
  - simpl. lia.
  - unfold Table_rowCount. simpl. lia.
  - vm_compute. reflexivity.
  - reflexivity.
  - reflexivity.
  - intros w' Hw'. apply (S4_tester_total (idTable 50) 0 w' Hw').
  - reflexivity.
Defined.

Lemma scan_appends_witness :
  let w := worldAt (idTable 50) emptyResult 0 in
  let matches := List.filter S4_test (seqZ 0 50) in
  exists fuel w',
    process false toNumberNaN fuel (S4_config 8) w = Some (Ok w') /\
    Table_rowCount (resultTable w') = toUint32 (0 + Z.of_nat (length matches)) /\
    columns (header (resultTable w')) = columns (header emptyResult) /\
    (forall p r c, matches !! p = Some r ->
       getCell (resultTable w') (0 + Z.of_nat p) c
       = rowCell (idTable 50) emptyResult S6_description (idTable 50) r c
           (getCell emptyResult (0 + Z.of_nat p) c)) /\
    (forall r c, ~ (0 <= r < 0 + Z.of_nat (length matches)) ->
       getCell (resultTable w') r c = getCell emptyResult r c).
Proof.
  apply (scan_appends_one_row_per_match false toNumberNaN (S4_config 8) (S4_tester 0)
           S4_test
           (writerOf S6_description (worldAt (idTable 50) emptyResult 0))
           7 (worldAt (idTable 50) emptyResult 0)
           (readyWorld S6_description (worldAt (idTable 50) emptyResult 0))).
  - simpl. lia.
  - unfold Table_rowCount. simpl. lia.
  - vm_compute. reflexivity.
  - reflexivity.
  - reflexivity.
  - intros w' Hw'. apply (S4_tester_total (idTable 50) 0 w' Hw').
  - reflexivity.
  - vm_compute. split; [discriminate|reflexivity].
  - vm_compute. discriminate.
Defined.

(** The cells of a row appended for source row 42 of that table. *)
Example rowCell_S6 :
  map (fun c => rowCell (idTable 50) emptyResult S6_description (idTable 50) 42 c
                  (VByteString "stale")) [0; 1; 2]%nat
  = [VNum 42%float; VNum 42%float; VByteString "stale"].
Proof. vm_compute. reflexivity. Qed.

(** ** Scenario S4: the rows selected and the result table *)

(** More fuel does not change the outcome of a scan that has one. *)
Lemma scanLoop_more_fuel (fuel extra : nat) (tester : Tester)
  (writer : Z -> World -> World) (n b : Z) (w : World) (r : result World) :
  scanLoop fuel tester writer n b w = Some r ->
  scanLoop (fuel + extra) tester writer n b w = Some r.
Proof.
  revert w. induction fuel as [|fuel IH]; intros w; [discriminate|].
  simpl. destruct (indices0 w <? n); [|auto].
  destruct (visitRows tester writer _ _) as [w2|e]; [apply IH|auto].
Qed.

Lemma scanLoop_fuel_agree (fuel1 fuel2 : nat) (tester : Tester)
  (writer : Z -> World -> World) (n b : Z) (w : World) (r1 r2 : result World) :
  scanLoop fuel1 tester writer n b w = Some r1 ->
  scanLoop fuel2 tester writer n b w = Some r2 ->
  r1 = r2.
Proof.
  intros H1 H2.
  apply (scanLoop_more_fuel fuel1 fuel2) in H1.
  apply (scanLoop_more_fuel fuel2 fuel1) in H2.
  rewrite Nat.add_comm in H2. congruence.
Qed.

(** The cell of a column in a new row is what the column keeps of the
    value of the last entry that writes it. *)
Lemma rowCell_last_entry (src res source : Table)
  (d1 : list ResultDescriptionEntry) (d : ResultDescriptionEntry)
  (d2 : list ResultDescriptionEntry) (r : Z) (k' : nat) (v stale : JsValue) :
  target res d = Some k' ->
  entryValue src source r r d = Some v ->
  (forall d', In d' d2 -> target res d' <> Some k') ->
  rowCell src res (d1 ++ d :: d2) source r k' stale = stored res k' v.
Proof.
  intros Ht Hv Hlater. unfold rowCell. rewrite foldl_app. cbn [foldl].
  rewrite Ht, Hv, Nat.eqb_refl.
  generalize (stored res k' v). clear Ht Hv.
  induction d2 as [|d' d2 IH]; intros x; [reflexivity|].
  cbn [foldl].
  assert (Hd' : target res d' <> Some k') by (apply Hlater; left; reflexivity).
  destruct (target res d') as [k2|].
  - destruct (entryValue src source r r d').
    + destruct (Nat.eqb_spec k' k2) as [->|_]; [congruence|].
      apply IH. intros d0 H0. apply Hlater. right. exact H0.
    + apply IH. intros d0 H0. apply Hlater. right. exact H0.
  - apply IH. intros d0 H0. apply Hlater. right. exact H0.
Qed.

(** C7 (as amended).  On a table of 1000 rows whose numeric column [id]
    holds [0 .. 999], the scan with the DNF expression
    [[{id, in, [7, 42, 999, 1000]}]] by one worker from cursor 0, for
    every result description whose writer compiles and every batch size
    with a multiple between 1000 and [2^32], ends, visits every row once
    and writes exactly the rows 7, 42 and 999.  The result table grows by
    three rows, written for the source rows 7, 42 and 999 in that order:
    each holds in every column what the description writes there for its
    source row, the rest of the table is as it was, and a result column
    that the description last feeds from [id] holds 7, 42 and 999 in
    them when its type holds these numbers.  The rule compiles to the
    numeric [in] tester with its four values already parsed to numbers;
    that tester is true exactly when some listed value equals the field,
    and returns true at the first such value whatever follows it. *)
Theorem S4_in_selects_7_42_999 (_DEBUG : bool) (toNum : ByteString -> float)
  (k : nat) (c : Column) (description : list ResultDescriptionEntry)
  (writer : Z -> World -> World) (b j : Z) (w w0 : World) :
  let old := Table_rowCount (resultTable w) in
  names (mTable w) !! "id" = Some k ->
  columns (header (mTable w)) !! k = Some c ->
  ColumnType_eqb (type c) ByteStringType = false ->
  Table_rowCount (mTable w) = 1000 ->
  (forall r, 0 <= r < 1000 -> getCell (mTable w) r k = VNum (Z2float r)) ->
  indices0 w = 0 ->
  0 < b ->
  1000 <= j * b < u32 ->
  _generateResultWriter _DEBUG description w = Ok (writer, w0) ->
  (exists fuel w',
     process _DEBUG toNum fuel
       {| rules := Some [[S4_rule]]; mode := FilterExpressionMode.DNF;
          resultDescription := description; rowBatchSize := b |} w
     = Some (Ok w') /\
     visited w' = visited w ++ seqZ 0 1000 /\
     written w' = written w ++ [7; 42; 999] /\
     toUint32 (Table_rowCount (resultTable w')) = toUint32 (old + 3) /\
     (0 <= old -> old + 3 <= u32 ->
      (forall p r col, [7; 42; 999] !! p = Some r ->
         getCell (resultTable w') (old + Z.of_nat p) col
         = rowCell (mTable w) (resultTable w) description (mTable w) r col
             (getCell (resultTable w) (old + Z.of_nat p) col)) /\
      (forall r col, ~ (old <= r < old + 3) ->
         getCell (resultTable w') r col = getCell (resultTable w) r col) /\
      (forall d1 d d2 k',
         description = d1 ++ d :: d2 ->
         truthy (as_ d) = true ->
         column d = "id" ->
         target (resultTable w) d = Some k' ->
         (forall d', In d' d2 -> target (resultTable w) d' <> Some k') ->
         (forall i, In i [7; 42; 999] ->
            stored (resultTable w) k' (VNum (Z2float i)) = VNum (Z2float i)) ->
         map (fun p => getCell (resultTable w') (old + p) k') [0; 1; 2]
         = map (fun i => VNum (Z2float i)) [7; 42; 999]))) /\
  _generateRuleTester toNum (mTable w) S4_rule
  = Ok (Some (fun w => Ok (filterIn_number (getter k w) S4_values))) /\
  map parseFloat ["7"; "42"; "999"; "1000"] = S4_values /\
  (forall toTest values,
     filterIn_number toTest values = true <->
     exists v, In v values /\ strictEquals toTest v = true) /\
  (forall toTest vs1 v vs2,
     strictEquals toTest v = true -> filterIn_number toTest (vs1 ++ v :: vs2) = true).
Proof.
  intros old Hname Hcol Htype Hn Hid Hc Hb Hj Hgen.
  split; [|split; [exact (S4_rule_compiled toNum (mTable w) k c Hname Hcol Htype)|
           split; [reflexivity|
           split; [exact filterIn_number_spec|exact filterIn_number_first]]]].
  pose proof (S4_tester_compiled toNum (mTable w) k c Hname Hcol Htype) as Htester.
  assert (Htotal : forall w1, mTable w1 = mTable w ->
            S4_tester k w1
            = Ok ((fun r => filterIn_number (getCell (mTable w) r k) S4_values)
                    (index (mRow w1)))).
  { intros w1 Hw1. apply (S4_tester_total (mTable w) k w1 Hw1). }
  destruct (scan_single_worker_log _DEBUG (S4_tester k)
              (fun r => filterIn_number (getCell (mTable w) r k) S4_values)
              description writer b j w w0)
    as (fuel1 & w1 & last & Hrun1 & Hv & Hw & Hrc & _);
    [exact Hb|rewrite Hn; lia|lia|exact Hc|exact Htotal|exact Hgen|].
  destruct (scan_result_table _DEBUG toNum
              {| rules := Some [[S4_rule]]; mode := FilterExpressionMode.DNF;
                 resultDescription := description; rowBatchSize := b |}
              (S4_tester k)
              (fun r => filterIn_number (getCell (mTable w) r k) S4_values)
              writer j w w0)
    as (fuel2 & w2 & Hrun2 & Htable);
    [exact Hb|cbn [rowBatchSize]; rewrite Hn; lia|cbn [rowBatchSize]; lia|exact Hc
    |exact Htester|exact Htotal|exact Hgen|].
  cbn [resultDescription] in Htable.
  assert (Hsame : w2 = w1).
  { pose proof Hrun2 as H2. unfold process in H2.
    cbn [rules mode resultDescription rowBatchSize] in H2.
    rewrite Htester, Hgen in H2.
    pose proof (scanLoop_fuel_agree _ _ _ _ _ _ _ _ _ H2 Hrun1) as Heq.
    inversion Heq. reflexivity. }
  subst w2.
  rewrite Hn in *. rewrite (S4_selection_on (mTable w) k Hid) in *.
  exists fuel2, w1.
  split; [exact Hrun2|]. split; [exact Hv|]. split; [exact Hw|]. split; [exact Hrc|].
  intros Hold Hfit.
  destruct (appendRows_spec (mTable w) (resultTable w) (mTable w) description
              [7; 42; 999] (resultTable w) eq_refl)
    as (_ & _ & A3 & A4); [fold old; lia|fold old; simpl; lia|].
  rewrite <- Htable in A3, A4. fold old in A3, A4.
  split; [exact A3|]. split; [exact A4|].
  intros d1 d d2 k' Hsplit Htruthy Hcolumn Ht Hlater Hkeeps.
  assert (Hcell : forall p r, [7; 42; 999] !! p = Some r ->
            getCell (resultTable w1) (old + Z.of_nat p) k' = VNum (Z2float r)).
  { intros p r Hp. rewrite (A3 p r k' Hp), Hsplit.
    assert (Hr : In r [7; 42; 999] /\ 0 <= r < 1000).
    { destruct p as [|[|[|p]]]; inversion Hp; subst r; simpl; split; auto; lia. }
    rewrite (rowCell_last_entry (mTable w) (resultTable w) (mTable w) d1 d d2 r k'
               (VNum (Z2float r))); [apply Hkeeps; apply Hr|exact Ht| |exact Hlater].
    unfold entryValue. rewrite Htruthy, Hcolumn, Hname, Hid by apply Hr. reflexivity. }
  cbn [map].
  f_equal; [exact (Hcell 0%nat 7 eq_refl)|].
  f_equal; [exact (Hcell 1%nat 42 eq_refl)|].
  f_equal. exact (Hcell 2%nat 999 eq_refl).
Qed.

Lemma S4_in_witness :
  exists fuel w',
    process false toNumberNaN fuel (S4_config 128) (worldAt (idTable 1000) emptyResult 0)
    = Some (Ok w') /\
    visited w' = [] ++ seqZ 0 1000 /\
    written w' = [] ++ [7; 42; 999] /\
    toUint32 (Table_rowCount (resultTable w')) = toUint32 (0 + 3) /\
    map (fun p => getCell (resultTable w') (0 + p) 0) [0; 1; 2]
    = map (fun i => VNum (Z2float i)) [7; 42; 999].
Proof.
  destruct (S4_in_selects_7_42_999 false toNumberNaN 0%nat
              {| name := "id"; type := Uint32 |} S6_description
              (writerOf S6_description (worldAt (idTable 1000) emptyResult 0))
              128 8 (worldAt (idTable 1000) emptyResult 0)
              (readyWorld S6_description (worldAt (idTable 1000) emptyResult 0)))
    as [(fuel & w' & Hrun & Hv & Hw & Hrc & Hcells) _].
  - reflexivity.
  - reflexivity.
  - reflexivity.
  - reflexivity.
  - intros r _. reflexivity.
  - reflexivity.
  - lia.
  - unfold u32. lia.
  - reflexivity.
  - exists fuel, w'. split; [exact Hrun|]. split; [exact Hv|]. split; [exact Hw|].
    split; [exact Hrc|].
    destruct Hcells as (_ & _ & Hid); [vm_compute; discriminate|vm_compute; discriminate|].
    apply (Hid [] {| column := "id"; as_ := asString "id" |}
             [ {| column := EmptyString; as_ := asAbsent |} ] 0%nat).
    + reflexivity.
    + reflexivity.
    + reflexivity.
    + reflexivity.
    + intros d' [<-|[]]. vm_compute. discriminate.
    + intros i [<-|[<-|[<-|[]]]]; vm_compute; reflexivity.
Defined.

(** C7 as stated names no batch size, and fails for one the Uint32 cursor
    cannot hold.  With [rowBatchSize = 2^32 + 500] the first claim visits
    the rows [0 .. 999] and leaves the cursor at 500, the second claim
    visits the rows [500 .. 999] again: row 999 is written twice and the
    result table has four rows. *)
Lemma S4_batch_beyond_uint32_writes_999_twice :
  match process false toNumberNaN 3 (S4_config (2 ^ 32 + 500))
          (worldAt (idTable 1000) emptyResult 0) with
  | Some (Ok w) => (written w, Table_rowCount (resultTable w), resultRows 4 w)
  | _ => ([], 0, [])
  end
  = ([7; 42; 999; 999], 4,
     [ (VNum 7%float, VNum 7%float); (VNum 42%float, VNum 42%float);
       (VNum 999%float, VNum 999%float); (VNum 999%float, VNum 999%float) ]).
Proof. vm_compute. reflexivity. Qed.

(** ** Entries whose [as] is falsy *)

Lemma generateFieldWriter_falsy (src res : Table) (d d' : ResultDescriptionEntry) :
  truthy (as_ d) = false -> truthy (as_ d') = false ->
  generateFieldWriter src res d = generateFieldWriter src res d'.
Proof.
  intros H H'. unfold generateFieldWriter. rewrite H, H'. reflexivity.
Qed.

(** C10.  An entry of a result description whose [as] is falsy: absent,
    the empty string, [null], [false], a zero or NaN.  Compiling the
    description gives the very outcome it gives when that entry has any
    other falsy [as], an absent one in particular, and names any source
    column whatever: the column the entry names is not looked at.  When
    the description compiles, the result table has a column named by the
    empty string, and a call of the compiled writer with index [i] leaves
    in that column of the row it appends the index [i] as the column
    keeps it, not a cell of the source row (unless a later entry of the
    description writes that column too). *)
Theorem falsy_as_writes_row_index (_DEBUG : bool)
  (d1 : list ResultDescriptionEntry) (d : ResultDescriptionEntry)
  (d2 : list ResultDescriptionEntry) (w : World) :
  truthy (as_ d) = false ->
  (forall c' a', truthy a' = false ->
     _generateResultWriter _DEBUG (d1 ++ {| column := c'; as_ := a' |} :: d2) w
     = _generateResultWriter _DEBUG (d1 ++ d :: d2) w) /\
  (forall writer w0,
     _generateResultWriter _DEBUG (d1 ++ d :: d2) w = Ok (writer, w0) ->
     exists k',
       names (resultTable w) !! EmptyString = Some k' /\
       forall i w1,
         (forall d', In d' d2 -> target (resultTable w) d' <> Some k') ->
         getCell (resultTable (writer i w1)) (Table_rowCount (resultTable w1)) k'
         = stored (resultTable w1) k' (VNum (Z2float i))).
Proof.
  intros Hfalsy. split.
  - intros c' a' Ha'. unfold _generateResultWriter.
    destruct (getRow _DEBUG 0 None (resultTable w)) as [row|e]; [|reflexivity].
    cbn [mbind result_bind].
    rewrite (forPush_ext_at _ d1 {| column := c'; as_ := a' |} d d2); [reflexivity|].
    apply generateFieldWriter_falsy; [exact Ha'|exact Hfalsy].
  - intros writer w0 Hgen.
    destruct (generateResultWriter_inv _ _ _ _ _ Hgen) as (row & ws & _ & _ & Hpush & _).
    assert (Hd : exists fw, generateFieldWriter (mTable w) (resultTable w) d = Ok fw).
    { apply (forPush_In _ (d1 ++ d :: d2) ws d Hpush).
      apply in_or_app. right. left. reflexivity. }
    destruct Hd as [fw Hfw].
    unfold generateFieldWriter, accessor in Hfw. rewrite Hfalsy in Hfw.
    destruct (names (resultTable w) !! EmptyString) as [k'|] eqn:Hk'; [|discriminate].
    exists k'. split; [reflexivity|].
    intros i w1 Hlater.
    rewrite (compiled_writer_table _DEBUG (d1 ++ d :: d2) w w0 writer Hgen i w1).
    rewrite (writeEntries_last_cell _ _ _ _ _ _ d1 d d2 _ k' (VNum (Z2float i))).
    + reflexivity.
    + unfold target. rewrite Hfalsy. exact Hk'.
    + unfold entryValue. rewrite Hfalsy. reflexivity.
    + exact Hlater.
Qed.

Lemma falsy_as_witness :
  let w := worldAt peopleTable emptyResult 1 in
  let writer := writerOf emptyAs_description w in
  let w1 := readyWorld emptyAs_description w in
  _generateResultWriter false [ {| column := "nowhere"; as_ := asNull |} ] w
  = Ok (writer, w1) /\
  getCell (resultTable (writer 1 w1)) 0 1 = VNum 1%float /\
  getCell (mTable w1) 1 0 = VNum 2%float /\
  getCell (resultTable (writer 1 w1)) 0 0 = getCell (resultTable w1) 0 0.
Proof.
  destruct (falsy_as_writes_row_index false []
              {| column := "id"; as_ := asString EmptyString |} []
              (worldAt peopleTable emptyResult 1))
    as [Hsame Hwriter].
  - reflexivity.
  - destruct (Hwriter (writerOf emptyAs_description (worldAt peopleTable emptyResult 1))
                (readyWorld emptyAs_description (worldAt peopleTable emptyResult 1))
                eq_refl) as (k' & Hk' & Hcell).
    split; [exact (Hsame "nowhere" asNull eq_refl)|].
    assert (k' = 1%nat) as -> by (vm_compute in Hk'; inversion Hk'; reflexivity).
    pose proof (Hcell 1 (readyWorld emptyAs_description (worldAt peopleTable emptyResult 1))
                  (fun d' (H : In d' []) => match H with end)) as H1.
    split; [|split; vm_compute; reflexivity].
    etransitivity; [exact H1|vm_compute; reflexivity].
Defined.

(** ** The worker serves one table *)

Section WorkerTable.

Variable _DEBUG : bool.
Variable toNum : ByteString -> float.

Lemma visitRows_mTable (tester : Tester) (writer : Z -> World -> World)
  (rs : list Z) (w w' : World) :
  (forall i w, mTable (writer i w) = mTable w) ->
  visitRows tester writer rs w = Ok w' -> mTable w' = mTable w.
Proof.
  intros Hkeep. revert w. induction rs as [|r rs IH]; intros w; simpl.
  - intros H. inversion H. reflexivity.
  - unfold visitRow.
    destruct (tester (withRow (setIndex r (mRow w)) (noteVisited r w))) as [[|]|e];
      try discriminate; intros H; rewrite (IH _ H); [rewrite Hkeep|]; reflexivity.
Qed.

Lemma scanLoop_mTable (fuel : nat) (tester : Tester) (writer : Z -> World -> World)
  (n b : Z) (w w' : World) :
  (forall i w, mTable (writer i w) = mTable w) ->
  scanLoop fuel tester writer n b w = Some (Ok w') -> mTable w' = mTable w.
Proof.
  intros Hkeep. revert w. induction fuel as [|fuel IH]; intros w; [discriminate|].
  simpl. destruct (indices0 w <? n).
  - destruct (visitRows tester writer _ _) as [w2|e] eqn:Hrows; [|discriminate].
    intros H. rewrite (IH _ H).
    apply (visitRows_mTable _ _ _ _ _ Hkeep Hrows).
  - intros H. inversion H. reflexivity.
Qed.

Lemma process_mTable (fuel : nat) (config : Config) (w w' : World) :
  process _DEBUG toNum fuel config w = Some (Ok w') -> mTable w' = mTable w.
Proof.
  unfold process.
  destruct (_generateExpressionTester toNum (mTable w) (rules config) (mode config))
    as [tester|e]; [|discriminate].
  destruct (_generateResultWriter _DEBUG (resultDescription config) w)
    as [[writer w0]|e] eqn:Hgen; [|discriminate].
  destruct (compiled_writer_frame _ _ _ _ _ Hgen) as ((E1 & _) & Hframe).
  intros H. rewrite <- E1.
  apply (scanLoop_mTable _ _ _ _ _ _ _ (fun i w1 => proj1 (Hframe i w1)) H).
Qed.

Lemma onMessage_table (fuel : nat) (m : Message) (st st' : Worker) :
  filterWorkerOnMessage _DEBUG toNum fuel m st = Some (Returned st') ->
  (forall p, gProcessor st = Some p ->
     exists p', gProcessor st' = Some p' /\ p_mTable p' = p_mTable p) /\
  (gProcessor st = None ->
     p_mTable <$> gProcessor st' = firstInitialize [m]).
Proof.
  destruct m as [table|options|type]; simpl.
  - destruct (gProcessor st) as [p|] eqn:Hp.
    + intros H. inversion H. simpl. rewrite Hp. split; [|discriminate].
      intros p0 Hp0. inversion Hp0. subst. eauto.
    + unfold new_FilterProcessor.
      destruct (getBinaryRow _DEBUG 0 None table) as [row|e]; simpl; [|discriminate].
      intros H. inversion H. simpl. split; [discriminate|]. reflexivity.
  - destruct (gProcessor st) as [p|] eqn:Hp.
    + destruct (process _DEBUG toNum fuel options (worldOf p (shared st)))
        as [[w|e]|] eqn:Hrun; try discriminate.
      intros H. inversion H. simpl. split; [|discriminate].
      intros p0 Hp0. inversion Hp0. subst. eexists. split; [reflexivity|].
      simpl. apply (process_mTable _ _ _ _ Hrun).
    + intros H. inversion H. simpl. rewrite Hp. split; [discriminate|reflexivity].
  - intros H. inversion H. simpl. split.
    + intros p Hp. eauto.
    + intros Hp. rewrite Hp. reflexivity.
Qed.

(** X18.  A worker serves one table for its whole life.  Over any
    sequence of messages the handler returns from: a processor that is
    held keeps its table, whatever scans and further [initialize]
    messages follow; and a worker that starts without a processor ends
    with the table of the first [initialize] of the sequence, or with
    none when the sequence has no [initialize].  No message replaces or
    drops the processor. *)
Theorem worker_serves_one_table (fuel : nat) (messages : list Message) (st st' : Worker) :
  handleAll _DEBUG toNum fuel messages st = Some (Returned st') ->
  (forall p, gProcessor st = Some p ->
     exists p', gProcessor st' = Some p' /\ p_mTable p' = p_mTable p) /\
  (gProcessor st = None ->
     p_mTable <$> gProcessor st' = firstInitialize messages).
Proof.
  revert st. induction messages as [|m messages IH]; intros st; simpl.
  - intros H. inversion H. split; [eauto|]. intros ->. reflexivity.
  - destruct (filterWorkerOnMessage _DEBUG toNum fuel m st) as [[st1|e replies]|] eqn:Hm;
      try discriminate.
    intros H. destruct (IH st1 H) as [IH1 IH2].
    destruct (onMessage_table fuel m st st1 Hm) as [S1 S2].
    split.
    + intros p Hp. destruct (S1 p Hp) as (p1 & Hp1 & Ht1).
      destruct (IH1 p1 Hp1) as (p' & Hp' & Ht'). exists p'. split; [exact Hp'|congruence].
    + intros Hp. specialize (S2 Hp).
      destruct m as [table|options|type]; simpl in *.
      * destruct (gProcessor st1) as [p1|] eqn:Hp1; [|discriminate].
        destruct (IH1 p1 eq_refl) as (p' & Hp' & Ht').
        rewrite Hp'. simpl. inversion S2. congruence.
      * destruct (gProcessor st1) as [p1|] eqn:Hp1; [discriminate|]. apply IH2. reflexivity.
      * destruct (gProcessor st1) as [p1|] eqn:Hp1; [discriminate|]. apply IH2. reflexivity.
Qed.

End WorkerTable.

Lemma worker_serves_one_table_witness :
  exists st',
    handleAll false toNumberNaN 4
      [ unrecognized "ping"; initialize (idTable 3);
        processFilters (everyRow_config 2); initialize peopleTable ] freshWorker
    = Some (Returned st') /\
    (forall p, gProcessor freshWorker = Some p ->
       exists p', gProcessor st' = Some p' /\ p_mTable p' = p_mTable p) /\
    (gProcessor freshWorker = None ->
       p_mTable <$> gProcessor st'
       = firstInitialize [ unrecognized "ping"; initialize (idTable 3);
                           processFilters (everyRow_config 2); initialize peopleTable ]).
Proof.
  destruct (handleAll false toNumberNaN 4
              [ unrecognized "ping"; initialize (idTable 3);
                processFilters (everyRow_config 2); initialize peopleTable ] freshWorker)
    as [[st'|e replies]|] eqn:Hrun.
  - exists st'. split; [reflexivity|].
    apply (worker_serves_one_table false toNumberNaN 4 _ freshWorker st' Hrun).
  - assert (Hret : match handleAll false toNumberNaN 4
                           [ unrecognized "ping"; initialize (idTable 3);
                             processFilters (everyRow_config 2); initialize peopleTable ]
                           freshWorker with
                   | Some (Returned _) => true
                   | _ => false
                   end = true) by (vm_compute; reflexivity).
    rewrite Hrun in Hret. discriminate.
  - assert (Hret : match handleAll false toNumberNaN 4
                           [ unrecognized "ping"; initialize (idTable 3);
                             processFilters (everyRow_config 2); initialize peopleTable ]
                           freshWorker with
                   | Some (Returned _) => true
                   | _ => false
                   end = true) by (vm_compute; reflexivity).
    rewrite Hrun in Hret. discriminate.
Defined.

(** ** Iteration: the one row object *)

Lemma last_seqZ (m n : Z) : 0 < n -> last (seqZ m n) = Some (m + n - 1).
Proof.
  intros Hn. replace n with ((n - 1) + 1) at 1 by lia.
  rewrite seqZ_app by lia. change (seqZ (m + (n - 1)) 1) with [m + (n - 1)].
  rewrite last_snoc. f_equal. lia.
Qed.

(** The row objects after the loop of [forEach]: the one the loop moves
    holds the last index of the loop, every other one is untouched. *)
Lemma forEach_loop_rows (itr : Callback (list (RowRef * option Z * Z)))
  (ref : RowRef) (l : list Z) (w : TableWorld (list (RowRef * option Z * Z))) :
  recording itr ->
  (ref < length (twRows w))%nat ->
  let w' := foldl (fun w i => itr ref i (storeIndex ref i w)) w l in
  loadIndex ref w' = from_option Some (loadIndex ref w) (last l) /\
  (forall r, r <> ref -> twRows w' !! r = twRows w !! r).
Proof.
  intros Hrec. revert w. induction l as [|i l IH]; intros w Hlt; simpl.
  - split; reflexivity.
  - destruct (Hrec ref i (storeIndex ref i w)) as [_ Hrows].
    destruct (IH (itr ref i (storeIndex ref i w))) as [IH1 IH2].
    { rewrite Hrows, storeIndex_length. exact Hlt. }
    split.
    + rewrite IH1. destruct l as [|j l]; simpl.
      * unfold loadIndex. rewrite Hrows.
        apply (loadIndex_storeIndex ref i w Hlt).
      * change (last (i :: j :: l)) with (last (j :: l)).
        destruct (last (j :: l)) eqn:E; [reflexivity|].
        apply last_None in E. discriminate.
    + intros r Hr. rewrite (IH2 r Hr), Hrows. unfold storeIndex. simpl.
      apply list_lookup_alter_ne. congruence.
Qed.

(** X19.  [forEach] hands out one row object and moves it: once the loop
    is over, that object holds the index of the last call, so a row kept
    from any earlier call reads the last row, not the one it was handed
    for.  The row objects that existed before are not touched. *)
Theorem forEach_leaves_the_row_at_the_last_index
  (itr : Callback (list (RowRef * option Z * Z)))
  (w : TableWorld (list (RowRef * option Z * Z))) :
  recording itr ->
  let ref := length (twRows w) in
  let n := Table_rowCount (twTable (itr ref 0 (snd (allocRow (newRow 0 false) w)))) in
  loadIndex ref (forEach itr w) = Some (Z.max 1 n - 1) /\
  (forall r, (r < ref)%nat -> twRows (forEach itr w) !! r = twRows w !! r).
Proof.
  intros Hrec ref n. unfold forEach.
  change (allocRow (newRow 0 false) w) with (ref, snd (allocRow (newRow 0 false) w)).
  cbv iota beta. fold n.
  set (w1 := itr ref 0 (snd (allocRow (newRow 0 false) w))).
  destruct (Hrec ref 0 (snd (allocRow (newRow 0 false) w))) as [_ Hrows].
  fold w1 in Hrows. simpl in Hrows.
  assert (Hlt : (ref < length (twRows w1))%nat).
  { rewrite Hrows, length_app. simpl. unfold ref. lia. }
  destruct (forEach_loop_rows itr ref (seqZ 1 (n - 1)) w1 Hrec Hlt) as [L1 L2].
  split.
  - rewrite L1. destruct (Z_lt_le_dec 1 n) as [Hn|Hn].
    + rewrite last_seqZ by lia. simpl. f_equal. lia.
    + rewrite seqZ_nil by lia. simpl.
      unfold loadIndex. rewrite Hrows.
      rewrite lookup_app_r by (unfold ref; lia).
      unfold ref. rewrite Nat.sub_diag. simpl. f_equal. lia.
  - intros r Hr. rewrite L2 by lia. rewrite Hrows.
    apply lookup_app_l. exact Hr.
Qed.

Lemma forEach_last_index_witness :
  recording (growAndLog 2) /\
  loadIndex 0%nat (forEach (growAndLog 2)
                     {| twTable := idTable 3; twRows := []; twUser := [] |}) = Some 4.
Proof.
  split; [exact (growAndLog_recording 2)|].
  exact (proj1 (forEach_leaves_the_row_at_the_last_index (growAndLog 2)
                  {| twTable := idTable 3; twRows := []; twUser := [] |}
                  (growAndLog_recording 2))).
Defined.

Lemma growAndYield_recordingBody (k : Z) : recordingBody (growAndYield k).
Proof. intros ref w. split; reflexivity. Qed.

(** Draining an iterator with a recording body. *)
Lemma forOf_body_log
  (body : RowRef -> TableWorld (list (RowRef * option Z)) -> TableWorld (list (RowRef * option Z)))
  (k : nat) (it : Iterator) (w : TableWorld (list (RowRef * option Z))) :
  recordingBody body ->
  (it_row it < length (twRows w))%nat ->
  Z.to_nat (it_n it - it_i it) = k ->
  exists w',
    forOf (S k) body it w = Some w' /\
    twUser w' = twUser w ++
      map (fun i => (it_row it, Some i)) (seqZ (it_i it) (it_n it - it_i it)).
Proof.
  intros Hrec. revert it w. induction k as [|k IH]; intros it w Hlt Hk.
  - exists w. simpl. unfold next.
    destruct (Z.ltb_spec (it_i it) (it_n it)) as [H|H]; [lia|].
    split; [reflexivity|].
    rewrite seqZ_nil by lia. simpl. rewrite app_nil_r. reflexivity.
  - assert (Hi : it_i it < it_n it) by lia.
    set (it' := {| it_i := it_i it + 1; it_n := it_n it; it_row := it_row it |}).
    set (w1 := body (it_row it) (storeIndex (it_row it) (it_i it) w)).
    destruct (Hrec (it_row it) (storeIndex (it_row it) (it_i it) w)) as [Hlog1 Hrows1].
    fold w1 in Hlog1, Hrows1.
    destruct (IH it' w1) as [w' [Hrun Hlog]].
    + rewrite Hrows1, storeIndex_length. exact Hlt.
    + unfold it'. simpl. lia.
    + exists w'. split.
      * change (forOf (S (S k)) body it w) with
          (match next it w with
           | (Some row, it2, w2) => forOf (S k) body it2 (body row w2)
           | (None, _, w2) => Some w2
           end).
        unfold next. destruct (Z.ltb_spec (it_i it) (it_n it)) as [H|H]; [|lia].
        exact Hrun.
      * rewrite Hlog, Hlog1. unfold it'. simpl.
        rewrite (loadIndex_storeIndex (it_row it) (it_i it) w Hlt).
        rewrite <- app_assoc. f_equal.
        rewrite (seqZ_cons (it_i it) (it_n it - it_i it)) by lia. simpl.
        replace (Z.succ (it_i it)) with (it_i it + 1) by lia.
        replace (Z.pred (it_n it - it_i it)) with (it_n it - (it_i it + 1)) by lia.
        reflexivity.
Qed.

(** X20.  The iterator reads the row count once, when it is created: a
    loop over it ends, and yields exactly the rows below that count,
    whatever the loop body does to the table; rows added while iterating
    are not yielded. *)
Theorem iterator_yields_the_rows_of_its_creation
  (body : RowRef -> TableWorld (list (RowRef * option Z)) -> TableWorld (list (RowRef * option Z)))
  (w : TableWorld (list (RowRef * option Z))) :
  recordingBody body ->
  let start := iterator w in
  exists fuel w',
    forOf fuel body (fst start) (snd start) = Some w' /\
    twUser w' = twUser w ++
      map (fun i => (length (twRows w), Some i)) (seqZ 0 (Table_rowCount (twTable w))).
Proof.
  intros Hrec start.
  destruct (forOf_body_log body (Z.to_nat (Table_rowCount (twTable w)))
              (fst start) (snd start) Hrec) as [w' [Hrun Hlog]].
  - unfold start, iterator. simpl. rewrite length_app. simpl. lia.
  - unfold start, iterator. simpl. f_equal. lia.
  - exists (S (Z.to_nat (Table_rowCount (twTable w)))), w'. split; [exact Hrun|].
    rewrite Hlog. unfold start, iterator. simpl.
    rewrite Z.sub_0_r. reflexivity.
Qed.

Lemma iterator_creation_witness :
  recordingBody (growAndYield 5) /\
  exists fuel w',
    forOf fuel (growAndYield 5)
      (fst (iterator (A := list (RowRef * option Z))
                     {| twTable := idTable 2; twRows := []; twUser := [] |}))
      (snd (iterator {| twTable := idTable 2; twRows := []; twUser := [] |})) = Some w' /\
    twUser w' = [(0%nat, Some 0); (0%nat, Some 1)].
Proof.
  split; [exact (growAndYield_recordingBody 5)|].
  exact (iterator_yields_the_rows_of_its_creation (growAndYield 5)
           {| twTable := idTable 2; twRows := []; twUser := [] |}
           (growAndYield_recordingBody 5)).
Defined.

(** ** Several workers on one scan *)

(** *** One worker on its own takes the steps of [scanLoop] *)

Section StepsAlone.

Variable tester : Tester.
Variable writers : list FieldWriter.
Variables n b : Z.

Lemma runWorker_add (s1 s2 : nat) (c : Pc) (w : World) :
  runWorker tester writers n b (s1 + s2) c w = runWorker tester writers n b s2 (fst (runWorker tester writers n b s1 c w)) (snd (runWorker tester writers n b s1 c w)).
Proof.
  revert c w. induction s1 as [|s1 IH]; intros c w; simpl; [reflexivity|].
  destruct (workerStep tester writers n b c w) as [c' w']. apply IH.
Qed.

Lemma runWorker_writes (k : nat) (r m : Z) (i : nat) (w : World) :
  (length writers - i)%nat = k ->
  runWorker tester writers n b (S k) (atWrite r m i) w
  = (atTest (r + 1) m, foldl (fun w writer => writer r w) w (drop i writers)).
Proof.
  revert i w. induction k as [|k IH]; intros i w Hk.
  - rewrite drop_ge by lia. cbn [runWorker workerStep foldl].
    rewrite (lookup_ge_None_2 writers i) by lia. reflexivity.
  - destruct (lookup_lt_is_Some_2 writers i ltac:(lia)) as [fw Hfw].
    rewrite (drop_S writers fw i Hfw).
    change (runWorker tester writers n b (S (S k)) (atWrite r m i) w)
      with (let '(c', w') := workerStep tester writers n b (atWrite r m i) w in runWorker tester writers n b (S k) c' w').
    cbn [workerStep]. rewrite Hfw. cbn [foldl]. apply IH. lia.
Qed.

Lemma runWorker_row (r m : Z) (w : World) :
  r < m ->
  match visitRow tester (resultWriter writers) r w with
  | Ok w' => exists steps, runWorker tester writers n b steps (atTest r m) w = (atTest (r + 1) m, w')
  | Throw e => exists w', runWorker tester writers n b 1 (atTest r m) w = (failed e r m, w')
  end.
Proof.
  intros Hr. unfold visitRow.
  set (w1 := withRow (setIndex r (mRow w)) (noteVisited r w)).
  destruct (tester w1) as [[|]|e] eqn:Htest.
  - exists (1 + (1 + S (length writers)))%nat.
    rewrite runWorker_add.
    assert (H1 : runWorker tester writers n b 1 (atTest r m) w = (atAlloc r m, w1)).
    { simpl. destruct (Z.ltb_spec r m); [|lia]. fold w1. rewrite Htest. reflexivity. }
    rewrite H1. simpl fst. simpl snd. rewrite runWorker_add.
    set (w2 := withResult (snd (addRows 1 (resultTable w1)))
                 (setIndex (fst (addRows 1 (resultTable w1))) (resultRow w1))
                 (noteWritten r w1)).
    assert (H2 : runWorker tester writers n b 1 (atAlloc r m) w1 = (atWrite r m 0, w2)) by reflexivity.
    change (resultWriter writers r w1)
      with (foldl (fun w writer => writer r w) w2 writers).
    rewrite H2. simpl fst. simpl snd.
    rewrite (runWorker_writes (length writers) r m 0 w2) by lia. reflexivity.
  - exists 1%nat. simpl. destruct (Z.ltb_spec r m); [|lia]. fold w1. rewrite Htest.
    reflexivity.
  - exists w1. simpl. destruct (Z.ltb_spec r m); [|lia]. fold w1. rewrite Htest.
    reflexivity.
Qed.

Lemma runWorker_rows (k : nat) (r m : Z) (w : World) :
  Z.to_nat (m - r) = k ->
  match visitRows tester (resultWriter writers) (seqZ r (m - r)) w with
  | Ok w' => exists steps, runWorker tester writers n b steps (atTest r m) w = (atClaim, w')
  | Throw e => exists steps r' w', runWorker tester writers n b steps (atTest r m) w = (failed e r' m, w')
  end.
Proof.
  revert r w. induction k as [|k IH]; intros r w Hk.
  - rewrite seqZ_nil by lia. simpl. exists 1%nat. simpl.
    destruct (Z.ltb_spec r m); [lia|reflexivity].
  - rewrite seqZ_cons by lia.
    replace (Z.succ r) with (r + 1) by lia.
    replace (Z.pred (m - r)) with (m - (r + 1)) by lia.
    cbn [visitRows].
    pose proof (runWorker_row r m w ltac:(lia)) as Hrow.
    destruct (visitRow tester (resultWriter writers) r w) as [w1|e].
    + destruct Hrow as [s1 Hs1].
      specialize (IH (r + 1) w1 ltac:(lia)).
      destruct (visitRows tester (resultWriter writers) (seqZ (r + 1) (m - (r + 1))) w1)
        as [w2|e].
      * destruct IH as [s2 Hs2]. exists (s1 + s2)%nat.
        rewrite runWorker_add, Hs1. exact Hs2.
      * destruct IH as (s2 & r' & w' & Hs2). exists (s1 + s2)%nat, r', w'.
        rewrite runWorker_add, Hs1. exact Hs2.
    + destruct Hrow as [w' Hw']. exists 1%nat, r, w'. exact Hw'.
Qed.

(** The steps of one worker on its own end where [scanLoop] ends, with
    the state [scanLoop] ends with. *)
Lemma runWorker_scanLoop (fuel : nat) (w : World) :
  match scanLoop fuel tester (resultWriter writers) n b w with
  | Some (Ok w') => exists steps, runWorker tester writers n b steps atClaim w = (finished, w')
  | Some (Throw e) => exists steps r m w', runWorker tester writers n b steps atClaim w = (failed e r m, w')
  | None => True
  end.
Proof.
  revert w. induction fuel as [|fuel IH]; intros w; [exact I|].
  cbn [scanLoop]. unfold Atomize_add.
  set (w1 := withIndices0 (toUint32 (indices0 w + b)) w).
  destruct (Z.ltb_spec (indices0 w) n) as [Hlt|Hge].
  - assert (H1 : runWorker tester writers n b 1 atClaim w
                 = (atTest (indices0 w) (Z.min (indices0 w + b) n), w1)).
    { simpl. destruct (Z.ltb_spec (indices0 w) n); [reflexivity|lia]. }
    pose proof (runWorker_rows _ (indices0 w) (Z.min (indices0 w + b) n) w1 eq_refl) as Hrows.
    destruct (visitRows tester (resultWriter writers) _ w1) as [w2|e].
    + destruct Hrows as [s2 Hs2]. specialize (IH w2).
      destruct (scanLoop fuel tester (resultWriter writers) n b w2) as [[w3|e]|]; [| |exact I].
      * destruct IH as [s3 Hs3]. exists (1 + (s2 + s3))%nat.
        rewrite runWorker_add, H1. simpl fst. simpl snd.
        rewrite runWorker_add, Hs2. exact Hs3.
      * destruct IH as (s3 & r & m & w' & Hs3). exists (1 + (s2 + s3))%nat, r, m, w'.
        rewrite runWorker_add, H1. simpl fst. simpl snd.
        rewrite runWorker_add, Hs2. exact Hs3.
    + destruct Hrows as (s2 & r' & w' & Hs2). exists (1 + s2)%nat, r', (Z.min (indices0 w + b) n), w'.
      rewrite runWorker_add, H1. exact Hs2.
  - exists 1%nat. simpl. destruct (Z.ltb_spec (indices0 w) n); [lia|reflexivity].
Qed.

End StepsAlone.
(** *** Any interleaving *)

Lemma insert_Permutation {A} (l : list A) (k : nat) (x y : A) :
  l !! k = Some x -> <[k := y]> l ≡ₚ y :: delete k l.
Proof.
  intros H. rewrite insert_take_drop by (eapply lookup_lt_Some; exact H).
  rewrite delete_take_drop. symmetry. apply Permutation_middle.
Qed.

Lemma bind_insert {A B} (f : A -> list B) (l : list A) (k : nat) (x y : A) :
  l !! k = Some x ->
  l ≫= f ≡ₚ f x ++ (delete k l ≫= f) /\
  <[k := y]> l ≫= f ≡ₚ f y ++ (delete k l ≫= f).
Proof.
  intros H. split.
  - rewrite (delete_Permutation l k x H) at 1. rewrite bind_cons. reflexivity.
  - rewrite (insert_Permutation l k x y H). rewrite bind_cons. reflexivity.
Qed.

Lemma sum_insert {A} (f : A -> nat) (l : list A) (k : nat) (x y : A) :
  l !! k = Some x ->
  sum_list_with f l = (f x + sum_list_with f (delete k l))%nat /\
  sum_list_with f (<[k := y]> l) = (f y + sum_list_with f (delete k l))%nat.
Proof.
  intros H. split.
  - rewrite (delete_Permutation l k x H) at 1. reflexivity.
  - rewrite (insert_Permutation l k x y H). reflexivity.
Qed.

Lemma sum_list_with_le_length {A} (f : A -> nat) (l : list A) :
  (forall x, f x <= 1)%nat -> (sum_list_with f l <= length l)%nat.
Proof.
  intros Hf. induction l as [|x l IH]; simpl; [lia|]. specialize (Hf x). lia.
Qed.

Lemma toUint32_step (x y : Z) :
  toUint32 x = toUint32 y -> toUint32 (toUint32 (x + 1)) = toUint32 (y + 1).
Proof.
  unfold toUint32. intros H. rewrite Z.mod_mod by (unfold u32; lia).
  rewrite (Z.add_mod x), (Z.add_mod y) by (unfold u32; lia). rewrite H. reflexivity.
Qed.

Lemma writesOneCell_frame (fw : FieldWriter) (i : Z) (w : World) :
  writesOneCell fw -> sameFrame w (fw i w).
Proof.
  intros Hfw. destruct (Hfw i w) as [k [v ->]]. repeat split.
Qed.

Section PoolFacts.

Variable tester : Tester.
Variable writers : list FieldWriter.
Variables n b j : Z.
Variable N : nat.

Hypothesis batch_positive : 0 < b.
Hypothesis rows_reached : 0 <= n <= j * b.
Hypothesis cursor_fits : (j + Z.of_nat N) * b < u32.
Hypothesis writers_frame : Forall writesOneCell writers.

Lemma workerStep_visits (c : Pc) (w : World) (c' : Pc) (w' : World) :
  workerStep tester writers n b c w = (c', w') ->
  (c = atClaim /\ visited w' = visited w /\
   indices0 w' = toUint32 (indices0 w + b) /\
   c' = (if indices0 w <? n then atTest (indices0 w) (Z.min (indices0 w + b) n)
         else finished))
  \/
  (c <> atClaim /\ indices0 w' = indices0 w /\
   visited w' ++ remaining c' = visited w ++ remaining c /\
   isFinished c' = isFinished c).
Proof.
  destruct c as [|r m|r m|r m i| |e r m]; cbn [workerStep]; intros H.
  - left. unfold Atomize_add in H.
    destruct (indices0 w <? n); inversion H; subst; repeat split.
  - right. split; [discriminate|].
    destruct (Z.ltb_spec r m) as [Hr|Hr].
    + assert (Hseq : [r] ++ seqZ (r + 1) (m - (r + 1)) = seqZ r (m - r)).
      { rewrite (seqZ_cons r (m - r)) by lia. simpl.
        replace (Z.succ r) with (r + 1) by lia.
        replace (Z.pred (m - r)) with (m - (r + 1)) by lia. reflexivity. }
      destruct (tester _) as [[|]|e]; inversion H; subst; simpl;
        rewrite <- Hseq, <- app_assoc; repeat split; reflexivity.
    + inversion H; subst. simpl. rewrite seqZ_nil by lia. repeat split; reflexivity.
  - right. split; [discriminate|]. inversion H; subst. simpl. repeat split; reflexivity.
  - right. split; [discriminate|].
    destruct (writers !! i) as [fw|] eqn:Hfw; inversion H; subst.
    + assert (Hone : writesOneCell fw).
      { eapply (proj1 (Forall_lookup _ _) writers_frame). exact Hfw. }
      destruct (writesOneCell_frame fw r w Hone) as (_ & _ & F3 & F4 & _).
      rewrite F3, F4. simpl. repeat split; reflexivity.
    + simpl. repeat split; reflexivity.
  - right. split; [discriminate|]. inversion H; subst. repeat split; reflexivity.
  - right. split; [discriminate|]. inversion H; subst. repeat split; reflexivity.
Qed.

Lemma finishedCount_bound (ts : list Thread) (k : nat) (t : Thread) :
  ts !! k = Some t -> isFinished (pc t) = false ->
  (sum_list_with (fun t => if isFinished (pc t) then 1 else 0)%nat ts < length ts)%nat.
Proof.
  intros Hk Hf.
  destruct (sum_insert (fun t => if isFinished (pc t) then 1 else 0)%nat ts k t t Hk)
    as [-> _].
  rewrite Hf.
  pose proof (sum_list_with_le_length
                (fun t => if isFinished (pc t) then 1 else 0)%nat (delete k ts)) as Hle.
  rewrite length_delete in Hle by (rewrite Hk; eauto).
  pose proof (lookup_lt_Some _ _ _ Hk).
  assert (forall x : Thread, ((if isFinished (pc x) then 1 else 0) <= 1)%nat)
    by (intros x; destruct (isFinished (pc x)); lia).
  specialize (Hle H0). lia.
Qed.

Lemma poolStep_visitInvariant (k : nat) (p : Pool) :
  visitInvariant n b j N p ->
  visitInvariant n b j N (poolStep tester writers n b k p).
Proof.
  intros (HN & (m & Hm0 & Hc & Hmj & Hfin) & Hperm). unfold poolStep.
  destruct (pThreads p !! k) as [t|] eqn:Hk.
  2:{ split; [exact HN|]. split; [|exact Hperm]. exists m. auto. }
  destruct (workerStep tester writers n b (pc t) (viewOf p t)) as [c' w'] eqn:Hstep.
  destruct (bind_insert tVisited (pThreads p) k t (threadOf c' w') Hk) as [HV HV'].
  destruct (bind_insert (fun t => remaining (pc t)) (pThreads p) k t (threadOf c' w') Hk)
    as [HR HR'].
  destruct (sum_insert (fun t => if isFinished (pc t) then 1 else 0)%nat
              (pThreads p) k t (threadOf c' w') Hk) as [HF HF'].
  unfold allVisited, allRemaining in Hperm. rewrite HV, HR in Hperm.
  unfold finishedCount in Hmj, Hfin.
  unfold visitInvariant, cursorInvariant, allVisited, allRemaining, finishedCount.
  cbn [pThreads pIndices0]. rewrite length_insert, HV', HR', HF'.
  cbn [threadOf tVisited pc].
  split; [exact HN|].
  destruct (workerStep_visits _ _ _ _ Hstep) as [(E1 & E2 & E3 & E4)|(E1 & E2 & E3 & E4)].
  - (* a claim *)
    rewrite E1 in *. cbn [viewOf indices0 visited] in *.
    pose proof (finishedCount_bound (pThreads p) k t Hk ltac:(rewrite E1; reflexivity))
      as Hbound.
    rewrite HN in Hbound.
    assert (Hnowrap : toUint32 (pIndices0 p + b) = (m + 1) * b).
    { unfold toUint32. rewrite Z.mod_small; [lia|]. unfold u32 in *. nia. }
    rewrite E3, Hnowrap. rewrite Hc in E4.
    destruct (Z.ltb_spec (m * b) n) as [Hlt|Hge]; subst c'.
    + cbn [isFinished remaining]. rewrite HF in Hmj, Hfin. cbn [isFinished] in Hmj, Hfin.
      split.
      * exists (m + 1). split; [lia|]. split; [reflexivity|]. split; [nia|].
        intros Hpos. specialize (Hfin Hpos). lia.
      * rewrite E2. cbn [remaining] in Hperm. rewrite Hc in Hperm.
        rewrite Z.min_l in Hperm by lia.
        replace (Z.min ((m + 1) * b) n)
          with (m * b + (Z.min (m * b + b) n - m * b)) by lia.
        rewrite seqZ_app by lia. rewrite <- Hperm. solve_Permutation.
    + cbn [isFinished remaining]. rewrite HF in Hmj, Hfin. cbn [isFinished] in Hmj, Hfin.
      split.
      * exists (m + 1). split; [lia|]. split; [reflexivity|]. split; [lia|].
        intros _. nia.
      * rewrite E2. cbn [remaining] in Hperm. rewrite Hc in Hperm.
        rewrite Z.min_r in Hperm by lia. rewrite Z.min_r by nia. exact Hperm.
  - (* any other step *)
    cbn [viewOf indices0 visited] in *.
    rewrite E2. rewrite HF in Hmj, Hfin. rewrite E4.
    split.
    + exists m. auto.
    + rewrite <- Hperm.
      transitivity ((visited w' ++ remaining c') ++ (delete k (pThreads p) ≫= tVisited)
                    ++ (delete k (pThreads p) ≫= (fun t => remaining (pc t))));
        [solve_Permutation|].
      rewrite E3. solve_Permutation.
Qed.


Lemma runPool_visitInvariant (schedule : list nat) (p : Pool) :
  visitInvariant n b j N p ->
  visitInvariant n b j N (runPool tester writers n b schedule p).
Proof.
  revert p. induction schedule as [|k schedule IH]; intros p Hp; [exact Hp|].
  apply IH.
  apply (poolStep_visitInvariant k p Hp).
Qed.

Lemma starting_aggregates (p : Pool) :
  starting p ->
  allVisited p = [] /\ allWritten p = [] /\ allRemaining p = [] /\
  allPending p = [] /\ finishedCount p = 0%nat /\
  sum_list_with (fun t => work (length writers) (pc t)) (pThreads p) = length (pThreads p).
Proof.
  intros [_ Hall].
  unfold allVisited, allWritten, allRemaining, allPending, finishedCount.
  induction Hall as [|t ts (Hc & Hv & Hw) _ IH]; [repeat split|].
  destruct IH as (I1 & I2 & I3 & I4 & I5 & I6).
  rewrite !bind_cons, I1, I2, I3, I4, Hv, Hw, Hc. simpl.
  rewrite Hc. simpl. rewrite I5, I6. repeat split.
Qed.

Lemma starting_visitInvariant (p : Pool) :
  length (pThreads p) = N -> starting p -> visitInvariant n b j N p.
Proof.
  intros HN Hs. destruct (starting_aggregates p Hs) as (I1 & _ & I3 & _ & I5 & _).
  destruct Hs as [Hc _].
  split; [exact HN|]. split.
  - exists 0. rewrite I5, Hc. repeat split; (lia || nia).
  - rewrite I1, I3, Hc. rewrite seqZ_nil by lia. reflexivity.
Qed.

Lemma settled_remaining (ts : list Thread) :
  Forall (fun t => isSettled (pc t) = true) ts ->
  ts ≫= (fun t => remaining (pc t)) = ts ≫= (fun t => lost (pc t)).
Proof.
  induction 1 as [|t ts Ht _ IH]; [reflexivity|].
  rewrite !bind_cons, IH. f_equal. destruct (pc t); try discriminate; reflexivity.
Qed.

Lemma finished_aggregates (ts : list Thread) :
  Forall (fun t => pc t = finished) ts ->
  ts ≫= (fun t => remaining (pc t)) = [] /\
  ts ≫= (fun t => pending (pc t)) = [] /\
  sum_list_with (fun t => if isFinished (pc t) then 1 else 0)%nat ts = length ts.
Proof.
  induction 1 as [|t ts Ht _ (I1 & I2 & I3)]; [repeat split|].
  rewrite !bind_cons, I1, I2, Ht. simpl. rewrite Ht, I3. repeat split.
Qed.

(** What the invariant says of the rows visited. *)
Lemma visitInvariant_facts (p : Pool) :
  visitInvariant n b j N p ->
  NoDup (allVisited p) /\
  (forall r, r ∈ allVisited p -> 0 <= r < n) /\
  (N <> 0%nat -> Forall (fun t => pc t = finished) (pThreads p) ->
   allVisited p ≡ₚ seqZ 0 n) /\
  (Forall (fun t => isSettled (pc t) = true) (pThreads p) ->
   allVisited p ++ allLost p ≡ₚ seqZ 0 (Z.min (pIndices0 p) n)).
Proof.
  intros (HN & (m & Hm0 & Hc & Hmj & Hfin) & Hperm).
  assert (Hnodup : NoDup (allVisited p ++ allRemaining p)).
  { rewrite Hperm. apply NoDup_seqZ. }
  split; [|split; [|split]].
  - apply NoDup_app in Hnodup. tauto.
  - intros r Hr.
    assert (Hin : r ∈ seqZ 0 (Z.min (pIndices0 p) n)).
    { rewrite <- Hperm. apply elem_of_app. left. exact Hr. }
    apply elem_of_seqZ in Hin. lia.
  - intros HN0 Hall.
    destruct (finished_aggregates _ Hall) as (I1 & _ & I3).
    unfold allRemaining in Hperm. rewrite I1, app_nil_r in Hperm.
    unfold finishedCount in Hfin. rewrite I3 in Hfin.
    rewrite Z.min_r in Hperm by (apply Hfin; lia). exact Hperm.
  - intros Hall. unfold allLost. rewrite <- (settled_remaining _ Hall). exact Hperm.
Qed.


(** Every worker leaves its loop. *)

Lemma workerStep_settled (c : Pc) (w : World) :
  isSettled c = true -> workerStep tester writers n b c w = (c, w).
Proof. destruct c; try discriminate; reflexivity. Qed.

Lemma workerStep_work (c : Pc) (w : World) (c' : Pc) (w' : World) :
  workerStep tester writers n b c w = (c', w') ->
  c <> atClaim ->
  (work (length writers) c' + (if isSettled c then 0 else 1)
   <= work (length writers) c)%nat.
Proof.
  destruct c as [|r m|r m|r m i| |e r m]; cbn [workerStep]; intros H Hc;
    try congruence.
  - destruct (Z.ltb_spec r m) as [Hr|Hr].
    + assert (Hs : Z.to_nat (m - r) = S (Z.to_nat (m - (r + 1)))) by lia.
      destruct (tester _) as [[|]|e]; inversion H; subst; simpl; rewrite Hs; simpl; lia.
    + inversion H; subst. simpl. lia.
  - inversion H; subst. simpl. lia.
  - destruct (writers !! i) as [fw|] eqn:Hfw; inversion H; subst; simpl.
    + pose proof (lookup_lt_Some _ _ _ Hfw). lia.
    + lia.
  - inversion H; subst. simpl. lia.
  - inversion H; subst. simpl. lia.
Qed.

(** A step of a worker that has not left its loop brings the scan
    closer to its end; no step takes it further. *)
Lemma poolStep_potential (k : nat) (p : Pool) (t : Thread) :
  visitInvariant n b j N p ->
  pThreads p !! k = Some t ->
  (potential (length writers) n (poolStep tester writers n b k p)
   + (if isSettled (pc t) then 0 else 1)
   <= potential (length writers) n p)%nat.
Proof.
  intros (HN & (m & Hm0 & Hc & Hmj & Hfin) & _) Hk. unfold poolStep. rewrite Hk.
  destruct (workerStep tester writers n b (pc t) (viewOf p t)) as [c' w'] eqn:Hstep.
  destruct (sum_insert (fun t => work (length writers) (pc t))
              (pThreads p) k t (threadOf c' w') Hk) as [HW HW'].
  unfold potential. cbn [pThreads pIndices0]. rewrite HW, HW'. cbn [threadOf pc].
  destruct (workerStep_visits _ _ _ _ Hstep)
    as [(E1 & E2 & E3 & E4)|(E1 & E2 & E3 & E4)].
  - rewrite E1 in *. cbn [viewOf indices0] in *.
    pose proof (finishedCount_bound (pThreads p) k t Hk ltac:(rewrite E1; reflexivity))
      as Hbound.
    rewrite HN in Hbound. unfold finishedCount in Hmj.
    assert (Hnowrap : toUint32 (pIndices0 p + b) = (m + 1) * b).
    { unfold toUint32. rewrite Z.mod_small; [lia|]. unfold u32 in *. nia. }
    rewrite E3, Hnowrap, Hc. rewrite Hc in E4. cbn [isSettled work].
    destruct (Z.ltb_spec (m * b) n) as [Hlt|Hge]; subst c'; cbn [work].
    + set (s := Z.to_nat (Z.min (m * b + b) n - m * b)).
      set (q := Z.to_nat (n - (m + 1) * b)).
      assert (Hsq : Z.to_nat (n - m * b) = (s + q)%nat) by (unfold s, q; lia).
      assert (Hs : (1 <= s)%nat) by (unfold s; lia).
      rewrite Hsq. nia.
    + replace (Z.to_nat (n - (m + 1) * b)) with 0%nat by lia.
      replace (Z.to_nat (n - m * b)) with 0%nat by lia. lia.
  - cbn [viewOf indices0] in *. rewrite E2.
    pose proof (workerStep_work _ _ _ _ Hstep E1). lia.
Qed.

Lemma poolStep_keeps_settled (k' : nat) (p : Pool) (k : nat) (t : Thread) :
  pThreads p !! k = Some t -> isSettled (pc t) = true ->
  pThreads (poolStep tester writers n b k' p) !! k = Some t.
Proof.
  intros Hk Hs. unfold poolStep.
  destruct (pThreads p !! k') as [t'|] eqn:Hk'; [|exact Hk].
  destruct (workerStep tester writers n b (pc t') (viewOf p t')) as [c' w'] eqn:Hstep.
  cbn [pThreads].
  destruct (Nat.eq_dec k' k) as [->|Hne].
  - rewrite Hk in Hk'. inversion Hk'. subst t'.
    rewrite (workerStep_settled _ _ Hs) in Hstep. inversion Hstep. subst c' w'.
    rewrite list_lookup_insert_eq by (eapply lookup_lt_Some; exact Hk).
    destruct t. reflexivity.
  - rewrite list_lookup_insert_ne by exact Hne. exact Hk.
Qed.

Lemma runPool_keeps_settled (schedule : list nat) (p : Pool) (k : nat) (t : Thread) :
  pThreads p !! k = Some t -> isSettled (pc t) = true ->
  pThreads (runPool tester writers n b schedule p) !! k = Some t.
Proof.
  revert p. induction schedule as [|k' schedule IH]; intros p Hk Hs; [exact Hk|].
  apply IH; [|exact Hs]. apply poolStep_keeps_settled; assumption.
Qed.

Lemma runPool_potential (schedule : list nat) (p : Pool) (k : nat) (t : Thread) :
  visitInvariant n b j N p ->
  pThreads (runPool tester writers n b schedule p) !! k = Some t ->
  isSettled (pc t) = false ->
  (potential (length writers) n (runPool tester writers n b schedule p)
   + count_occ Nat.eq_dec schedule k
   <= potential (length writers) n p)%nat.
Proof.
  revert p. induction schedule as [|a schedule IH]; intros p Hinv Hk Hs; [simpl; lia|].
  change (runPool tester writers n b (a :: schedule) p)
    with (runPool tester writers n b schedule (poolStep tester writers n b a p)) in *.
  pose proof (poolStep_visitInvariant a p Hinv) as Hinv1.
  specialize (IH _ Hinv1 Hk Hs).
  destruct (pThreads p !! a) as [ta|] eqn:Ha.
  - pose proof (poolStep_potential a p ta Hinv Ha) as Hstep.
    cbn [count_occ]. destruct (Nat.eq_dec a k) as [->|Hne]; [|lia].
    destruct (isSettled (pc ta)) eqn:Hsa; [|lia].
    pose proof (runPool_keeps_settled (k :: schedule) p k ta Ha Hsa) as Hkeep.
    change (runPool tester writers n b (k :: schedule) p)
      with (runPool tester writers n b schedule (poolStep tester writers n b k p)) in Hkeep.
    rewrite Hkeep in Hk. inversion Hk. subst ta. congruence.
  - assert (Hsame : poolStep tester writers n b a p = p).
    { unfold poolStep. rewrite Ha. reflexivity. }
    rewrite Hsame in *.
    cbn [count_occ]. destruct (Nat.eq_dec a k) as [->|Hne]; [|lia].
    destruct Hinv as (HN & _). destruct (runPool_visitInvariant schedule p ltac:(assumption)) as (HN' & _).
    apply lookup_lt_Some in Hk. apply lookup_ge_None in Ha. lia.
Qed.

Lemma runPool_settles (schedule : list nat) (p : Pool) :
  visitInvariant n b j N p ->
  (forall k, (k < N)%nat ->
     (potential (length writers) n p <= count_occ Nat.eq_dec schedule k)%nat) ->
  Forall (fun t => isSettled (pc t) = true)
         (pThreads (runPool tester writers n b schedule p)).
Proof.
  intros Hinv Hfair. apply Forall_lookup. intros k t Hk.
  destruct (isSettled (pc t)) eqn:Hs; [reflexivity|exfalso].
  pose proof (runPool_potential schedule p k t Hinv Hk Hs) as Hpot.
  destruct (runPool_visitInvariant schedule p Hinv)
    as (HN' & _).
  pose proof (lookup_lt_Some _ _ _ Hk) as Hlt. rewrite HN' in Hlt.
  specialize (Hfair k Hlt).
  assert (Hwork : (1 <= work (length writers) (pc t))%nat).
  { clear - Hs. revert Hs. destruct (pc t); intros Hs; try discriminate; cbn [work]; nia. }
  assert (Hin : (work (length writers) (pc t)
                 <= sum_list_with (fun t => work (length writers) (pc t))
                      (pThreads (runPool tester writers n b schedule p)))%nat).
  { apply (sum_list_with_in t (fun t => work (length writers) (pc t))).
    eapply list_elem_of_lookup_2. exact Hk. }
  unfold potential in Hpot at 1. lia.
Qed.


(** The rows written, when the tester is a total predicate of the row. *)

Variable src : Table.
Variable test : Z -> bool.
Variable rows0 : Z.

Hypothesis tester_total :
  forall w, mTable w = src -> tester w = Ok (test (index (mRow w))).

Lemma workerStep_writes (c : Pc) (w : World) (c' : Pc) (w' : World) :
  workerStep tester writers n b c w = (c', w') ->
  mTable w = src ->
  mTable w' = src /\
  (isFailed c = false -> isFailed c' = false) /\
  (written w ++ pending c = List.filter test (visited w) ->
   written w' ++ pending c' = List.filter test (visited w')) /\
  ((written w' = written w /\
    Table_rowCount (resultTable w') = Table_rowCount (resultTable w)) \/
   (exists r, written w' = written w ++ [r] /\
      Table_rowCount (resultTable w')
      = toUint32 (Table_rowCount (resultTable w) + 1))).
Proof.
  destruct c as [|r m|r m|r m i| |e r m]; cbn [workerStep]; intros H Hsrc.
  - unfold Atomize_add in H.
    destruct (indices0 w <? n); inversion H; subst; simpl;
      (split; [reflexivity|]); (split; [reflexivity|]); (split; [|left; split; reflexivity]);
      rewrite !app_nil_r; auto.
  - destruct (Z.ltb_spec r m) as [Hr|Hr].
    + set (w1 := withRow (setIndex r (mRow w)) (noteVisited r w)) in *.
      rewrite (tester_total w1 Hsrc) in H. change (index (mRow w1)) with r in H.
      destruct (test r) eqn:Htest; inversion H; subst; unfold w1; simpl;
        (split; [reflexivity|]); (split; [reflexivity|]);
        (split; [|left; split; reflexivity]);
        rewrite List.filter_app; simpl; rewrite Htest, ?app_nil_r; intros ->; reflexivity.
    + inversion H; subst. simpl.
      split; [reflexivity|]. split; [reflexivity|]. split; [auto|left; split; reflexivity].
  - inversion H; subst. simpl.
    split; [reflexivity|]. split; [reflexivity|]. split.
    + rewrite app_nil_r. auto.
    + right. exists r. split; reflexivity.
  - destruct (writers !! i) as [fw|] eqn:Hfw; inversion H; subst.
    + assert (Hone : writesOneCell fw).
      { eapply (proj1 (Forall_lookup _ _) writers_frame). exact Hfw. }
      destruct (writesOneCell_frame fw r w Hone) as (F1 & _ & _ & F4 & F5 & _ & F7).
      rewrite F1, F4, F5. unfold Table_rowCount. rewrite F7. simpl.
      split; [reflexivity|]. split; [reflexivity|]. split; [auto|left; split; reflexivity].
    + simpl.
      split; [reflexivity|]. split; [reflexivity|]. split; [auto|left; split; reflexivity].
  - inversion H; subst. simpl.
    split; [reflexivity|]. split; [reflexivity|]. split; [auto|left; split; reflexivity].
  - inversion H; subst. simpl.
    split; [reflexivity|]. split; [discriminate|]. split; [auto|left; split; reflexivity].
Qed.

Lemma poolStep_writeInvariant (k : nat) (p : Pool) :
  writeInvariant src test rows0 p ->
  writeInvariant src test rows0 (poolStep tester writers n b k p).
Proof.
  intros (Hsrc & Hall & Hrows). unfold poolStep.
  destruct (pThreads p !! k) as [t|] eqn:Hk; [|repeat split; assumption].
  destruct (workerStep tester writers n b (pc t) (viewOf p t)) as [c' w'] eqn:Hstep.
  destruct (workerStep_writes _ _ _ _ Hstep Hsrc) as (S1 & S2 & S3 & S4).
  destruct (proj1 (Forall_lookup _ _) Hall k t Hk) as [Hnf Hw].
  destruct (bind_insert tWritten (pThreads p) k t (threadOf c' w') Hk) as [HW HW'].
  unfold writeInvariant, allWritten in *. cbn [pTable pThreads pResultTable].
  split; [exact S1|]. split.
  - apply Forall_insert; [exact Hall|]. cbn [threadOf pc tWritten tVisited].
    split; [apply S2; exact Hnf|apply S3; exact Hw].
  - rewrite HW'. rewrite HW in Hrows. cbn [threadOf tWritten].
    rewrite length_app in *. cbn [viewOf written resultTable] in S4.
    destruct S4 as [[-> ->]|(r & -> & ->)].
    + exact Hrows.
    + rewrite length_app. simpl.
      match goal with |- _ = toUint32 ?x =>
        replace x with (rows0 + Z.of_nat (length (tWritten t)
                          + length (delete k (pThreads p) ≫= tWritten)) + 1) by lia
      end.
      apply toUint32_step. exact Hrows.
Qed.

Lemma runPool_writeInvariant (schedule : list nat) (p : Pool) :
  writeInvariant src test rows0 p ->
  writeInvariant src test rows0 (runPool tester writers n b schedule p).
Proof.
  revert p. induction schedule as [|k schedule IH]; intros p Hp; [exact Hp|].
  apply IH, poolStep_writeInvariant, Hp.
Qed.

Lemma starting_writeInvariant (p : Pool) :
  pTable p = src -> Table_rowCount (pResultTable p) = rows0 -> starting p ->
  writeInvariant src test rows0 p.
Proof.
  intros Hsrc Hrows Hs. destruct (starting_aggregates p Hs) as (_ & I2 & _).
  split; [exact Hsrc|]. split.
  - destruct Hs as [_ Hall]. eapply Forall_impl; [exact Hall|].
    intros t (-> & -> & ->). split; reflexivity.
  - rewrite I2, Hrows. simpl. f_equal. lia.
Qed.

Lemma written_pending_filter (ts : list Thread) :
  Forall (fun t => isFailed (pc t) = false /\
                   tWritten t ++ pending (pc t) = List.filter test (tVisited t)) ts ->
  (ts ≫= tWritten) ++ (ts ≫= (fun t => pending (pc t)))
  ≡ₚ List.filter test (ts ≫= tVisited).
Proof.
  induction 1 as [|t ts [_ Ht] _ IH]; [reflexivity|].
  rewrite !bind_cons, List.filter_app, <- Ht, <- IH. solve_Permutation.
Qed.

Lemma filter_Permutation_bool (l l' : list Z) :
  l ≡ₚ l' -> List.filter test l ≡ₚ List.filter test l'.
Proof.
  induction 1 as [|x l l' _ IH|x y l|l l' l'' _ IH1 _ IH2]; simpl.
  - reflexivity.
  - destruct (test x); [constructor|]; exact IH.
  - destruct (test x), (test y); try reflexivity. constructor.
  - etransitivity; eassumption.
Qed.

(** What the two invariants say of the rows written. *)
Lemma writeInvariant_facts (p : Pool) :
  visitInvariant n b j N p ->
  writeInvariant src test rows0 p ->
  Forall (fun t => isFailed (pc t) = false) (pThreads p) /\
  allWritten p ++ allPending p ≡ₚ List.filter test (allVisited p) /\
  toUint32 (Table_rowCount (pResultTable p))
  = toUint32 (rows0 + Z.of_nat (length (allWritten p))) /\
  (N <> 0%nat -> Forall (fun t => isSettled (pc t) = true) (pThreads p) ->
   allWritten p ≡ₚ List.filter test (seqZ 0 n) /\
   toUint32 (Table_rowCount (pResultTable p))
   = toUint32 (rows0 + Z.of_nat (length (List.filter test (seqZ 0 n))))).
Proof.
  intros Hvisit (Hsrc & Hall & Hrows).
  assert (Hnf : Forall (fun t => isFailed (pc t) = false) (pThreads p)).
  { eapply Forall_impl; [exact Hall|]. intros t [Ht _]. exact Ht. }
  pose proof (written_pending_filter _ Hall) as Hperm.
  split; [exact Hnf|]. split; [exact Hperm|]. split; [exact Hrows|].
  intros HN0 Hsettled.
  assert (Hfin : Forall (fun t => pc t = finished) (pThreads p)).
  { apply Forall_lookup. intros k t Hk.
    pose proof (proj1 (Forall_lookup _ _) Hnf k t Hk) as H1.
    pose proof (proj1 (Forall_lookup _ _) Hsettled k t Hk) as H2.
    simpl in H1, H2. destruct (pc t); try discriminate; reflexivity. }
  destruct (finished_aggregates _ Hfin) as (_ & I2 & _).
  destruct (visitInvariant_facts p Hvisit) as (_ & _ & F3 & _).
  specialize (F3 HN0 Hfin).
  assert (Hw : allWritten p ≡ₚ List.filter test (seqZ 0 n)).
  { unfold allWritten. rewrite I2, app_nil_r in Hperm. rewrite Hperm.
    apply filter_Permutation_bool. exact F3. }
  split; [exact Hw|]. rewrite Hrows. rewrite (Permutation_length Hw). reflexivity.
Qed.

(** The result table, when the writers are compiled from [description]
    against the source table and the result table [res]. *)

Variable res : Table.
Variable description : list ResultDescriptionEntry.

Hypothesis writers_compiled :
  forPush (generateFieldWriter src res) description = Ok writers.
Hypothesis result_fits : 0 <= Table_rowCount res /\ Table_rowCount res + n < u32.

Lemma writers_lookup (i : nat) (fw : FieldWriter) :
  writers !! i = Some fw ->
  exists d, description !! i = Some d /\ generateFieldWriter src res d = Ok fw.
Proof.
  clear - writers_compiled. revert writers writers_compiled i.
  induction description as [|d ds IH]; intros ws Hpush i Hi.
  - inversion Hpush. subst ws. discriminate.
  - destruct (forPush_cons_Ok _ d ds ws Hpush) as (b0 & bs' & -> & Hb & Hbs').
    destruct i as [|i]; simpl in Hi.
    + inversion Hi. subst b0. exists d. split; [reflexivity|exact Hb].
    + apply (IH bs' Hbs' i Hi).
Qed.

Lemma writers_length : length writers = length description.
Proof.
  clear - writers_compiled. revert writers writers_compiled.
  induction description as [|d ds IH]; intros ws Hpush.
  - inversion Hpush. reflexivity.
  - destruct (forPush_cons_Ok _ d ds ws Hpush) as (b0 & bs' & -> & Hb & Hbs').
    simpl. f_equal. apply (IH bs' Hbs').
Qed.

Lemma rowCell_snoc (ds : list ResultDescriptionEntry) (d : ResultDescriptionEntry)
  (r : Z) (c : nat) (stale : JsValue) :
  rowCell src res (ds ++ [d]) src r c stale
  = match target res d, entryValue src src r r d with
    | Some k', Some v' =>
        if Nat.eqb c k' then stored res k' v' else rowCell src res ds src r c stale
    | _, _ => rowCell src res ds src r c stale
    end.
Proof. unfold rowCell. rewrite foldl_app. reflexivity. Qed.

(** The number of rows allocated stays within the number of rows. *)
Lemma written_bound (p : Pool) (k : nat) (t : Thread) (r m : Z) :
  visitInvariant n b j N p ->
  writeInvariant src test rows0 p ->
  pThreads p !! k = Some t -> pc t = atAlloc r m ->
  Z.of_nat (length (allWritten p)) + 1 <= n.
Proof.
  intros (_ & _ & Hperm) (_ & Hall & _) Hk Hpc.
  pose proof (written_pending_filter _ Hall) as Hw.
  apply Permutation_length in Hw. apply Permutation_length in Hperm.
  rewrite length_app in Hw, Hperm. rewrite length_seqZ in Hperm.
  pose proof (List.filter_length_le test (pThreads p ≫= tVisited)) as Hle.
  destruct (bind_insert (fun t => pending (pc t)) (pThreads p) k t t Hk) as [HP _].
  apply Permutation_length in HP. rewrite length_app, Hpc in HP. simpl in HP.
  unfold allWritten, allVisited in *. lia.
Qed.

Lemma progress_other (p : Pool) (k : nat) (t' : Thread) (T R : Table) (c : Z)
  (q k' : nat) :
  k' <> k ->
  progress (Table_rowCount res) (length description)
    {| pTable := T; pResultTable := R; pIndices0 := c;
       pThreads := <[k := t']> (pThreads p) |} q k'
  = progress (Table_rowCount res) (length description) p q k'.
Proof.
  intros Hne. unfold progress. cbn [pThreads].
  rewrite list_lookup_insert_ne by congruence. reflexivity.
Qed.

Lemma progress_self (p : Pool) (k : nat) (t t' : Thread) (T R : Table) (c : Z)
  (q : nat) :
  pThreads p !! k = Some t ->
  progress (Table_rowCount res) (length description)
    {| pTable := T; pResultTable := R; pIndices0 := c;
       pThreads := <[k := t']> (pThreads p) |} q k
  = match pc t' with
    | atWrite _ _ i =>
        if index (tResultRow t') =? Table_rowCount res + Z.of_nat q then i
        else length description
    | _ => length description
    end.
Proof.
  intros Hk. unfold progress. cbn [pThreads].
  rewrite list_lookup_insert_eq by (eapply lookup_lt_Some; exact Hk). reflexivity.
Qed.

(** A step that neither allocates nor writes. *)
Lemma content_quiet (k : nat) (p : Pool) (t t' : Thread) (T : Table) (c : Z)
  (log : list (Z * nat)) :
  contentInvariant src res description log p ->
  pThreads p !! k = Some t ->
  tWritten t' = tWritten t ->
  match pc t' with
  | atAlloc r _ => index (tRow t') = r
  | atWrite _ _ _ => False
  | _ => True
  end ->
  match pc t with
  | atWrite _ _ i => (length description <= i)%nat
  | _ => True
  end ->
  contentInvariant src res description log
    {| pTable := T; pResultTable := pResultTable p; pIndices0 := c;
       pThreads := <[k := t']> (pThreads p) |}.
Proof.
  intros (C1 & C2 & C3 & C4 & C5 & C6) Hk Hw Hnew Hold.
  unfold contentInvariant. cbn [pResultTable pThreads].
  split; [exact C1|]. split; [exact C2|]. split; [|split; [exact C4|split]].
  - rewrite C3. unfold allWritten. cbn [pThreads].
    destruct (bind_insert tWritten (pThreads p) k t t' Hk) as [-> ->].
    rewrite Hw. reflexivity.
  - intros k2 t2 Hk2. destruct (Nat.eq_dec k2 k) as [->|Hne].
    + rewrite list_lookup_insert_eq in Hk2 by (eapply lookup_lt_Some; exact Hk).
      inversion Hk2. subst t2.
      destruct (pc t'); try exact I; [exact Hnew|destruct Hnew].
    + rewrite list_lookup_insert_ne in Hk2 by congruence. apply (C5 k2 t2 Hk2).
  - intros q r k2 col Hq. rewrite (C6 q r k2 col Hq). f_equal.
    destruct (Nat.eq_dec k2 k) as [->|Hne].
    + rewrite (progress_self p k t t' _ _ _ q Hk).
      unfold progress. rewrite Hk.
      destruct (pc t') as [|? ?|? ?|? ? ?| |? ? ?]; try destruct Hnew;
        destruct (pc t) as [|? ?|? ?|? ? i| |? ? ?]; try reflexivity;
        destruct (_ =? _); try reflexivity;
        rewrite !take_ge by lia; reflexivity.
    + rewrite progress_other by exact Hne. reflexivity.
Qed.

Lemma poolStep_contentInvariant (k : nat) (p : Pool) (log : list (Z * nat)) :
  visitInvariant n b j N p ->
  writeInvariant src test rows0 p ->
  contentInvariant src res description log p ->
  exists log', contentInvariant src res description log'
                 (poolStep tester writers n b k p).
Proof.
  intros Hvisit Hwrite Hcontent. unfold poolStep.
  destruct (pThreads p !! k) as [t|] eqn:Hk; [|exists log; exact Hcontent].
  pose proof Hcontent as (C1 & C2 & C3 & C4 & C5 & C6).
  pose proof (C5 k t Hk) as Ht.
  pose proof Hwrite as (Hsrc & Hall & _).
  destruct (pc t) as [|r m|r m|r m i| |e r m] eqn:Hpc; cbn [workerStep].
  - (* a claim *)
    unfold Atomize_add. cbn [viewOf indices0].
    destruct (_ <? n); exists log; cbn [mTable resultTable indices0 withIndices0];
      (eapply content_quiet; [exact Hcontent|exact Hk|reflexivity|exact I|rewrite Hpc; exact I]).
  - (* the test of a row *)
    destruct (r <? m).
    + destruct (tester _) as [[|]|e]; exists log; cbn [mTable resultTable indices0 withRow noteVisited];
        (eapply content_quiet;
         [exact Hcontent|exact Hk|reflexivity|simpl; try reflexivity; exact I
         |rewrite Hpc; exact I]).
    + exists log. eapply content_quiet;
        [exact Hcontent|exact Hk|reflexivity|exact I|rewrite Hpc; exact I].
  - (* the allocation of a result row *)
    pose proof (written_bound p k t r m Hvisit Hwrite Hk Hpc) as Hbound.
    pose proof (Permutation_length C3) as Hlen. rewrite length_fmap in Hlen.
    destruct result_fits as [Hr0 Hr1].
    assert (Hnowrap : toUint32 (rowCount (header (pResultTable p)) + 1)
                      = Table_rowCount res + Z.of_nat (length log) + 1).
    { change (rowCount (header (pResultTable p))) with (Table_rowCount (pResultTable p)).
      rewrite C1. unfold toUint32. apply Z.mod_small. lia. }
    unfold addRows, Header_addRows.
    cbn [viewOf resultTable resultRow header rowCount columns cells mTable indices0
         withResult noteWritten mRow visited written threadOf].
    rewrite Hnowrap.
    change (rowCount (header (pResultTable p))) with (Table_rowCount (pResultTable p)).
    rewrite C1.
    exists (log ++ [(r, k)]). unfold contentInvariant.
    cbn [pResultTable pThreads]. rewrite length_app. cbn [length].
    split; [|split; [|split; [|split; [|split]]]].
    + unfold Table_rowCount at 1. cbn [header rowCount]. lia.
    + exact C2.
    + rewrite fmap_app, C3. unfold allWritten. cbn [pThreads fmap list_fmap fst].
      destruct (bind_insert tWritten (pThreads p) k t
                  {| pc := atWrite r m 0; tRow := tRow t;
                     tResultRow := setIndex (Table_rowCount res + Z.of_nat (length log))
                                     (tResultRow t);
                     tVisited := tVisited t; tWritten := tWritten t ++ [r] |} Hk)
        as [-> ->].
      cbn [tWritten]. solve_Permutation.
    + intros r1 c Hout. unfold getCell. cbn [cells]. apply C4. lia.
    + intros k2 t2 Hk2. destruct (Nat.eq_dec k2 k) as [->|Hne].
      * rewrite list_lookup_insert_eq in Hk2 by (eapply lookup_lt_Some; exact Hk).
        inversion Hk2. cbn [pc tResultRow tRow setIndex index threadOf withResult resultRow mRow noteWritten viewOf].
        split; [exact Ht|]. exists (length log). split; [reflexivity|].
        rewrite lookup_app_r by lia. rewrite Nat.sub_diag. reflexivity.
      * rewrite list_lookup_insert_ne in Hk2 by congruence.
        pose proof (C5 k2 t2 Hk2) as H2.
        destruct (pc t2); try exact H2.
        destruct H2 as [H2 (q & Hq1 & Hq2)]. split; [exact H2|].
        exists q. split; [exact Hq1|]. apply lookup_app_l_Some. exact Hq2.
    + intros q r1 k1 c Hq. unfold getCell at 1. cbn [cells].
      destruct (lookup_app_Some log [(r, k)] q (r1, k1)) as [Hcase _].
      destruct (Hcase Hq) as [Hold|[Hge Hnew]].
      * pose proof (lookup_lt_Some _ _ _ Hold) as Hlt.
        fold (getCell (pResultTable p) (Table_rowCount res + Z.of_nat q) c).
        rewrite (C6 q r1 k1 c Hold). f_equal. f_equal.
        destruct (Nat.eq_dec k1 k) as [->|Hne].
        -- rewrite (progress_self p k t _ _ _ _ q Hk). cbn [pc tResultRow tRow setIndex index threadOf withResult resultRow mRow noteWritten viewOf].
           destruct (Z.eqb_spec (Table_rowCount res + Z.of_nat (length log))
                       (Table_rowCount res + Z.of_nat q)); [lia|].
           unfold progress. rewrite Hk, Hpc. reflexivity.
        -- rewrite progress_other by exact Hne. reflexivity.
      * destruct (q - length log)%nat as [|x] eqn:Hx; [|destruct x; discriminate].
        simpl in Hnew. inversion Hnew. subst r1 k1.
        assert (q = length log) as -> by lia.
        rewrite (progress_self p k t _ _ _ _ (length log) Hk).
        cbn [pc tResultRow tRow setIndex index threadOf withResult resultRow mRow noteWritten viewOf]. rewrite Z.eqb_refl. rewrite take_0.
        unfold rowCell. cbn [foldl].
        fold (getCell (pResultTable p) (Table_rowCount res + Z.of_nat (length log)) c).
        apply C4. lia.
  - (* a field writer *)
    destruct Ht as [Ht (q0 & Hq0 & Hlog0)].
    destruct (writers !! i) as [fw|] eqn:Hfw.
    2:{ exists log. eapply content_quiet;
          [exact Hcontent|exact Hk|reflexivity|exact I|].
        rewrite Hpc. apply lookup_ge_None in Hfw. rewrite <- writers_length. exact Hfw. }
    destruct (writers_lookup i fw Hfw) as (d & Hd & Hgen).
    rewrite (generateFieldWriter_entryEffect src res d fw Hgen r (viewOf p t)).
    destruct (entryEffect_table src res r (viewOf p t) d) as [Htable Hframe].
    destruct Hframe as (F1 & F2 & F3 & F4 & F5 & F6 & F7).
    set (w' := entryEffect src res r (viewOf p t) d) in *.
    cbn [viewOf mTable mRow resultRow resultTable indices0 visited written] in *.
    rewrite Hsrc, Ht, Hq0 in Htable.
    exists log. unfold contentInvariant. cbn [pResultTable pThreads].
    pose proof (lookup_lt_Some _ _ _ Hlog0) as Hq0lt.
    split; [|split; [|split; [|split; [|split]]]].
    + unfold Table_rowCount. rewrite F7. exact C1.
    + split; [rewrite F7; exact (proj1 C2)|].
      rewrite Htable, writeEntry_stored. exact (proj2 C2).
    + rewrite C3. unfold allWritten. cbn [pThreads].
      destruct (bind_insert tWritten (pThreads p) k t (threadOf (atWrite r m (S i)) w') Hk)
        as [-> ->].
      cbn [threadOf tWritten]. rewrite F5. reflexivity.
    + intros r1 c Hout. rewrite Htable, writeEntry_cell.
      destruct (target res d); [|apply C4; exact Hout].
      destruct (entryValue src src r r d); [|apply C4; exact Hout].
      destruct (Z.eqb_spec r1 (Table_rowCount res + Z.of_nat q0)); [lia|].
      apply C4. exact Hout.
    + intros k2 t2 Hk2. destruct (Nat.eq_dec k2 k) as [->|Hne].
      * rewrite list_lookup_insert_eq in Hk2 by (eapply lookup_lt_Some; exact Hk).
        inversion Hk2. cbn [threadOf pc tRow tResultRow]. rewrite F2, F6.
        split; [exact Ht|]. exists q0. split; [exact Hq0|exact Hlog0].
      * rewrite list_lookup_insert_ne in Hk2 by congruence. apply (C5 k2 t2 Hk2).
    + intros q r1 k1 c Hq. rewrite Htable, writeEntry_cell, (proj2 C2).
      destruct (Nat.eq_dec q q0) as [->|Hqne].
      * rewrite Hlog0 in Hq. inversion Hq. subst r1 k1.
        rewrite (progress_self p k t _ _ _ _ q0 Hk).
        cbn [threadOf pc tResultRow]. rewrite F6, Hq0, Z.eqb_refl.
        rewrite (take_S_r description i d Hd), rowCell_snoc.
        rewrite (C6 q0 r k c Hlog0).
        assert (Hprog : progress (Table_rowCount res) (length description) p q0 k = i).
        { unfold progress. rewrite Hk, Hpc, Hq0, Z.eqb_refl. reflexivity. }
        rewrite Hprog.
        destruct (target res d); [|reflexivity].
        destruct (entryValue src src r r d); reflexivity.
      * assert (Hsame : getCell (pResultTable p) (Table_rowCount res + Z.of_nat q) c
                        = rowCell src res
                            (take (progress (Table_rowCount res) (length description)
                                     {| pTable := mTable w'; pResultTable := resultTable w';
                                        pIndices0 := indices0 w';
                                        pThreads := <[k := threadOf (atWrite r m (S i)) w']>
                                                      (pThreads p) |} q k1) description)
                            src r1 c (getCell res (Table_rowCount res + Z.of_nat q) c)).
        { rewrite (C6 q r1 k1 c Hq). f_equal. f_equal.
          destruct (Nat.eq_dec k1 k) as [->|Hne].
          - rewrite (progress_self p k t _ _ _ _ q Hk).
            cbn [threadOf pc tResultRow]. rewrite F6, Hq0.
            unfold progress. rewrite Hk, Hpc, Hq0.
            destruct (Z.eqb_spec (Table_rowCount res + Z.of_nat q0)
                        (Table_rowCount res + Z.of_nat q)); [lia|reflexivity].
          - rewrite progress_other by exact Hne. reflexivity. }
        destruct (target res d); [|exact Hsame].
        destruct (entryValue src src r r d); [|exact Hsame].
        destruct (Z.eqb_spec (Table_rowCount res + Z.of_nat q)
                    (Table_rowCount res + Z.of_nat q0)); [lia|].
        exact Hsame.
  - exists log. eapply content_quiet;
      [exact Hcontent|exact Hk|reflexivity|exact I|rewrite Hpc; exact I].
  - exists log. eapply content_quiet;
      [exact Hcontent|exact Hk|reflexivity|exact I|rewrite Hpc; exact I].
Qed.

Lemma runPool_contentInvariant (schedule : list nat) (p : Pool) (log : list (Z * nat)) :
  visitInvariant n b j N p ->
  writeInvariant src test rows0 p ->
  contentInvariant src res description log p ->
  exists log', contentInvariant src res description log'
                 (runPool tester writers n b schedule p).
Proof.
  revert p log. induction schedule as [|k schedule IH]; intros p log Hv Hw Hc.
  - exists log. exact Hc.
  - destruct (poolStep_contentInvariant k p log Hv Hw Hc) as [log1 Hc1].
    apply (IH _ log1 (poolStep_visitInvariant k p Hv) (poolStep_writeInvariant k p Hw) Hc1).
Qed.

Lemma starting_contentInvariant (p : Pool) :
  pResultTable p = res -> starting p -> contentInvariant src res description [] p.
Proof.
  intros Hres Hs. destruct (starting_aggregates p Hs) as (_ & I2 & _).
  destruct Hs as [_ Hall].
  unfold contentInvariant. rewrite Hres, I2. simpl.
  split; [lia|]. split; [split; reflexivity|]. split; [reflexivity|].
  split; [reflexivity|]. split.
  - intros k t Hk.
    destruct (proj1 (Forall_lookup _ _) Hall k t Hk) as (-> & _). exact I.
  - intros q r k c Hq. discriminate.
Qed.

(** What the invariant says of the result table once every worker has
    finished. *)
Lemma contentInvariant_facts (p : Pool) (log : list (Z * nat)) :
  contentInvariant src res description log p ->
  Forall (fun t => pc t = finished) (pThreads p) ->
  Table_rowCount (pResultTable p) = Table_rowCount res + Z.of_nat (length (log.*1)) /\
  columns (header (pResultTable p)) = columns (header res) /\
  (forall q r c, log.*1 !! q = Some r ->
     getCell (pResultTable p) (Table_rowCount res + Z.of_nat q) c
     = rowCell src res description src r c
         (getCell res (Table_rowCount res + Z.of_nat q) c)) /\
  (forall r c,
     ~ (Table_rowCount res <= r < Table_rowCount res + Z.of_nat (length (log.*1))) ->
     getCell (pResultTable p) r c = getCell res r c).
Proof.
  intros (C1 & C2 & C3 & C4 & C5 & C6) Hfin. rewrite length_fmap.
  split; [exact C1|]. split; [exact (proj1 C2)|]. split; [|exact C4].
  intros q r c Hq. apply list_lookup_fmap_Some in Hq. destruct Hq as ([r' k] & -> & Hq).
  simpl. rewrite (C6 q r' k c Hq). f_equal.
  assert (Hprog : progress (Table_rowCount res) (length description) p q k
                  = length description).
  { unfold progress. destruct (pThreads p !! k) as [t|] eqn:Hk; [|reflexivity].
    rewrite (proj1 (Forall_lookup _ _) Hfin k t Hk). reflexivity. }
  rewrite Hprog. apply take_ge. lia.
Qed.

End PoolFacts.


(** X21.  Any number of workers scanning one table through the shared
    cursor, their steps interleaved in any order, with a batch size
    [b > 0] whose multiple [j * b] reaches the row count while
    [(j + workers) * b] stays below [2^32], and any filter tester: at
    every moment no row has been visited twice, by the same worker or by
    two, and every row visited is a row of the table; once every worker
    has left its loop, the rows visited are exactly the rows of the
    table; and when workers have died on an exception of the tester, the
    rows that are never visited are those behind the failing row in the
    dead worker's batch, and those at or beyond the cursor. *)
Theorem workers_visit_each_row_once (tester : Tester) (writers : list FieldWriter)
  (b j : Z) (p0 : Pool) (schedule : list nat) :
  let n := Table_rowCount (pTable p0) in
  let p := runPool tester writers n b schedule p0 in
  0 < b ->
  0 <= n <= j * b ->
  (j + Z.of_nat (length (pThreads p0))) * b < u32 ->
  Forall writesOneCell writers ->
  starting p0 ->
  NoDup (allVisited p) /\
  (forall r, r ∈ allVisited p -> 0 <= r < n) /\
  (pThreads p0 <> [] -> Forall (fun t => pc t = finished) (pThreads p) ->
   allVisited p ≡ₚ seqZ 0 n) /\
  (Forall (fun t => isSettled (pc t) = true) (pThreads p) ->
   allVisited p ++ allLost p ≡ₚ seqZ 0 (Z.min (pIndices0 p) n)).
Proof.
  intros n p Hb Hn Hfit Hw Hstart.
  assert (Hinv : visitInvariant n b j (length (pThreads p0)) p).
  { apply runPool_visitInvariant; try assumption.
    apply starting_visitInvariant; try assumption. reflexivity. }
  apply visitInvariant_facts in Hinv; try assumption.
  destruct Hinv as (F1 & F2 & F3 & F4).
  split; [exact F1|]. split; [exact F2|]. split; [|exact F4].
  intros Hne. apply F3. destruct (pThreads p0); [congruence|discriminate].
Qed.



(** X23.  The rows a scan writes do not depend on the number of workers,
    on the batch size or on the interleaving.  Any number of workers,
    their steps interleaved in any order, a batch size [b > 0] whose
    multiple [j * b] reaches the row count while [(j + workers) * b]
    stays below [2^32], and a tester that is a total predicate [test] of
    the row the cursor is on: no worker ever dies; at every moment the rows the
    writer has been called for, with those it is about to be called for,
    are the matching rows among the rows visited; the result table has
    grown by one row per call; and at the end of a schedule that gives
    every worker [workers + rowCount * (writers + 5)] steps, every worker
    has finished, every row has been visited once and the writer has
    been called once for each matching row and for no other. *)
Theorem workers_write_each_matching_row_once (tester : Tester)
  (writers : list FieldWriter) (test : Z -> bool) (b j : Z) (p0 : Pool)
  (schedule : list nat) :
  let n := Table_rowCount (pTable p0) in
  let workers := length (pThreads p0) in
  let p := runPool tester writers n b schedule p0 in
  0 < b ->
  0 <= n <= j * b ->
  (j + Z.of_nat workers) * b < u32 ->
  Forall writesOneCell writers ->
  starting p0 ->
  (forall w, mTable w = pTable p0 -> tester w = Ok (test (index (mRow w)))) ->
  Forall (fun t => isFailed (pc t) = false) (pThreads p) /\
  allWritten p ++ allPending p ≡ₚ List.filter test (allVisited p) /\
  toUint32 (Table_rowCount (pResultTable p))
  = toUint32 (Table_rowCount (pResultTable p0) + Z.of_nat (length (allWritten p))) /\
  (workers <> 0%nat ->
   (forall k, (k < workers)%nat ->
      (workers + Z.to_nat n * (length writers + 5)
       <= count_occ Nat.eq_dec schedule k)%nat) ->
   Forall (fun t => pc t = finished) (pThreads p) /\
   allVisited p ≡ₚ seqZ 0 n /\
   allWritten p ≡ₚ List.filter test (seqZ 0 n) /\
   toUint32 (Table_rowCount (pResultTable p))
   = toUint32 (Table_rowCount (pResultTable p0)
               + Z.of_nat (length (List.filter test (seqZ 0 n))))).
Proof.
  intros n workers p Hb Hn Hfit Hw Hstart Htest.
  assert (Hinv0 : visitInvariant n b j workers p0).
  { apply starting_visitInvariant; try assumption. reflexivity. }
  assert (Hinv : visitInvariant n b j workers p).
  { apply runPool_visitInvariant; assumption. }
  assert (Hwr : writeInvariant (pTable p0) test (Table_rowCount (pResultTable p0)) p).
  { apply runPool_writeInvariant; try assumption.
    apply starting_writeInvariant; try assumption; reflexivity. }
  pose proof Hwr as Hfacts.
  eapply writeInvariant_facts in Hfacts; try eassumption.
  destruct Hfacts as (F1 & F2 & F3 & F4).
  split; [exact F1|]. split; [exact F2|]. split; [exact F3|].
  intros Hne Hfair.
  assert (Hsettled : Forall (fun t => isSettled (pc t) = true) (pThreads p)).
  { eapply runPool_settles; try eassumption.
    intros k Hk. specialize (Hfair k Hk).
    destruct (starting_aggregates writers p0 Hstart) as (_ & _ & _ & _ & _ & I6).
    unfold potential. rewrite I6. destruct Hstart as [-> _].
    rewrite Z.sub_0_r. exact Hfair. }
  destruct (F4 Hne Hsettled) as [F5 F6].
  assert (Hfin : Forall (fun t => pc t = finished) (pThreads p)).
  { apply Forall_lookup. intros k t Hk.
    pose proof (proj1 (Forall_lookup _ _) F1 k t Hk) as H1.
    pose proof (proj1 (Forall_lookup _ _) Hsettled k t Hk) as H2.
    simpl in H1, H2. destruct (pc t); try discriminate; reflexivity. }
  split; [exact Hfin|]. split; [|split; [exact F5|exact F6]].
  pose proof Hinv as Hv. eapply visitInvariant_facts in Hv; try eassumption.
  destruct Hv as (_ & _ & V3 & _). apply V3; assumption.
Qed.

Lemma fieldWritersOf_frame (src res : Table) (description : list ResultDescriptionEntry) :
  Forall writesOneCell (fieldWritersOf src res description).
Proof.
  unfold fieldWritersOf.
  destruct (forPush (generateFieldWriter src res) description) as [ws|e] eqn:H;
    [|constructor].
  eapply forPush_Forall; [|exact H].
  intros d fw. apply generateFieldWriter_writesOneCell.
Qed.

(** X24.  However the workers interleave, each matching row fills one
    row of the result table and no write of one worker lands in the row
    of another.  Any number of workers, a batch size [b > 0] whose
    multiple [j * b] reaches the row count while [(j + workers) * b]
    stays below [2^32], a tester that is a total predicate of the row,
    the field writers compiled from the description and a result table
    with room for the rows of the source: at the end of a schedule that
    gives every worker [workers + rowCount * (writers + 5)] steps, the
    result table has grown by one row per matching row;
    in the order [order] in which the rows were allocated, some
    permutation of the matching rows, the row at position [q] holds in
    every column what the description writes for that source row: what
    the column keeps of the value of the last entry that writes it, else
    what the memory held; and the rest of the table is as it was.  What
    a column keeps of a value is given by its type ([stored], inside
    [rowCell]): the value itself when it is in the range of the column. *)
Theorem workers_fill_one_result_row_per_match (tester : Tester)
  (description : list ResultDescriptionEntry) (writers : list FieldWriter)
  (test : Z -> bool) (b j : Z) (p0 : Pool) (schedule : list nat) :
  let src := pTable p0 in
  let res := pResultTable p0 in
  let n := Table_rowCount src in
  let workers := length (pThreads p0) in
  let p := runPool tester writers n b schedule p0 in
  0 < b ->
  0 <= n <= j * b ->
  (j + Z.of_nat workers) * b < u32 ->
  forPush (generateFieldWriter src res) description = Ok writers ->
  0 <= Table_rowCount res /\ Table_rowCount res + n < u32 ->
  starting p0 ->
  workers <> 0%nat ->
  (forall w, mTable w = src -> tester w = Ok (test (index (mRow w)))) ->
  (forall k, (k < workers)%nat ->
     (workers + Z.to_nat n * (length writers + 5)
      <= count_occ Nat.eq_dec schedule k)%nat) ->
  exists order,
    order ≡ₚ List.filter test (seqZ 0 n) /\
    Table_rowCount (pResultTable p) = Table_rowCount res + Z.of_nat (length order) /\
    columns (header (pResultTable p)) = columns (header res) /\
    (forall q r c, order !! q = Some r ->
       getCell (pResultTable p) (Table_rowCount res + Z.of_nat q) c
       = rowCell src res description src r c
           (getCell res (Table_rowCount res + Z.of_nat q) c)) /\
    (forall r c,
       ~ (Table_rowCount res <= r < Table_rowCount res + Z.of_nat (length order)) ->
       getCell (pResultTable p) r c = getCell res r c).
Proof.
  intros src res n workers p Hb Hn Hfit Hcompiled Hroom Hstart Hne Htest Hfair.
  assert (Hw : Forall writesOneCell writers).
  { eapply forPush_Forall; [|exact Hcompiled].
    intros d fw. apply generateFieldWriter_writesOneCell. }
  assert (Hv0 : visitInvariant n b j workers p0).
  { apply starting_visitInvariant; try assumption. reflexivity. }
  assert (Hw0 : writeInvariant src test (Table_rowCount res) p0).
  { apply starting_writeInvariant; try assumption; reflexivity. }
  assert (Hv : visitInvariant n b j workers p).
  { apply runPool_visitInvariant; assumption. }
  assert (Hwr : writeInvariant src test (Table_rowCount res) p).
  { apply runPool_writeInvariant; assumption. }
  assert (Hc : exists log, contentInvariant src res description log p).
  { eapply runPool_contentInvariant; try eassumption.
    apply starting_contentInvariant; try assumption. reflexivity. }
  destruct Hc as [log Hc].
  assert (Hsettled : Forall (fun t => isSettled (pc t) = true) (pThreads p)).
  { eapply runPool_settles; try eassumption.
    intros k Hk. specialize (Hfair k Hk).
    destruct (starting_aggregates writers p0 Hstart) as (_ & _ & _ & _ & _ & I6).
    unfold potential. rewrite I6. destruct Hstart as [-> _].
    rewrite Z.sub_0_r. exact Hfair. }
  pose proof Hwr as Hfacts.
  eapply writeInvariant_facts in Hfacts; try eassumption.
  destruct Hfacts as (F1 & _ & _ & F4).
  destruct (F4 Hne Hsettled) as [F5 _].
  assert (Hfin : Forall (fun t => pc t = finished) (pThreads p)).
  { apply Forall_lookup. intros k t Hk.
    pose proof (proj1 (Forall_lookup _ _) F1 k t Hk) as H1.
    pose proof (proj1 (Forall_lookup _ _) Hsettled k t Hk) as H2.
    simpl in H1, H2. destruct (pc t); try discriminate; reflexivity. }
  exists (log.*1).
  split.
  - destruct Hc as (_ & _ & C3 & _). rewrite C3. exact F5.
  - eapply contentInvariant_facts; eassumption.
Qed.

Lemma workers_visit_witness :
  let p := runPool (S4_tester 0) (fieldWritersOf (idTable 50) emptyResult S6_description)
             50 8 (roundRobin3 60) (startPool (idTable 50) emptyResult 3) in
  NoDup (allVisited p) /\
  (forall r, r ∈ allVisited p -> 0 <= r < 50) /\
  (pThreads (startPool (idTable 50) emptyResult 3) <> [] ->
   Forall (fun t => pc t = finished) (pThreads p) ->
   allVisited p ≡ₚ seqZ 0 50) /\
  (Forall (fun t => isSettled (pc t) = true) (pThreads p) ->
   allVisited p ++ allLost p ≡ₚ seqZ 0 (Z.min (pIndices0 p) 50)).
Proof.
  apply (workers_visit_each_row_once (S4_tester 0)
           (fieldWritersOf (idTable 50) emptyResult S6_description) 8 7
           (startPool (idTable 50) emptyResult 3) (roundRobin3 60)).
  - lia.
  - unfold Table_rowCount. simpl. lia.
  - vm_compute. reflexivity.
  - apply fieldWritersOf_frame.
  - split; [reflexivity|]. repeat constructor.
Defined.

(** Three workers taking turns on a table of 50 rows in batches of 8:
    who visits what, and who writes. *)
Example workers_taking_turns :
  map (fun t => (tVisited t, tWritten t))
      (pThreads (runPool (S4_tester 0)
                   (fieldWritersOf (idTable 50) emptyResult S6_description)
                   50 8 (roundRobin3 60) (startPool (idTable 50) emptyResult 3)))
  = [ (seqZ 0 8 ++ seqZ 40 8, [7; 42]);
      (seqZ 8 8 ++ seqZ 24 8 ++ seqZ 48 2, []);
      (seqZ 16 8 ++ seqZ 32 8, []) ].
Proof. vm_compute. reflexivity. Qed.

(** A worker that dies on row 3 of its batch of six rows leaves rows 4
    and 5 to nobody. *)
Example dead_worker_loses_its_batch :
  map (fun t => (isFailed (pc t), tVisited t, lost (pc t)))
      (pThreads (runPool (testerOf (idTable 6) failsOnRow2 FilterExpressionMode.DNF)
                   (fieldWritersOf (idTable 6) emptyResult S6_description)
                   6 6 [0; 1; 0; 0; 0; 0; 0; 1; 1; 0]%nat
                   (startPool (idTable 6) emptyResult 2)))
  = [ (true, [0; 1; 2; 3], [4; 5]); (false, [], []) ].
Proof. vm_compute. reflexivity. Qed.


Lemma workers_write_witness :
  let p := runPool (S4_tester 0) (fieldWritersOf (idTable 50) emptyResult S6_description)
             50 8 (roundRobin3 353) (startPool (idTable 50) emptyResult 3) in
  Forall (fun t => pc t = finished) (pThreads p) /\
  allVisited p ≡ₚ seqZ 0 50 /\
  allWritten p ≡ₚ List.filter S4_test (seqZ 0 50) /\
  toUint32 (Table_rowCount (pResultTable p))
  = toUint32 (0 + Z.of_nat (length (List.filter S4_test (seqZ 0 50)))).
Proof.
  destruct (workers_write_each_matching_row_once (S4_tester 0)
              (fieldWritersOf (idTable 50) emptyResult S6_description) S4_test 8 7
              (startPool (idTable 50) emptyResult 3) (roundRobin3 353))
    as (_ & _ & _ & Hend).
  - lia.
  - unfold Table_rowCount. simpl. lia.
  - vm_compute. reflexivity.
  - apply fieldWritersOf_frame.
  - split; [reflexivity|]. repeat constructor.
  - intros w Hw. apply (S4_tester_total (idTable 50) 0 w Hw).
  - apply Hend.
    + discriminate.
    + intros k Hk.
      destruct k as [|[|[|k]]]; [vm_compute; lia ..|simpl in Hk; lia].
Defined.

Lemma workers_fill_witness :
  let p := runPool (S4_tester 0) (fieldWritersOf (idTable 50) emptyResult S6_description)
             50 8 (roundRobin3 353) (startPool (idTable 50) emptyResult 3) in
  exists order,
    order ≡ₚ List.filter S4_test (seqZ 0 50) /\
    Table_rowCount (pResultTable p) = 0 + Z.of_nat (length order) /\
    columns (header (pResultTable p)) = columns (header emptyResult) /\
    (forall q r c, order !! q = Some r ->
       getCell (pResultTable p) (0 + Z.of_nat q) c
       = rowCell (idTable 50) emptyResult S6_description (idTable 50) r c
           (getCell emptyResult (0 + Z.of_nat q) c)) /\
    (forall r c,
       ~ (0 <= r < 0 + Z.of_nat (length order)) ->
       getCell (pResultTable p) r c = getCell emptyResult r c).
Proof.
  apply (workers_fill_one_result_row_per_match (S4_tester 0) S6_description
           (fieldWritersOf (idTable 50) emptyResult S6_description) S4_test 8 7
           (startPool (idTable 50) emptyResult 3) (roundRobin3 353)).
  - lia.
  - unfold Table_rowCount. simpl. lia.
  - vm_compute. reflexivity.
  - reflexivity.
  - unfold Table_rowCount. simpl. unfold u32. lia.
  - split; [reflexivity|]. repeat constructor.
  - discriminate.
  - intros w Hw. apply (S4_tester_total (idTable 50) 0 w Hw).
  - intros k Hk.
    destruct k as [|[|[|k]]]; [vm_compute; lia ..|simpl in Hk; lia].
Defined.

(** Three workers on six rows that all match, in batches of one, the
    third worker starting first: the result rows are allocated for the
    source rows in the order 1, 0, 2, 3, 4, 5, and each holds one source
    row whole. *)
Example workers_interleaved_rows :
  let p := runPool filterTesterEmpty
             (fieldWritersOf (idTable 6) emptyResult S6_description)
             6 1 ([2; 2; 1; 1; 1; 0; 2; 0; 0]%nat ++ roundRobin3 40)
             (startPool (idTable 6) emptyResult 3) in
  map (fun q => (getCell (pResultTable p) q 0, getCell (pResultTable p) q 1)) (seqZ 0 6)
  = map (fun r => (VNum (Z2float r), VNum (Z2float r))) [1; 0; 2; 3; 4; 5].
Proof. vm_compute. reflexivity. Qed.

(** ** Tables as objects in memory *)

Lemma Uint8Array_set_lookup (source : list Z) (offset : Z) (target bytes : list Z) :
  Uint8Array_set source offset target = Some bytes ->
  0 <= offset /\ offset + Z.of_nat (length source) <= Z.of_nat (length target) /\
  length bytes = length target /\
  (forall i : nat,
     bytes !! i
     = if (offset <=? Z.of_nat i) && (Z.of_nat i <? offset + Z.of_nat (length source))
       then source !! (i - Z.to_nat offset)%nat
       else target !! i).
Proof.
  unfold Uint8Array_set.
  destruct (Z.ltb_spec offset 0) as [Hneg|Hpos]; [discriminate|].
  destruct (Z.ltb_spec (Z.of_nat (length target)) (offset + Z.of_nat (length source)))
    as [Hbig|Hfit]; [discriminate|].
  simpl. intros H. inversion H. subst bytes. clear H.
  split; [exact Hpos|]. split; [exact Hfit|]. split.
  - rewrite !length_app, length_take, length_drop. lia.
  - intros i.
    assert (Htake : length (take (Z.to_nat offset) target) = Z.to_nat offset).
    { rewrite length_take. lia. }
    destruct (Z.leb_spec offset (Z.of_nat i)) as [Hlo|Hlo]; simpl.
    + rewrite lookup_app_r by lia. rewrite Htake.
      destruct (Z.ltb_spec (Z.of_nat i) (offset + Z.of_nat (length source))) as [Hhi|Hhi].
      * rewrite lookup_app_l by lia. reflexivity.
      * rewrite lookup_app_r by lia. rewrite lookup_drop. f_equal. lia.
    + rewrite lookup_app_l by lia. apply lookup_take_lt. lia.
Qed.

(** X25.  [emptyFromBinaryHeader] copies the header image into the
    buffer at the block's address and builds the table on the block.  It
    raises a RangeError, leaving the buffer alone and building nothing,
    exactly when the image does not fit between the address and the end
    of the buffer.  Otherwise the buffer keeps its length, holds the
    image from the address on and is unchanged everywhere else, nothing
    is freed, and the table is the one its constructor reads from the
    buffer with the image in place.  The block's size is not consulted:
    an image longer than the block overwrites what lies behind the
    block. *)
Theorem emptyFromBinaryHeader_copies_the_image
  (Header_new : list Z -> MemoryBlock -> result Header)
  (image : list Z) (memory : MemoryBlock) (h : Heap) :
  let fits := 0 <= b_address memory /\
              b_address memory + Z.of_nat (length image) <= Z.of_nat (length (buffer h)) in
  (emptyFromBinaryHeader Header_new image memory h = None <-> ~ fits) /\
  (forall r h', emptyFromBinaryHeader Header_new image memory h = Some (r, h') ->
     fits /\
     length (buffer h') = length (buffer h) /\
     (forall i : nat, (i < length image)%nat ->
        buffer h' !! (Z.to_nat (b_address memory) + i)%nat = image !! i) /\
     (forall i : nat,
        ~ (b_address memory <= Z.of_nat i
           < b_address memory + Z.of_nat (length image)) ->
        buffer h' !! i = buffer h !! i) /\
     freed h' = freed h /\
     r = new_Table Header_new memory h').
Proof.
  intros fits. unfold emptyFromBinaryHeader.
  destruct (Uint8Array_set image (b_address memory) (buffer h)) as [bytes|] eqn:Hset.
  - destruct (Uint8Array_set_lookup _ _ _ _ Hset) as (H0 & H1 & H2 & H3).
    split.
    + split; [discriminate|]. intros Hnot. exfalso. apply Hnot. split; assumption.
    + intros r h' H. inversion H. subst r h'. cbn [buffer freed].
      split; [split; assumption|]. split; [exact H2|]. split; [|split; [|split]].
      * intros i Hlt. rewrite H3.
        destruct (Z.leb_spec (b_address memory)
                    (Z.of_nat (Z.to_nat (b_address memory) + i))); [|lia].
        destruct (Z.ltb_spec (Z.of_nat (Z.to_nat (b_address memory) + i))
                    (b_address memory + Z.of_nat (length image))); [|lia].
        simpl. f_equal. lia.
      * intros i Hout. rewrite H3.
        destruct (Z.leb_spec (b_address memory) (Z.of_nat i)); [|reflexivity].
        destruct (Z.ltb_spec (Z.of_nat i) (b_address memory + Z.of_nat (length image)));
          [lia|reflexivity].
      * reflexivity.
      * reflexivity.
  - split; [|intros r h' H; discriminate].
    split; [|reflexivity]. intros _ [H0 H1].
    unfold Uint8Array_set in Hset.
    destruct (Z.ltb_spec (b_address memory) 0); [lia|].
    destruct (Z.ltb_spec (Z.of_nat (length (buffer h)))
                (b_address memory + Z.of_nat (length image))); [lia|].
    discriminate.
Qed.

(** A header image of four bytes stamped on a block of two bytes at
    address 2 of a buffer of eight: the two bytes behind the block are
    overwritten. *)
Example emptyFromBinaryHeader_past_the_block :
  snd <$> emptyFromBinaryHeader (fun _ _ => Throw (Thrown "no header"))
            [1; 2; 3; 4] {| b_address := 2; b_size := 2 |}
            {| buffer := [0; 0; 0; 0; 9; 9; 0; 0]; freed := [] |}
  = Some {| buffer := [0; 0; 1; 2; 3; 4; 0; 0]; freed := [] |}.
Proof. reflexivity. Qed.

Lemma tableCall_destroyed (c : TableCall) (h : Heap) :
  tableCall c ({| mMemory := None; mHeader := None |}, h)
  = (fst (tableCall c ({| mMemory := None; mHeader := None |}, h)),
     ({| mMemory := None; mHeader := None |}, h)) /\
  isTypeError (fst (tableCall c ({| mMemory := None; mHeader := None |}, h))) = true.
Proof. destruct c; split; reflexivity. Qed.

Lemma tableCalls_destroyed (cs : list TableCall) (h : Heap) :
  tableCalls cs ({| mMemory := None; mHeader := None |}, h)
  = ({| mMemory := None; mHeader := None |}, h).
Proof.
  induction cs as [|c cs IH]; [reflexivity|].
  unfold tableCalls in *. cbn [foldl].
  destruct (tableCall_destroyed c h) as [-> _]. exact IH.
Qed.

(** X26.  [destroy] is terminal, and frees once.  Over any sequence of
    calls of [destroy], [rowCount] and [addRows] on a table that holds a
    block, each call in a [try]: the block is handed back to the heap
    exactly once if the sequence has a [destroy], never otherwise, and
    no other block is; and once the table is destroyed every further
    call, a second [destroy] too, raises a TypeError and changes
    nothing. *)
Theorem destroy_frees_once_and_is_terminal (cs : list TableCall) (t : TableObject)
  (h : Heap) (memory : MemoryBlock) (hd : Header) :
  mMemory t = Some memory ->
  mHeader t = Some hd ->
  freed (snd (tableCalls cs (t, h)))
  = freed h ++ (if existsb isDestroy cs then [memory] else []) /\
  (existsb isDestroy cs = true ->
   fst (tableCalls cs (t, h)) = {| mMemory := None; mHeader := None |} /\
   forall c,
     let after := tableCall c (tableCalls cs (t, h)) in
     isTypeError (fst after) = true /\ snd after = tableCalls cs (t, h)).
Proof.
  revert t h hd. induction cs as [|c cs IH]; intros t h hd Hm Hh.
  - simpl. rewrite app_nil_r. split; [reflexivity|discriminate].
  - change (tableCalls (c :: cs) (t, h))
      with (tableCalls cs (snd (tableCall c (t, h)))).
    destruct c as [| |count]; cbn [existsb isDestroy orb tableCall].
    + unfold destroy. rewrite Hm. cbn [snd].
      rewrite tableCalls_destroyed. cbn [fst snd MemoryBlock_free freed].
      split; [reflexivity|]. intros _. split; [reflexivity|].
      intros c. destruct (tableCall_destroyed c (MemoryBlock_free memory h)) as [E1 E2].
      split; [exact E2|]. rewrite E1. reflexivity.
    + unfold get_rowCount. rewrite Hh. cbn [snd]. apply (IH t h hd Hm Hh).
    + unfold TableObject_addRows. rewrite Hh.
      destruct (Header_addRows count hd) as [old hd'] eqn:Hadd. cbn [snd].
      apply (IH _ h hd'); [exact Hm|reflexivity].
Qed.

Lemma destroy_witness :
  freed (snd (tableCalls [callAddRows 2; callDestroy; callRowCount; callDestroy]
                ({| mMemory := Some {| b_address := 8; b_size := 64 |};
                    mHeader := Some {| columns := []; rowCount := 0 |} |},
                 {| buffer := []; freed := [] |})))
  = [] ++ [ {| b_address := 8; b_size := 64 |} ] /\
  (true = true ->
   fst (tableCalls [callAddRows 2; callDestroy; callRowCount; callDestroy]
          ({| mMemory := Some {| b_address := 8; b_size := 64 |};
              mHeader := Some {| columns := []; rowCount := 0 |} |},
           {| buffer := []; freed := [] |}))
   = {| mMemory := None; mHeader := None |} /\
   forall c,
     let after := tableCall c
                    (tableCalls [callAddRows 2; callDestroy; callRowCount; callDestroy]
                       ({| mMemory := Some {| b_address := 8; b_size := 64 |};
                           mHeader := Some {| columns := []; rowCount := 0 |} |},
                        {| buffer := []; freed := [] |})) in
     isTypeError (fst after) = true /\
     snd after
     = tableCalls [callAddRows 2; callDestroy; callRowCount; callDestroy]
         ({| mMemory := Some {| b_address := 8; b_size := 64 |};
             mHeader := Some {| columns := []; rowCount := 0 |} |},
          {| buffer := []; freed := [] |})).
Proof.
  apply (destroy_frees_once_and_is_terminal
           [callAddRows 2; callDestroy; callRowCount; callDestroy]
           {| mMemory := Some {| b_address := 8; b_size := 64 |};
              mHeader := Some {| columns := []; rowCount := 0 |} |}
           {| buffer := []; freed := [] |}
           {| b_address := 8; b_size := 64 |} {| columns := []; rowCount := 0 |});
    reflexivity.
Defined.

(** ** The ordering operations *)

Lemma SFcompare_antisym (f1 f2 : spec_float) :
  SFcompare f2 f1 = option_map CompOpp (SFcompare f1 f2).
Proof.
  destruct f1 as [s1|s1| |s1 m1 e1], f2 as [s2|s2| |s2 m2 e2]; simpl;
    try reflexivity;
    try (destruct s1; reflexivity); try (destruct s2; reflexivity);
    try (destruct s1, s2; reflexivity).
  pose proof (Pos.compare_cont_antisym m1 m2 Eq) as Ha. simpl in Ha.
  destruct s1, s2; simpl; try reflexivity;
    rewrite (Z.compare_antisym e1 e2); destruct (e1 ?= e2); simpl; try reflexivity;
    rewrite <- Ha; destruct (Pos.compare_cont Eq m1 m2); reflexivity.
Qed.

Lemma SFcompare_None (f1 f2 : spec_float) :
  SFcompare f1 f2 = None -> f1 = S754_nan \/ f2 = S754_nan.
Proof.
  destruct f1 as [s1|s1| |s1 m1 e1], f2 as [s2|s2| |s2 m2 e2]; simpl;
    try discriminate; auto.
Qed.

Lemma is_nan_Prim2SF (x : float) : is_nan x = true <-> Prim2SF x = S754_nan.
Proof.
  unfold is_nan. rewrite FloatAxioms.eqb_spec. unfold SFeqb.
  split.
  - intros H. destruct (SFcompare (Prim2SF x) (Prim2SF x)) as [c|] eqn:Hc.
    + exfalso. revert Hc H. destruct (Prim2SF x) as [s|s| |s m e]; simpl;
        try discriminate; intros Hc; inversion Hc; subst c; try (destruct s; discriminate).
      destruct s; rewrite Z.compare_refl, Pos.compare_cont_refl; discriminate.
    + destruct (SFcompare_None _ _ Hc); assumption.
  - intros ->. reflexivity.
Qed.

Section OrderingFacts.

Variable toNum : ByteString -> float.

(** X27.  The four ordering operations on a numeric field.  They compile
    for every value, and on a row whose field holds the number [x], with
    [v] the number the rule's value parses to: [lessThanOrEqual] is
    [lessThan] or [equal], and [greaterThanOrEqual] is [greaterThan] or
    [equal]; when neither [x] nor [v] is NaN, [greaterThan] is the
    negation of [lessThanOrEqual] and [lessThan] that of
    [greaterThanOrEqual], so exactly one of [lessThan], [equal] and
    [greaterThan] holds; when either is NaN, all five are false, so that
    no operation is then the negation of another. *)
Theorem ordering_operations_on_numbers (tbl : Table) (rule : FilterRule)
  (k : nat) (c : Column) (x : float) (w : World) :
  names tbl !! field rule = Some k ->
  columns (header tbl) !! k = Some c ->
  ColumnType_eqb (type c) ByteStringType = false ->
  getter k w = VNum x ->
  let v := parseFloat (valueToString (value rule)) in
  exists lt le gt ge eq : bool,
    ruleResult toNum tbl (withOperation FilterOperation.lessThan rule) w = Ok lt /\
    ruleResult toNum tbl (withOperation FilterOperation.lessThanOrEqual rule) w = Ok le /\
    ruleResult toNum tbl (withOperation FilterOperation.greaterThan rule) w = Ok gt /\
    ruleResult toNum tbl (withOperation FilterOperation.greaterThanOrEqual rule) w = Ok ge /\
    ruleResult toNum tbl (withOperation FilterOperation.equal rule) w = Ok eq /\
    le = lt || eq /\ ge = gt || eq /\
    (is_nan x = false -> is_nan v = false ->
     gt = negb le /\ lt = negb ge /\ (lt && eq = false) /\ (gt && eq = false)) /\
    (is_nan x = true \/ is_nan v = true ->
     lt = false /\ le = false /\ gt = false /\ ge = false /\ eq = false).
Proof.
  intros Hname Hcol Htype Hcell v.
  exists (PrimFloat.ltb x v), (PrimFloat.leb x v), (PrimFloat.ltb v x),
         (PrimFloat.leb v x), (PrimFloat.eqb x v).
  unfold ruleResult, outcome, _generateRuleTester, withOperation, accessor,
    columnIsByteString. simpl.
  rewrite Hname. simpl. rewrite Hcol. simpl. rewrite Htype. simpl. rewrite Hcell. simpl.
  fold v.
  do 5 (split; [reflexivity|]).
  rewrite !FloatAxioms.ltb_spec, !FloatAxioms.leb_spec, !FloatAxioms.eqb_spec.
  unfold SFltb, SFleb, SFeqb.
  rewrite (SFcompare_antisym (Prim2SF x) (Prim2SF v)).
  split; [destruct (SFcompare (Prim2SF x) (Prim2SF v)) as [[]|]; reflexivity|].
  split; [destruct (SFcompare (Prim2SF x) (Prim2SF v)) as [[]|]; reflexivity|].
  split.
  - intros Hx Hv.
    destruct (SFcompare (Prim2SF x) (Prim2SF v)) as [[]|] eqn:Hc;
      try (repeat split; reflexivity).
    exfalso. destruct (SFcompare_None _ _ Hc) as [H|H];
      apply is_nan_Prim2SF in H; congruence.
  - intros Hnan.
    assert (Hc : SFcompare (Prim2SF x) (Prim2SF v) = None).
    { destruct Hnan as [H|H]; apply is_nan_Prim2SF in H; rewrite H;
        [reflexivity|destruct (Prim2SF x); reflexivity]. }
    rewrite Hc. repeat split; reflexivity.
Qed.

End OrderingFacts.

Lemma ordering_operations_witness :
  let rule := mkRule "id" FilterOperation.equal "42" in
  let w := worldAt (idTable 50) emptyResult 7 in
  let x := Z2float 7 in
  let v := parseFloat (valueToString (value rule)) in
  exists lt le gt ge eq : bool,
    ruleResult toNumberNaN (idTable 50) (withOperation FilterOperation.lessThan rule) w
    = Ok lt /\
    ruleResult toNumberNaN (idTable 50) (withOperation FilterOperation.lessThanOrEqual rule) w
    = Ok le /\
    ruleResult toNumberNaN (idTable 50) (withOperation FilterOperation.greaterThan rule) w
    = Ok gt /\
    ruleResult toNumberNaN (idTable 50)
      (withOperation FilterOperation.greaterThanOrEqual rule) w = Ok ge /\
    ruleResult toNumberNaN (idTable 50) (withOperation FilterOperation.equal rule) w
    = Ok eq /\
    le = lt || eq /\ ge = gt || eq /\
    (is_nan x = false -> is_nan v = false ->
     gt = negb le /\ lt = negb ge /\ (lt && eq = false) /\ (gt && eq = false)) /\
    (is_nan x = true \/ is_nan v = true ->
     lt = false /\ le = false /\ gt = false /\ ge = false /\ eq = false).
Proof.
  apply (ordering_operations_on_numbers toNumberNaN (idTable 50)
           (mkRule "id" FilterOperation.equal "42") 0
           {| name := "id"; type := Uint32 |} (Z2float 7)
           (worldAt (idTable 50) emptyResult 7)); reflexivity.
Defined.

(** Row 7 against the value 42. *)
Example ordering_operations_run :
  map (fun op => ruleResult toNumberNaN (idTable 50)
                   (withOperation op (mkRule "id" FilterOperation.equal "42"))
                   (worldAt (idTable 50) emptyResult 7))
      [ FilterOperation.lessThan; FilterOperation.lessThanOrEqual;
        FilterOperation.greaterThan; FilterOperation.greaterThanOrEqual;
        FilterOperation.equal ]
  = [Ok true; Ok true; Ok false; Ok false; Ok false].
Proof. vm_compute. reflexivity. Qed.

(** ** [in] and [notIn] over their values *)

Lemma forPush_map_Ok {A B C} (f : B -> result C) (g : A -> B) (h : A -> C) (l : list A) :
  (forall a, f (g a) = Ok (h a)) -> forPush f (map g l) = Ok (map h l).
Proof.
  intros H. induction l as [|a l IH]; simpl; [reflexivity|].
  rewrite H, IH. reflexivity.
Qed.

Lemma forPush_map_Throw {A B C} (f : B -> result C) (g : A -> B) (e : JsError)
  (a : A) (l : list A) :
  (forall a, f (g a) = Throw e) -> forPush f (map g (a :: l)) = Throw e.
Proof. intros H. simpl. rewrite H. reflexivity. Qed.

Section ValuesFacts.

Variable toNum : ByteString -> float.

Lemma in_text_unfolds (k : nat) (l : list string) (w : World) :
  filterTesterDNF
    (map (fun s => ruleTesterDNF
                     [Some (fun w => call_equalsCase (getter k w) (ByteString_fromString s))])
         l) w
  = filterIn_ByteString (getter k w) (map ByteString_fromString l).
Proof.
  induction l as [|s l IH]; simpl; [reflexivity|].
  destruct (call_equalsCase (getter k w) (ByteString_fromString s)) as [[|]|e];
    [reflexivity|exact IH|reflexivity].
Qed.

Lemma in_number_unfolds (k : nat) (l : list string) (w : World) :
  filterTesterDNF
    (map (fun s => ruleTesterDNF
                     [Some (fun w => Ok (strictEquals (getter k w) (parseFloat s)))])
         l) w
  = Ok (filterIn_number (getter k w) (map parseFloat l)).
Proof.
  induction l as [|s l IH]; simpl; [reflexivity|].
  destruct (strictEquals (getter k w) (parseFloat s)); [reflexivity|exact IH].
Qed.

Lemma notIn_text_unfolds (k : nat) (l : list string) (w : World) :
  filterTesterCNF
    (map (fun s => ruleTesterCNF
                     [Some (fun w => negb <$> call_equalsCase (getter k w)
                                                (ByteString_fromString s))])
         l) w
  = filterNotIn_ByteString (getter k w) (map ByteString_fromString l).
Proof.
  induction l as [|s l IH]; simpl; [reflexivity|].
  destruct (call_equalsCase (getter k w) (ByteString_fromString s)) as [[|]|e];
    simpl; [reflexivity|exact IH|reflexivity].
Qed.

Lemma notIn_number_unfolds (k : nat) (l : list string) (w : World) :
  filterTesterCNF
    (map (fun s => ruleTesterCNF
                     [Some (fun w => Ok (negb (strictEquals (getter k w) (parseFloat s))))])
         l) w
  = Ok (filterNotIn_number (getter k w) (map parseFloat l)).
Proof.
  induction l as [|s l IH]; simpl; [reflexivity|].
  destruct (strictEquals (getter k w) (parseFloat s)); simpl; [reflexivity|exact IH].
Qed.

(** X28.  [in] is [equal] over its values, and [notIn] is [notEqual]
    over them.  For a non-empty array of values, the rule [field in
    values] alone is, on every table and every row, the DNF expression
    with one clause [field = v] per value, and the rule [field notIn
    values] alone is the CNF expression with one clause [field != v] per
    value: the same value, the same error on the row, the same error of
    compilation. *)
Theorem in_is_equal_over_its_values (tbl : Table) (f : string) (values : list string)
  (w : World) :
  values <> [] ->
  expressionResult toNum tbl FilterExpressionMode.DNF
    [[ {| field := f; operation := FilterOperation.in_; value := Array values |} ]] w
  = expressionResult toNum tbl FilterExpressionMode.DNF
      (perValue FilterOperation.equal f values) w /\
  expressionResult toNum tbl FilterExpressionMode.CNF
    [[ {| field := f; operation := FilterOperation.notIn; value := Array values |} ]] w
  = expressionResult toNum tbl FilterExpressionMode.CNF
      (perValue FilterOperation.notEqual f values) w.
Proof.
  intros Hne. destruct values as [|s0 l]; [congruence|]. clear Hne.
  set (values := s0 :: l).
  assert (Hexpr : forall mode r,
            expressionResult toNum tbl mode [[r]] w
            = match _generateClauseTester toNum tbl mode [r] with
              | Ok t => if modeIsDNF mode
                        then filterTesterDNF [t] w else filterTesterCNF [t] w
              | Throw e => Throw e
              end).
  { intros mode r. unfold expressionResult, outcome, _generateExpressionTester.
    cbn [forPush].
    destruct (_generateClauseTester toNum tbl mode [r]) as [t|e]; cbn [mbind result_bind];
      [|reflexivity].
    destruct (modeIsDNF mode); reflexivity. }
  assert (Hper : forall mode op,
            expressionResult toNum tbl mode (perValue op f values) w
            = match forPush (_generateClauseTester toNum tbl mode)
                      (perValue op f values) with
              | Ok ts => if modeIsDNF mode
                         then filterTesterDNF ts w else filterTesterCNF ts w
              | Throw e => Throw e
              end).
  { intros mode op. unfold expressionResult, outcome, _generateExpressionTester.
    unfold values, perValue. cbn [map].
    match goal with |- context [forPush ?g ?x] => destruct (forPush g x) as [ts|e] end;
      cbn [mbind result_bind]; [|reflexivity].
    destruct (modeIsDNF mode); reflexivity. }
  rewrite !Hexpr, !Hper. clear Hexpr Hper.
  unfold _generateClauseTester at 1 3. cbn [forPush].
  unfold _generateRuleTester at 1 2. cbn [field operation value].
  destruct (accessor tbl f) as [k|e] eqn:Ha; cbn [mbind result_bind].
  2:{ unfold perValue, values.
      rewrite !(forPush_map_Throw _ _ e).
      - split; reflexivity.
      - intros s. unfold _generateClauseTester, _generateRuleTester, mkRule.
        cbn [forPush field]. rewrite Ha. reflexivity.
      - intros s. unfold _generateClauseTester, _generateRuleTester, mkRule.
        cbn [forPush field]. rewrite Ha. reflexivity. }
  destruct (columnIsByteString tbl k) as [[|]|e] eqn:Hc; cbn [mbind result_bind value_map].
  - unfold perValue.
    rewrite (forPush_map_Ok _ _
               (fun s => ruleTesterDNF
                  [Some (fun w => call_equalsCase (getter k w) (ByteString_fromString s))])).
    2:{ intros s. unfold _generateClauseTester, _generateRuleTester, mkRule.
        cbn [forPush field operation value valueToString]. rewrite Ha.
        cbn [mbind result_bind]. rewrite Hc. reflexivity. }
    rewrite (forPush_map_Ok _ _
               (fun s => ruleTesterCNF
                  [Some (fun w => negb <$> call_equalsCase (getter k w)
                                             (ByteString_fromString s))])).
    2:{ intros s. unfold _generateClauseTester, _generateRuleTester, mkRule.
        cbn [forPush field operation value valueToString]. rewrite Ha.
        cbn [mbind result_bind]. rewrite Hc. reflexivity. }
    cbn [modeIsDNF]. rewrite in_text_unfolds, notIn_text_unfolds.
    cbn [filterTesterDNF filterTesterCNF ruleTesterDNF ruleTesterCNF callTester].
    split.
    + destruct (filterIn_ByteString (getter k w) (map ByteString_fromString values))
        as [[|]|e]; reflexivity.
    + destruct (filterNotIn_ByteString (getter k w) (map ByteString_fromString values))
        as [[|]|e]; reflexivity.
  - unfold perValue.
    rewrite (forPush_map_Ok _ _
               (fun s => ruleTesterDNF
                  [Some (fun w => Ok (strictEquals (getter k w) (parseFloat s)))])).
    2:{ intros s. unfold _generateClauseTester, _generateRuleTester, mkRule.
        cbn [forPush field operation value valueToString]. rewrite Ha.
        cbn [mbind result_bind]. rewrite Hc. reflexivity. }
    rewrite (forPush_map_Ok _ _
               (fun s => ruleTesterCNF
                  [Some (fun w => Ok (negb (strictEquals (getter k w) (parseFloat s))))])).
    2:{ intros s. unfold _generateClauseTester, _generateRuleTester, mkRule.
        cbn [forPush field operation value valueToString]. rewrite Ha.
        cbn [mbind result_bind]. rewrite Hc. reflexivity. }
    cbn [modeIsDNF]. rewrite in_number_unfolds, notIn_number_unfolds.
    cbn [filterTesterDNF filterTesterCNF ruleTesterDNF ruleTesterCNF callTester].
    split.
    + destruct (filterIn_number (getter k w) (map parseFloat values)); reflexivity.
    + destruct (filterNotIn_number (getter k w) (map parseFloat values)); reflexivity.
  - unfold perValue, values.
    rewrite !(forPush_map_Throw _ _ e).
    + split; reflexivity.
    + intros s. unfold _generateClauseTester, _generateRuleTester, mkRule.
      cbn [forPush field operation]. rewrite Ha. cbn [mbind result_bind].
      rewrite Hc. reflexivity.
    + intros s. unfold _generateClauseTester, _generateRuleTester, mkRule.
      cbn [forPush field operation]. rewrite Ha. cbn [mbind result_bind].
      rewrite Hc. reflexivity.
Qed.

End ValuesFacts.

Lemma in_is_equal_witness :
  expressionResult toNumberNaN peopleTable FilterExpressionMode.DNF
    [[ {| field := "name"; operation := FilterOperation.in_;
          value := Array ["Ada"; "Cid"] |} ]] (worldAt peopleTable emptyResult 2)
  = expressionResult toNumberNaN peopleTable FilterExpressionMode.DNF
      (perValue FilterOperation.equal "name" ["Ada"; "Cid"])
      (worldAt peopleTable emptyResult 2) /\
  expressionResult toNumberNaN peopleTable FilterExpressionMode.CNF
    [[ {| field := "name"; operation := FilterOperation.notIn;
          value := Array ["Ada"; "Cid"] |} ]] (worldAt peopleTable emptyResult 2)
  = expressionResult toNumberNaN peopleTable FilterExpressionMode.CNF
      (perValue FilterOperation.notEqual "name" ["Ada"; "Cid"])
      (worldAt peopleTable emptyResult 2).
Proof.
  apply (in_is_equal_over_its_values toNumberNaN peopleTable "name" ["Ada"; "Cid"]
           (worldAt peopleTable emptyResult 2)).
  discriminate.
Defined.

(** The three rows of the people table against [name in [Ada, Cid]], and
    the empty array, for which the two forms differ: the rule matches no
    row, the expression without clauses every row. *)
Example in_over_values_run :
  map (fun r => expressionResult toNumberNaN peopleTable FilterExpressionMode.DNF
                  (perValue FilterOperation.equal "name" ["Ada"; "Cid"])
                  (worldAt peopleTable emptyResult r)) [0; 1; 2]
  = [Ok true; Ok false; Ok true] /\
  expressionResult toNumberNaN peopleTable FilterExpressionMode.DNF
    [[ {| field := "name"; operation := FilterOperation.in_; value := Array [] |} ]]
    (worldAt peopleTable emptyResult 0) = Ok false /\
  expressionResult toNumberNaN peopleTable FilterExpressionMode.DNF
    (perValue FilterOperation.equal "name" []) (worldAt peopleTable emptyResult 0)
  = Ok true.
Proof. vm_compute. repeat split; reflexivity. Qed.
